(** * Offline write buffer of fastygo/backend: store, drain loop, repositories, health

    A shallow embedding of the Go sources

      - internal/infrastructure/buffer  (Item, normalize, buildKey, Store)
      - internal/services               (BufferProcessor, BufferBridge)
      - internal/services/lifecycle     (Manager)
      - repository/postgres             (userRepository, taskRepository)
      - usecase/task, usecase/profile   (the write use cases, shouldBuffer)
      - internal/infrastructure/monitor (Status, IsOnline, refresh)
      - domain                          (Error, IsDomainError)
      - api/handler                     (HealthHandler.Check, TaskHandler.DeleteTask,
                                         mapError, parseInt)
      - internal/config                 (getInt)

    followed by the properties proved about them.

    Conventions.  Go [int] and [int64] values are [Z]; [[]byte] and Go strings
    are [string] (a list of bytes), compared bytewise by [String.compare],
    which is [bytes.Compare].  Everything the code reads from its environment
    (the wall clock, the UUID generator, whether a bbolt transaction commits,
    whether PostgreSQL answers) is an explicit argument that the caller
    supplies, so every function below is executable. *)

From Stdlib Require Import ZArith List String Ascii Bool Lia Sorted.
Import ListNotations.

Local Open Scope string_scope.
Local Open Scope Z_scope.

(** ** fmt: the two verbs used by [buildKey] *)

Module fmt.

(** The ASCII digit of [d], for [0 <= d < 10]. *)
Definition digit (d : Z) : ascii := ascii_of_N (48 + Z.to_N d).

(** [fixed w n]: the [w] low decimal digits of [n], most significant
    first, with leading zeros. *)
Fixpoint fixed (w : nat) (n : Z) : string :=
  match w with
  | O => EmptyString
  | S w' => String (digit (n / 10 ^ Z.of_nat w')) (fixed w' (n mod 10 ^ Z.of_nat w'))
  end.

Fixpoint ndigits_aux (fuel : nat) (n : Z) : nat :=
  match fuel with
  | O => 1%nat
  | S f => if n <? 10 then 1%nat else S (ndigits_aux f (n / 10))
  end.

(** Number of decimal digits of [n >= 0] (1 for 0). *)
Definition ndigits (n : Z) : nat := ndigits_aux (S (Z.to_nat (Z.log2 n))) n.

(** [%0<w>d]: sign, then the digits zero-padded so that the whole text is
    at least [w] bytes wide.  [width 0] is plain [%d]. *)
Definition width (w : nat) (n : Z) : string :=
  if n <? 0
  then String "-" (fixed (Nat.max (w - 1) (ndigits (- n))) (- n))
  else fixed (Nat.max w (ndigits n)) n.

Definition d (n : Z) : string := width 0 n.
Definition d020 (n : Z) : string := width 20 n.

End fmt.

(** ** strconv: [Atoi] on a 64-bit platform *)

Module strconv.

(** The value of an ASCII digit. *)
Definition digitValue (c : ascii) : option Z :=
  let n := Z.of_N (N_of_ascii c) in
  if (48 <=? n) && (n <=? 57) then Some (n - 48) else None.

(** The number written by a text of digits, after the digits read so
    far; [None] when a byte is not a digit. *)
Fixpoint digits (acc : Z) (s : string) : option Z :=
  match s with
  | EmptyString => Some acc
  | String c s' =>
      match digitValue c with
      | Some d => digits (acc * 10 + d) s'
      | None => None
      end
  end.

(** [strconv.Atoi]: an optional sign and at least one digit, nothing
    else, and a value that fits an [int64]; [None] when it returns an
    error. *)
Definition Atoi (s : string) : option Z :=
  match s with
  | EmptyString => None
  | String c rest =>
      let neg := Ascii.eqb c "-" in
      let body := if neg || Ascii.eqb c "+" then rest else s in
      match body with
      | EmptyString => None
      | _ =>
          match digits 0 body with
          | None => None
          | Some n =>
              let v := if neg then - n else n in
              if (- 2 ^ 63 <=? v) && (v <? 2 ^ 63) then Some v else None
          end
      end
  end.

End strconv.

(** ** config: reading the environment

    [getenv] is [os.Getenv]: the value of a variable, empty when it is
    not set. *)

Module config.

Definition getInt (getenv : string -> string) (key : string) (fallback : Z) : Z :=
  let val := getenv key in
  if String.eqb val "" then fallback
  else
    match strconv.Atoi val with
    | Some parsed => parsed
    | None => fallback
    end.

End config.

(** ** Errors

    Go's [error] values that the modelled code creates or forwards. *)

Inductive error : Type :=
| ErrDatabaseNotOpen                 (* bolt.ErrDatabaseNotOpen *)
| ErrBolt                            (* any error of a bbolt transaction, or of json.Marshal in Enqueue *)
| ErrUnmarshal                       (* json.Unmarshal of a payload *)
| ErrMarshal                         (* json.Marshal of a domain value *)
| ErrUnsupportedOperation (op : string)
| ErrUnsupportedEntity (entity : string)
| ErrNotConfigured                   (* "buffer processor not configured" *)
| ErrInvalidPayload                  (* domain.ErrInvalidPayload *)
| ErrUserNotFound                    (* domain.ErrUserNotFound *)
| ErrTaskNotFound                    (* domain.ErrTaskNotFound *)
| ErrUniqueViolation                 (* PostgreSQL 23505 on a primary key *)
| ErrConnection.                     (* PostgreSQL unreachable *)

(** ** time.Time

    [TimeZero] is the zero [time.Time] (January 1, year 1), the only value
    for which [IsZero] holds; [TimeAt ns] is the instant [ns] nanoseconds
    after the Unix epoch.  [UnixNano] of the zero time is the wrapped value
    Go returns for it. *)

Inductive Time : Type :=
| TimeZero
| TimeAt (ns : Z).

Definition IsZero (t : Time) : bool :=
  match t with TimeZero => true | TimeAt _ => false end.

Definition UnixNano (t : Time) : Z :=
  match t with TimeZero => -6795364578871345152 | TimeAt ns => ns end.

(** The instant of [t] in nanoseconds after the Unix epoch; the zero time
    is January 1 of the year 1, UTC. *)
Definition sinceEpoch (t : Time) : Z :=
  match t with TimeZero => -62135596800000000000 | TimeAt ns => ns end.

(** [t.Before(u)] *)
Definition Before (t u : Time) : bool := sinceEpoch t <? sinceEpoch u.

(** ** bbolt: one bucket

    A bucket is a B+tree; all the code observes of it is [Put], [Delete]
    and a cursor that walks the keys in [bytes.Compare] order.  It is
    modelled as the association list of its pairs in cursor order. *)

Module bolt.

Section Bucket.
Context {V : Type}.

Definition Bucket : Type := list (string * V).

Fixpoint Put (k : string) (v : V) (b : Bucket) : Bucket :=
  match b with
  | [] => [(k, v)]
  | (k', v') :: b' =>
      match String.compare k k' with
      | Lt => (k, v) :: b
      | Eq => (k, v) :: b'
      | Gt => (k', v') :: Put k v b'
      end
  end.

Fixpoint Delete (k : string) (b : Bucket) : Bucket :=
  match b with
  | [] => []
  | (k', v') :: b' =>
      if String.eqb k k' then b' else (k', v') :: Delete k b'
  end.

Fixpoint Get (k : string) (b : Bucket) : option V :=
  match b with
  | [] => None
  | (k', v') :: b' => if String.eqb k k' then Some v' else Get k b'
  end.

(** [Stats().KeyN] *)
Definition KeyN (b : Bucket) : Z := Z.of_nat (List.length b).

(** [db.Update(fn)]: the transaction commits, or it fails and leaves
    the bucket as it was. *)
Definition Update (fails : bool) (fn : Bucket -> Bucket) (b : Bucket)
  : Bucket * option error :=
  if fails then (b, Some ErrBolt) else (fn b, None).

End Bucket.

Arguments Bucket V : clear implicits.

End bolt.

(** ** buffer: Item and Store *)

Module buffer.

Definition EntityProfile := "profile".
Definition EntityTask := "task".
Definition OperationCreate := "create".
Definition OperationUpdate := "update".
Definition OperationDelete := "delete".

Record Item : Type := mkItem {
  ID : string;
  UserID : string;
  Entity : string;
  Operation : string;
  Data : string;          (* json.RawMessage *)
  Priority : Z;
  Retries : Z;
  Timestamp : Time;
  bucketKey : string      (* unexported; empty when nil *)
}.

Definition set_ID (v : string) (i : Item) : Item :=
  mkItem v (UserID i) (Entity i) (Operation i) (Data i) (Priority i) (Retries i) (Timestamp i) (bucketKey i).
Definition set_Priority (v : Z) (i : Item) : Item :=
  mkItem (ID i) (UserID i) (Entity i) (Operation i) (Data i) v (Retries i) (Timestamp i) (bucketKey i).
Definition set_Retries (v : Z) (i : Item) : Item :=
  mkItem (ID i) (UserID i) (Entity i) (Operation i) (Data i) (Priority i) v (Timestamp i) (bucketKey i).
Definition set_Timestamp (v : Time) (i : Item) : Item :=
  mkItem (ID i) (UserID i) (Entity i) (Operation i) (Data i) (Priority i) (Retries i) v (bucketKey i).
Definition set_bucketKey (v : string) (i : Item) : Item :=
  mkItem (ID i) (UserID i) (Entity i) (Operation i) (Data i) (Priority i) (Retries i) (Timestamp i) v.

(** What [Enqueue] reads from its environment: [time.Now()],
    [uuid.NewString()], and whether marshalling or the transaction
    fails. *)
Record Env : Type := mkEnv {
  now : Z;
  uuid : string;
  fails : bool
}.

Definition normalize (e : Env) (i : Item) : Item :=
  let i := if String.eqb (ID i) "" then set_ID (uuid e) i else i in
  let i := if (Priority i <=? 0) || (5 <? Priority i) then set_Priority 3 i else i in
  if IsZero (Timestamp i) then set_Timestamp (TimeAt (now e)) i else i.

(** [fmt.Sprintf("%d_%020d_%s", ...)] *)
Definition buildKey (i : Item) : string :=
  fmt.d (Priority i) ++ "_" ++ fmt.d020 (UnixNano (Timestamp i)) ++ "_" ++ ID i.

(** A value of the bucket: the JSON of an item, or bytes that
    [json.Unmarshal] rejects.  [bucketKey] is unexported, so it is not
    part of the JSON. *)
Inductive Entry : Type :=
| Stored (i : Item)
| Corrupt.

Definition marshal (i : Item) : Entry := Stored (set_bucketKey "" i).

(** [*Store]: [None] is a nil store (or a nil [db]). *)
Definition Store : Type := option (bolt.Bucket Entry).

Definition Enqueue (e : Env) (item : Item) (s : Store) : Store * option error :=
  match s with
  | None => (None, Some ErrDatabaseNotOpen)
  | Some b =>
      let item := normalize e item in
      let key := buildKey item in
      let item := set_bucketKey key item in
      let (b', err) := bolt.Update (fails e) (bolt.Put key (marshal item)) b in
      (Some b', err)
  end.

(** The cursor loop of [GetBatch]. *)
Fixpoint scan (limit : nat) (b : bolt.Bucket Entry) : list Item :=
  match b with
  | [] => []
  | (k, v) :: b' =>
      match limit with
      | O => []
      | S l =>
          match v with
          | Stored i => set_bucketKey k i :: scan l b'
          | Corrupt => scan limit b'
          end
      end
  end.

Definition GetBatch (viewFails : bool) (limit : Z) (s : Store) : list Item * option error :=
  match s with
  | None => ([], Some ErrDatabaseNotOpen)
  | Some b =>
      let limit := if limit <=? 0 then 50 else limit in
      if viewFails then ([], Some ErrBolt) else (scan (Z.to_nat limit) b, None)
  end.

(** The cursor loop of [deleteByID]: delete the first readable entry
    with that id. *)
Fixpoint deleteFirstByID (id : string) (b : bolt.Bucket Entry) : bolt.Bucket Entry :=
  match b with
  | [] => []
  | (k, v) :: b' =>
      match v with
      | Stored i => if String.eqb (ID i) id then b' else (k, v) :: deleteFirstByID id b'
      | Corrupt => (k, v) :: deleteFirstByID id b'
      end
  end.

Definition deleteByID (txFails : bool) (id : string) (b : bolt.Bucket Entry)
  : bolt.Bucket Entry * option error :=
  if String.eqb id "" then (b, None)
  else bolt.Update txFails (deleteFirstByID id) b.

Definition Remove (txFails : bool) (item : Item) (s : Store) : Store * option error :=
  match s with
  | None => (None, Some ErrDatabaseNotOpen)
  | Some b =>
      let (b', err) :=
        if (String.length (bucketKey item) =? 0)%nat
        then deleteByID txFails (ID item) b
        else bolt.Update txFails (bolt.Delete (bucketKey item)) b in
      (Some b', err)
  end.

Definition Requeue (e : Env) (item : Item) (s : Store) : Store * option error :=
  let item := set_bucketKey "" item in
  let item := set_Timestamp (TimeAt (now e)) item in
  Enqueue e item s.

Definition Size (viewFails : bool) (s : Store) : Z * option error :=
  match s with
  | None => (0, Some ErrDatabaseNotOpen)
  | Some b => if viewFails then (0, Some ErrBolt) else (bolt.KeyN b, None)
  end.

(** The cursor loop of [Cleanup]: delete every readable entry whose
    timestamp is before [olderThan].  The cursor walks the pages the
    transaction started with, so a [Delete] does not disturb the walk. *)
Fixpoint deleteOlder (olderThan : Time) (b : bolt.Bucket Entry) : bolt.Bucket Entry :=
  match b with
  | [] => []
  | (k, v) :: b' =>
      match v with
      | Stored i =>
          if Before (Timestamp i) olderThan then deleteOlder olderThan b'
          else (k, v) :: deleteOlder olderThan b'
      | Corrupt => (k, v) :: deleteOlder olderThan b'
      end
  end.

Definition Cleanup (txFails : bool) (olderThan : Time) (s : Store) : Store * option error :=
  match s with
  | None => (None, Some ErrDatabaseNotOpen)
  | Some b =>
      let (b', err) := bolt.Update txFails (deleteOlder olderThan) b in
      (Some b', err)
  end.

End buffer.

(** ** domain *)

Module domain.

Module User.
Record User : Type := mkUser {
  ID : string;
  Email : string;
  Role : string;
  Status : string;
  Metadata : list (string * string);
  CreatedAt : Time;
  UpdatedAt : Time
}.
End User.

Module Task.
Record Task : Type := mkTask {
  ID : string;
  UserID : string;
  Title : string;
  Description : string;
  Status : string;
  Priority : Z;
  DueDate : option Time;
  Metadata : list (string * string);
  CreatedAt : Time;
  UpdatedAt : Time
}.
End Task.

Definition ErrCodeNotFound := "NOT_FOUND".
Definition ErrCodeInvalid := "INVALID".
Definition ErrCodeConflict := "CONFLICT".
Definition ErrCodeForbidden := "FORBIDDEN".
Definition ErrCodeUnauthorized := "UNAUTHORIZED".
Definition ErrCodeInternal := "INTERNAL".

(** An error value, as far as [Error()] and [errors.As] can tell:
    [Error] is a [*domain.Error] (not nil) with its three fields, of
    which [Err] is what its [Unwrap] returns; [Other] is an error of any
    other type, with its text and what its [Unwrap] returns.  A nil
    [error] is [None]. *)
#[warnings="-register-all"]
Inductive goerror : Type :=
| Error (Code : string) (Message : string) (Err : option goerror)
| Other (text : string) (unwrap : option goerror).

(** [err.Error()] *)
Fixpoint text (err : goerror) : string :=
  match err with
  | Error _ message (Some inner) => message ++ ": " ++ text inner
  | Error _ message None => message
  | Other t _ => t
  end.

Definition NewError (code message : string) : goerror := Error code message None.

Definition WrapError (code message : string) (err : option goerror) : goerror :=
  Error code message err.

Definition ErrUserNotFound := NewError ErrCodeNotFound "user not found".
Definition ErrTaskNotFound := NewError ErrCodeNotFound "task not found".
Definition ErrSessionNotFound := NewError ErrCodeNotFound "session not found".
Definition ErrAggregateNotFound := NewError ErrCodeNotFound "aggregate not found".
Definition ErrUnauthorized := NewError ErrCodeUnauthorized "unauthorized".
Definition ErrInvalidPayload := NewError ErrCodeInvalid "invalid payload".

(** [errors.As(err, &dErr)]: the code of the first [*Error] on the
    [Unwrap] chain. *)
Fixpoint asError (err : goerror) : option string :=
  match err with
  | Error code _ _ => Some code
  | Other _ (Some inner) => asError inner
  | Other _ None => None
  end.

Definition IsDomainError (err : option goerror) (code : string) : bool :=
  match err with
  | None => false
  | Some e =>
      match asError e with
      | Some c => String.eqb c code
      | None => false
      end
  end.

End domain.

Abbreviation User := domain.User.User.
Abbreviation Task := domain.Task.Task.

(** The errors of the modelled code as error values.  Three of them are
    the package's own [*Error] variables; the others are made by
    [fmt.Errorf] without a wrapped error, by [errors.New], or by bbolt,
    encoding/json and pgx, and carry no [*Error]; [describe] gives the
    text of those whose text depends on the library. *)
Definition errorValue (describe : error -> string) (err : error) : domain.goerror :=
  match err with
  | ErrInvalidPayload => domain.ErrInvalidPayload
  | ErrUserNotFound => domain.ErrUserNotFound
  | ErrTaskNotFound => domain.ErrTaskNotFound
  | ErrNotConfigured => domain.Other "buffer processor not configured" None
  | ErrUnsupportedOperation op => domain.Other ("unsupported operation " ++ op) None
  | ErrUnsupportedEntity entity => domain.Other ("unsupported entity " ++ entity) None
  | ErrDatabaseNotOpen => domain.Other "database not open" None
  | _ => domain.Other (describe err) None
  end.

(** ** repository: the two interfaces

    [R] is the state behind the repositories and [E] what a call reads
    from its environment.  Only the methods that the modelled code calls
    are listed.  The [*domain.User] and [*domain.Task] arguments may be
    nil. *)

Class Repositories (R E : Type) : Type := {
  Upsert : E -> option User -> R -> R * option error;
  Create : E -> option Task -> R -> R * (option Task * option error);
  Update : E -> option Task -> R -> R * option error;
  Delete : E -> string -> R -> R * option error
}.

(** [Upsert], [Create] and [Update] also write to the struct behind
    their pointer.  The methods of this class give that struct as the call
    leaves it, whether the call fails or not. *)
Class Pointees (R E : Type) : Type := {
  afterUpsert : E -> User -> R -> User;
  afterCreate : E -> Task -> R -> Task;
  afterUpdate : E -> Task -> R -> Task
}.

(** ** encoding/json on the two domain types

    [json.Unmarshal] into a [domain.User] or [domain.Task] and
    [json.Marshal] of one; [None] is an error. *)

Class Json : Type := {
  unmarshalUser : string -> option User;
  unmarshalTask : string -> option Task;
  marshalUser : User -> option string;
  marshalTask : Task -> option string
}.

(** ** monitor *)

Module monitor.

Record Status : Type := mkStatus {
  PostgreSQL : bool;
  Redis : bool;
  Buffer : bool;
  BufferSize : Z;
  LastCheck : Time
}.

(** The status a monitor holds from [New] until its first [refresh]: the
    zero value of [Status]. *)
Definition New : Status := mkStatus false false false 0 TimeZero.

(** [Monitor.IsOnline], on the status the monitor holds. *)
Definition IsOnline (status : Status) : bool := PostgreSQL status && Redis status.

(** [Monitor.GetStatus] *)
Definition GetStatus (status : Status) : Status := status.

(** [Monitor.checkBuffer]: [m.buffer == nil] is a [None] store. *)
Definition checkBuffer (viewFails : bool) (s : buffer.Store) : bool * Z :=
  match s with
  | None => (false, 0)
  | Some _ =>
      match buffer.Size viewFails s with
      | (size, Some _) => (false, size)
      | (size, None) => (true, size)
      end
  end.

(** [Monitor.refresh], given the outcome of the two pings. *)
Definition refresh (pgPing redisPing viewFails : bool) (clock : Z) (s : buffer.Store) : Status :=
  let (bufferOK, bufferSize) := checkBuffer viewFails s in
  mkStatus pgPing redisPing bufferOK bufferSize (TimeAt clock).

End monitor.

(** ** services: BufferProcessor and BufferBridge *)

Module services.
Import buffer.
Local Open Scope list_scope.

(** What the run of a method leaves behind besides the new state: the
    repository methods invoked, the calls of [processItem] with what they
    returned, and the logger calls. *)
Inductive Call : Type :=
| CallUpsert (user : User)
| CallCreate (task : Task)
| CallUpdate (task : Task)
| CallDelete (id : string).

Inductive Level : Type := Debug | Info | Warn | Error.

Inductive Event : Type :=
| EvProcess (item : Item) (err : option error)
| EvCall (c : Call)
| EvLog (level : Level) (msg : string).

Record ProcessorConfig : Type := mkConfig {
  Interval : Z;        (* nanoseconds *)
  BatchSize : Z;
  MaxRetries : Z
}.

(** [monitor] is the [ConnectionHealth] of the processor: [None] when
    nil, else the status its monitor holds at the time of the call. *)
Record BufferProcessor : Type := mkProcessor {
  monitor : option monitor.Status;
  cfg : ProcessorConfig
}.

Definition NewBufferProcessor (mon : option monitor.Status) (c : ProcessorConfig)
  : BufferProcessor :=
  let c := if Interval c <=? 0 then mkConfig (30 * 1000000000) (BatchSize c) (MaxRetries c) else c in
  let c := if BatchSize c <=? 0 then mkConfig (Interval c) 50 (MaxRetries c) else c in
  let c := if MaxRetries c <=? 0 then mkConfig (Interval c) (BatchSize c) 3 else c in
  mkProcessor mon c.

Section Processor.
Context {R E : Type} `{Repositories R E} `{Json}.

(** The store behind [bp.store] ([None] when that pointer is nil) and
    the state behind the repositories. *)
Record World : Type := mkWorld {
  store : Store;
  repo : R
}.

Definition processItem (e : E) (item : Item) (r : R)
  : R * option error * list Event :=
  let returned := EvProcess item in
  if String.eqb (Entity item) EntityProfile then
    match unmarshalUser (Data item) with
    | None => (r, Some ErrUnmarshal, [returned (Some ErrUnmarshal)])
    | Some user =>
        let (r', err) := Upsert e (Some user) r in
        (r', err, [EvCall (CallUpsert user); returned err])
    end
  else if String.eqb (Entity item) EntityTask then
    match unmarshalTask (Data item) with
    | None => (r, Some ErrUnmarshal, [returned (Some ErrUnmarshal)])
    | Some task =>
        if String.eqb (Operation item) OperationCreate then
          let (r', res) := Create e (Some task) r in
          (r', snd res, [EvCall (CallCreate task); returned (snd res)])
        else if String.eqb (Operation item) OperationUpdate then
          let (r', err) := Update e (Some task) r in
          (r', err, [EvCall (CallUpdate task); returned err])
        else if String.eqb (Operation item) OperationDelete then
          let (r', err) := Delete e (domain.Task.ID task) r in
          (r', err, [EvCall (CallDelete (domain.Task.ID task)); returned err])
        else
          let err := Some (ErrUnsupportedOperation (Operation item)) in
          (r, err, [returned err])
    end
  else
    let err := Some (ErrUnsupportedEntity (Entity item)) in
    (r, err, [returned err]).

(** What one iteration of the loop of [Drain] reads from its
    environment. *)
Record IterEnv : Type := mkIterEnv {
  repoEnv : E;
  removeFails : bool;
  requeueEnv : Env
}.

Definition logIf (err : option error) (l : Level) (msg : string) : list Event :=
  match err with Some _ => [EvLog l msg] | None => [] end.

(** The body of the loop of [Drain]. *)
Definition drainItem (bp : BufferProcessor) (e : IterEnv) (item : Item) (w : World)
  : World * list Event :=
  let '(r', err, evs) := processItem (repoEnv e) item (repo w) in
  match err with
  | Some _ =>
      let evs := evs ++ [EvLog Error "failed to process buffer item"] in
      let item := set_Retries (Retries item + 1) item in
      if Retries item >=? MaxRetries (cfg bp) then
        let (s', _) := Remove (removeFails e) item (store w) in
        (mkWorld s' r',
         evs ++ [EvLog Warn "dropping buffer item (max retries reached)"])
      else
        let (s1, rmErr) := Remove (removeFails e) item (store w) in
        let (s2, rqErr) := Requeue (requeueEnv e) item s1 in
        (mkWorld s2 r',
         evs ++ logIf rmErr Warn "failed to remove buffer item"
             ++ logIf rqErr Error "failed to requeue buffer item")
  | None =>
      let (s', rmErr) := Remove (removeFails e) item (store w) in
      (mkWorld s' r', evs ++ logIf rmErr Warn "failed to purge processed buffer item")
  end.

Fixpoint drainItems (bp : BufferProcessor) (env : nat -> IterEnv) (n : nat)
  (items : list Item) (w : World) : World * list Event :=
  match items with
  | [] => (w, [])
  | item :: rest =>
      let (w1, ev1) := drainItem bp (env n) item w in
      let (w2, ev2) := drainItems bp env (S n) rest w1 in
      (w2, ev1 ++ ev2)
  end.

(** What one call of [Drain] reads from its environment: whether the
    read transaction of [GetBatch] fails, and the environment of the
    n-th iteration. *)
Record TickEnv : Type := mkTickEnv {
  viewFails : bool;
  iter : nat -> IterEnv
}.

Definition Drain (bp : BufferProcessor) (e : TickEnv) (w : World)
  : World * list Event * option error :=
  match store w with
  | None => (w, [], None)
  | Some _ =>
      if match monitor bp with
         | Some status => negb (monitor.IsOnline status)
         | None => false
         end
      then (w, [EvLog Debug "skipping buffer drain (offline)"], None)
      else
        match GetBatch (viewFails e) (BatchSize (cfg bp)) (store w) with
        | (_, Some err) => (w, [], Some err)
        | (items, None) =>
            let (w', evs) := drainItems bp (iter e) 0 items w in
            (w', evs, None)
        end
  end.

Definition BufferOperation (bp : BufferProcessor) (re : E) (qe : Env)
  (item : Item) (w : World) : World * list Event * option error :=
  match store w with
  | None => (w, [], Some ErrNotConfigured)
  | Some _ =>
      if match monitor bp with
         | None => true
         | Some status => monitor.IsOnline status
         end
      then
        let '(r', err, evs) := processItem re item (repo w) in
        match err with
        | None => (mkWorld (store w) r', evs, None)
        | Some _ =>
            let (s', qerr) := Enqueue qe item (store w) in
            (mkWorld s' r',
             evs ++ [EvLog Warn "immediate processing failed, buffering"], qerr)
        end
      else
        let (s', qerr) := Enqueue qe item (store w) in
        (mkWorld s' (repo w), [], qerr)
  end.

(** [BufferBridge]: [None] is a nil [processor]. *)
Definition BufferBridge : Type := option BufferProcessor.

Definition BufferProfile (b : BufferBridge) (re : E) (qe : Env)
  (operation : string) (user : option User) (w : World)
  : World * list Event * option error :=
  match b, user with
  | Some bp, Some u =>
      match marshalUser u with
      | None => (w, [], Some ErrMarshal)
      | Some payload =>
          let item := mkItem "" (domain.User.ID u) EntityProfile operation payload 3 0 TimeZero "" in
          BufferOperation bp re qe item w
      end
  | _, _ => (w, [], Some ErrInvalidPayload)
  end.

Definition BufferTask (b : BufferBridge) (re : E) (qe : Env)
  (operation : string) (task : option Task) (w : World)
  : World * list Event * option error :=
  match b, task with
  | Some bp, Some t =>
      match marshalTask t with
      | None => (w, [], Some ErrMarshal)
      | Some payload =>
          let item := mkItem (domain.Task.ID t) (domain.Task.UserID t) EntityTask operation payload 4 0 TimeZero "" in
          BufferOperation bp re qe item w
      end
  | _, _ => (w, [], Some ErrInvalidPayload)
  end.

End Processor.

Arguments World R : clear implicits.
Arguments IterEnv E : clear implicits.
Arguments TickEnv E : clear implicits.

End services.

(** ** repository/postgres

    The two tables as lists of rows keyed by [id].  The migrations are not
    part of the sources; the schema is the one the repository documents in
    .project/backend/guide.md, where [id] is the PRIMARY KEY of [users] and
    of [tasks] (the [ON CONFLICT (id)] clause of [Upsert] needs it for
    [users]) and [created_at], [updated_at] default to [NOW()]. *)

Module postgres.
Local Open Scope list_scope.

Record UserRow : Type := mkUserRow {
  u_email : string;
  u_role : string;
  u_status : string;
  u_metadata : option (list (string * string));
  u_created_at : Time;
  u_updated_at : Time
}.

Record TaskRow : Type := mkTaskRow {
  t_user_id : string;
  t_title : string;
  t_description : string;
  t_status : string;
  t_priority : Z;
  t_due_date : option Time;
  t_metadata : option (list (string * string));
  t_created_at : Time;
  t_updated_at : Time
}.

Record DB : Type := mkDB {
  users : list (string * UserRow);
  tasks : list (string * TaskRow)
}.

(** What a statement reads from its environment: whether the pool
    reaches the server, the server's [NOW()], and [uuid.NewString()]. *)
Record Env : Type := mkEnv {
  up : bool;
  now : Z;
  uuid : string
}.

Section Table.
Context {Row : Type}.

Fixpoint find (id : string) (t : list (string * Row)) : option Row :=
  match t with
  | [] => None
  | (k, r) :: t' => if String.eqb k id then Some r else find id t'
  end.

(** [UPDATE ... WHERE id = $1] *)
Definition modify (id : string) (f : Row -> Row) (t : list (string * Row))
  : list (string * Row) :=
  map (fun kr => if String.eqb (fst kr) id then (fst kr, f (snd kr)) else kr) t.

(** [DELETE ... WHERE id = $1] *)
Definition remove (id : string) (t : list (string * Row)) : list (string * Row) :=
  filter (fun kr => negb (String.eqb (fst kr) id)) t.

Definition rowsAffected (id : string) (t : list (string * Row)) : nat :=
  List.length (filter (fun kr => String.eqb (fst kr) id) t).
End Table.

Definition marshalMap (data : list (string * string)) : option (list (string * string)) :=
  match data with [] => None | _ => Some data end.

Definition nullTime (t : Time) : option Time :=
  if IsZero t then None else Some t.

Definition coalesce (a : option Time) (b : Time) : Time :=
  match a with Some t => t | None => b end.

(** [userRepository.Upsert] *)
Definition Upsert (e : Env) (user : option User) (db : DB) : DB * option error :=
  match user with
  | None => (db, Some ErrInvalidPayload)
  | Some u =>
      if negb (up e) then (db, Some ErrConnection)
      else
        let id := domain.User.ID u in
        let metadata := marshalMap (domain.User.Metadata u) in
        match find id (users db) with
        | None =>
            let row := mkUserRow (domain.User.Email u) (domain.User.Role u)
                         (domain.User.Status u) metadata
                         (coalesce (nullTime (domain.User.CreatedAt u)) (TimeAt (now e)))
                         (TimeAt (now e)) in
            (mkDB (users db ++ [(id, row)]) (tasks db), None)
        | Some _ =>
            let set r := mkUserRow (domain.User.Email u) (domain.User.Role u)
                           (domain.User.Status u) metadata
                           (u_created_at r) (TimeAt (now e)) in
            (mkDB (modify id set (users db)) (tasks db), None)
        end
  end.

(** [taskRepository.Create] *)
Definition Create (e : Env) (task : option Task) (db : DB)
  : DB * (option Task * option error) :=
  match task with
  | None => (db, (None, Some ErrInvalidPayload))
  | Some t =>
      let id := if String.eqb (domain.Task.ID t) "" then uuid e else domain.Task.ID t in
      if negb (up e) then (db, (None, Some ErrConnection))
      else
        match find id (tasks db) with
        | Some _ => (db, (None, Some ErrUniqueViolation))
        | None =>
            let row := mkTaskRow (domain.Task.UserID t) (domain.Task.Title t)
                         (domain.Task.Description t) (domain.Task.Status t)
                         (domain.Task.Priority t) (domain.Task.DueDate t)
                         (marshalMap (domain.Task.Metadata t))
                         (TimeAt (now e)) (TimeAt (now e)) in
            let t' := domain.Task.mkTask id (domain.Task.UserID t) (domain.Task.Title t)
                        (domain.Task.Description t) (domain.Task.Status t)
                        (domain.Task.Priority t) (domain.Task.DueDate t)
                        (domain.Task.Metadata t) (TimeAt (now e)) (TimeAt (now e)) in
            (mkDB (users db) (tasks db ++ [(id, row)]), (Some t', None))
        end
  end.

(** [taskRepository.Update] *)
Definition Update (e : Env) (task : option Task) (db : DB) : DB * option error :=
  match task with
  | None => (db, Some ErrInvalidPayload)
  | Some t =>
      if negb (up e) then (db, Some ErrConnection)
      else
        let id := domain.Task.ID t in
        match find id (tasks db) with
        | None => (db, Some ErrTaskNotFound)
        | Some _ =>
            let set r := mkTaskRow (t_user_id r) (domain.Task.Title t)
                           (domain.Task.Description t) (domain.Task.Status t)
                           (domain.Task.Priority t) (domain.Task.DueDate t)
                           (marshalMap (domain.Task.Metadata t))
                           (t_created_at r) (TimeAt (now e)) in
            (mkDB (users db) (modify id set (tasks db)), None)
        end
  end.

(** [taskRepository.Delete] *)
Definition Delete (e : Env) (id : string) (db : DB) : DB * option error :=
  if negb (up e) then (db, Some ErrConnection)
  else if (rowsAffected id (tasks db) =? 0)%nat then (db, Some ErrTaskNotFound)
  else (mkDB (users db) (remove id (tasks db)), None).

#[global] Instance repositories : Repositories DB Env := {
  Upsert := Upsert;
  Create := Create;
  Update := Update;
  Delete := Delete
}.

(** What [Upsert] leaves in [*user]: the two timestamps that the
    statement returns, when it succeeds. *)
Definition afterUpsert (e : Env) (u : User) (db : DB) : User :=
  if negb (up e) then u
  else
    let created :=
      match find (domain.User.ID u) (users db) with
      | None => coalesce (nullTime (domain.User.CreatedAt u)) (TimeAt (now e))
      | Some r => u_created_at r
      end in
    domain.User.mkUser (domain.User.ID u) (domain.User.Email u) (domain.User.Role u)
      (domain.User.Status u) (domain.User.Metadata u) created (TimeAt (now e)).

(** What [Create] leaves in [*task]: the ID, generated before the
    statement runs when there was none, and the two timestamps that the
    statement returns, when it succeeds. *)
Definition afterCreate (e : Env) (t : Task) (db : DB) : Task :=
  let id := if String.eqb (domain.Task.ID t) "" then uuid e else domain.Task.ID t in
  let stamped (created updated : Time) :=
    domain.Task.mkTask id (domain.Task.UserID t) (domain.Task.Title t)
      (domain.Task.Description t) (domain.Task.Status t) (domain.Task.Priority t)
      (domain.Task.DueDate t) (domain.Task.Metadata t) created updated in
  if negb (up e) then stamped (domain.Task.CreatedAt t) (domain.Task.UpdatedAt t)
  else
    match find id (tasks db) with
    | Some _ => stamped (domain.Task.CreatedAt t) (domain.Task.UpdatedAt t)
    | None => stamped (TimeAt (now e)) (TimeAt (now e))
    end.

(** What [Update] leaves in [*task]: the timestamp that the statement
    returns, when it finds the row. *)
Definition afterUpdate (e : Env) (t : Task) (db : DB) : Task :=
  if negb (up e) then t
  else
    match find (domain.Task.ID t) (tasks db) with
    | None => t
    | Some _ =>
        domain.Task.mkTask (domain.Task.ID t) (domain.Task.UserID t) (domain.Task.Title t)
          (domain.Task.Description t) (domain.Task.Status t) (domain.Task.Priority t)
          (domain.Task.DueDate t) (domain.Task.Metadata t) (domain.Task.CreatedAt t)
          (TimeAt (now e))
    end.

#[global] Instance pointees : Pointees DB Env := {
  afterUpsert := afterUpsert;
  afterCreate := afterCreate;
  afterUpdate := afterUpdate
}.

Module taskRepository.

(** [scanTask] on the row with this id; a NULL [metadata] leaves the
    map nil. *)
Definition scanTask (id : string) (row : TaskRow) : Task :=
  domain.Task.mkTask id (t_user_id row) (t_title row) (t_description row)
    (t_status row) (t_priority row) (t_due_date row)
    (match t_metadata row with Some m => m | None => [] end)
    (t_created_at row) (t_updated_at row).

(** [taskRepository.GetByID] *)
Definition GetByID (e : Env) (id : string) (db : DB) : option Task * option error :=
  if negb (up e) then (None, Some ErrConnection)
  else
    match find id (tasks db) with
    | None => (None, Some ErrTaskNotFound)
    | Some row => (Some (scanTask id row), None)
    end.

End taskRepository.

Module userRepository.

(** [userRepository.GetByID] *)
Definition GetByID (e : Env) (id : string) (db : DB) : option User * option error :=
  if negb (up e) then (None, Some ErrConnection)
  else
    match find id (users db) with
    | None => (None, Some ErrUserNotFound)
    | Some row =>
        (Some (domain.User.mkUser id (u_email row) (u_role row) (u_status row)
                 (match u_metadata row with Some m => m | None => [] end)
                 (u_created_at row) (u_updated_at row)),
         None)
    end.

End userRepository.

End postgres.

(** ** usecase *)

Module usecase.

(** Modelled from the spec: the constants [usecase.OperationCreate],
    [usecase.OperationUpdate] and [usecase.OperationDelete] are used by
    the use cases but their declaration is not part of the sources; the
    spec names the operations create, update and delete. *)
Definition OperationCreate := "create".
Definition OperationUpdate := "update".
Definition OperationDelete := "delete".

End usecase.

(** ** usecase/task *)

Module task.
Import services.
Local Open Scope list_scope.

Section UseCase.
Context {R E : Type} `{Repositories R E} `{Json}.

(** [uc.buffer]: [None] when the interface is nil, else the bridge.
    [uc.tasks] is the [Repositories] instance. *)
Record UseCase : Type := mkUseCase {
  buffer : option BufferBridge
}.

Definition emptyTask (id : string) : Task :=
  domain.Task.mkTask id "" "" "" "" 0 None [] TimeZero TimeZero.

Definition shouldBuffer (uc : UseCase) (re : E) (qe : buffer.Env)
  (operation : string) (t : Task) (w : World R) : World R * list Event * bool :=
  match buffer uc with
  | None => (w, [], false)
  | Some bridge =>
      match BufferTask bridge re qe operation (Some t) w with
      | (w', evs, Some _) =>
          (w', evs ++ [EvLog Error "failed to buffer task operation"], false)
      | (w', evs, None) =>
          (w', evs ++ [EvLog Warn "task operation buffered"], true)
      end
  end.

(** [e] is the environment of the direct [Delete]; [re] and [qe] are
    those of the buffered attempt. *)
Definition DeleteTask (uc : UseCase) (e re : E) (qe : buffer.Env)
  (id : string) (w : World R) : World R * list Event * option error :=
  let (r', err) := Delete e id (repo w) in
  let w1 := mkWorld (store w) r' in
  let ev := [EvCall (CallDelete id)] in
  match err with
  | Some err =>
      match err with
      | ErrTaskNotFound => (w1, ev, Some err)
      | _ =>
          let '(w2, evs, buffered) :=
            shouldBuffer uc re qe usecase.OperationDelete (emptyTask id) w1 in
          if buffered then (w2, ev ++ evs, None) else (w2, ev ++ evs, Some err)
      end
  | None => (w1, ev, None)
  end.

End UseCase.

Section Writes.
Context {R E : Type} `{Repositories R E} `{Pointees R E} `{Json}.

(** [task] is the struct behind the pointer, which the handler builds
    and which is never nil; [e] is the environment of the direct call,
    [re] and [qe] are those of the buffered attempt. *)
Definition CreateTask (uc : UseCase) (e re : E) (qe : buffer.Env)
  (task : Task) (w : World R) : World R * list Event * (option Task * option error) :=
  let (r', res) := Create e (Some task) (repo w) in
  let w1 := mkWorld (store w) r' in
  let ev := [EvCall (CallCreate task)] in
  let task := afterCreate e task (repo w) in
  match snd res with
  | Some err =>
      let '(w2, evs, buffered) :=
        shouldBuffer uc re qe usecase.OperationCreate task w1 in
      if buffered then (w2, ev ++ evs, (Some task, None))
      else (w2, ev ++ evs, (None, Some err))
  | None => (w1, ev, (fst res, None))
  end.

Definition UpdateTask (uc : UseCase) (e re : E) (qe : buffer.Env)
  (task : Task) (w : World R) : World R * list Event * (option Task * option error) :=
  let (r', err) := Update e (Some task) (repo w) in
  let w1 := mkWorld (store w) r' in
  let ev := [EvCall (CallUpdate task)] in
  let task := afterUpdate e task (repo w) in
  match err with
  | Some err =>
      let '(w2, evs, buffered) :=
        shouldBuffer uc re qe usecase.OperationUpdate task w1 in
      if buffered then (w2, ev ++ evs, (Some task, None))
      else (w2, ev ++ evs, (None, Some err))
  | None => (w1, ev, (Some task, None))
  end.

End Writes.

End task.

(** ** usecase/profile *)

Module profile.
Import services.
Local Open Scope list_scope.

(** [uc.buffer]: [None] when the interface is nil, else the bridge.
    [uc.users] is the [Repositories] instance. *)
Record UseCase : Type := mkUseCase {
  buffer : option BufferBridge
}.

Section UseCase.
Context {R E : Type} `{Repositories R E} `{Pointees R E} `{Json}.

(** [user] is the struct behind the pointer, which the handler builds
    and which is never nil. *)
Definition UpdateProfile (uc : UseCase) (e re : E) (qe : buffer.Env)
  (user : User) (w : World R) : World R * list Event * (option User * option error) :=
  let (r', err) := Upsert e (Some user) (repo w) in
  let w1 := mkWorld (store w) r' in
  let ev := [EvCall (CallUpsert user)] in
  let user := afterUpsert e user (repo w) in
  match err with
  | Some err =>
      match buffer uc with
      | Some bridge =>
          match BufferProfile bridge re qe usecase.OperationUpdate (Some user) w1 with
          | (w2, evs, Some _) =>
              (w2, ev ++ evs ++ [EvLog Error "failed to buffer profile update"],
               (None, Some err))
          | (w2, evs, None) =>
              (w2,
               ev ++ evs ++ [EvLog Warn "profile update buffered due to repository error"],
               (Some user, None))
          end
      | None => (w1, ev, (None, Some err))
      end
  | None => (w1, ev, (Some user, None))
  end.

End UseCase.

End profile.

(** ** api/transport and api/handler *)

Module transport.

(** The payload of the health endpoint ([timestamp] and the [services]
    map) is the only value the modelled handler puts in an envelope. *)
Record Services : Type := mkServices {
  postgresql : bool;
  redis : bool;
  buffer_online : bool;
  buffer_size : Z
}.

Record Payload : Type := mkPayload {
  timestamp : Time;
  services : Services
}.

Record Envelope : Type := mkEnvelope {
  Status : string;
  Code : string;
  Data : option Payload;
  Error : option string;
  Meta : option Payload
}.

Definition NewSuccess (data : option Payload) (meta : option Payload) : Envelope :=
  mkEnvelope "success" "" data None meta.

Definition NewError (code : string) (err : option string) (meta : option Payload) : Envelope :=
  mkEnvelope "error" code None err meta.

End transport.

Module handler.
Import transport.

Definition StatusOK := 200.
Definition StatusServiceUnavailable := 503.

Record Response : Type := mkResponse {
  ContentType : string;
  StatusCode : Z;
  Body : Envelope
}.

(** What the handler can reach: the status held by its monitor and the
    buffer store behind that monitor. *)
Record System : Type := mkSystem {
  monitorStatus : monitor.Status;
  bufferStore : buffer.Store
}.

Definition respondJSON (status : Z) (payload : Envelope) : Response :=
  mkResponse "application/json" status payload.

Definition respondSuccess (status : Z) (data : option Payload) : Response :=
  respondJSON status (NewSuccess data None).

(** [HealthHandler.Check]; [clock] is [time.Now()]. *)
Definition Check (clock : Z) (sys : System) : Response * System :=
  let status := monitor.GetStatus (monitorStatus sys) in
  let payload :=
    mkPayload (TimeAt clock)
      (mkServices (monitor.PostgreSQL status) (monitor.Redis status)
         (monitor.Buffer status) (monitor.BufferSize status)) in
  if monitor.PostgreSQL status && monitor.Redis status
  then (respondSuccess StatusOK (Some payload), sys)
  else (respondJSON StatusServiceUnavailable
          (NewError "DEGRADED" (Some "dependencies unhealthy") (Some payload)), sys).

Definition StatusNoContent := 204.
Definition StatusBadRequest := 400.
Definition StatusUnauthorized := 401.
Definition StatusForbidden := 403.
Definition StatusNotFound := 404.
Definition StatusInternalServerError := 500.

Definition mapError (err : domain.goerror) : Z * string :=
  if domain.IsDomainError (Some err) domain.ErrCodeUnauthorized
  then (StatusUnauthorized, domain.ErrCodeUnauthorized)
  else if domain.IsDomainError (Some err) domain.ErrCodeForbidden
  then (StatusForbidden, domain.ErrCodeForbidden)
  else if domain.IsDomainError (Some err) domain.ErrCodeInvalid
  then (StatusBadRequest, domain.ErrCodeInvalid)
  else if domain.IsDomainError (Some err) domain.ErrCodeNotFound
  then (StatusNotFound, domain.ErrCodeNotFound)
  else (StatusInternalServerError, domain.ErrCodeInternal).

Definition respondError (err : domain.goerror) : Response :=
  let (status, code) := mapError err in
  respondJSON status (NewError code (Some (domain.text err)) None).

Definition parseInt (value : string) (fallback : Z) : Z :=
  match strconv.Atoi value with
  | Some v => v
  | None => fallback
  end.

(** What the task handlers read of a request besides its body: the
    header X-User-ID (empty when absent) and the path parameter [id]
    ([None] when [UserValue] holds no string under that name). *)
Record Request : Type := mkRequest {
  XUserID : string;
  pathID : option string
}.

Section TaskHandler.
Context {R E : Type} `{Repositories R E} `{Json}.

(** [TaskHandler.DeleteTask]; [describe] is the text of the library
    errors, [e], [re] and [qe] are the environments of the use case. *)
Definition DeleteTask (describe : error -> string) (uc : task.UseCase)
  (e re : E) (qe : buffer.Env) (req : Request) (w : services.World R)
  : Response * services.World R * list services.Event :=
  if String.eqb (XUserID req) "" then
    (respondJSON StatusUnauthorized
       (NewError domain.ErrCodeUnauthorized (Some "missing user id") None), w, [])
  else
    let id := match pathID req with Some id => id | None => "" end in
    if String.eqb id "" then
      (respondJSON StatusBadRequest
         (NewError domain.ErrCodeInvalid (Some "missing task id") None), w, [])
    else
      match task.DeleteTask uc e re qe id w with
      | (w', evs, Some err) => (respondError (errorValue describe err), w', evs)
      | (w', evs, None) => (respondSuccess StatusNoContent None, w', evs)
      end.

End TaskHandler.

End handler.

(** ** services/lifecycle

    [W] is the state the hooks act on and [Err] the type of the errors
    they return. *)

Module lifecycle.
Local Open Scope list_scope.

Section Manager.
Context {W Err : Type}.

(** What [errors.Join] builds. *)
#[warnings="-register-all"]
Inductive joined : Type :=
| Leaf (err : Err)
| Join (errs : list joined).

(** The errors a joined error stands for, in the order in which
    [Error()] prints them. *)
Fixpoint leaves (j : joined) : list Err :=
  match j with
  | Leaf err => [err]
  | Join errs => flat_map leaves errs
  end.

Definition ShutdownFunc : Type := W -> W * option Err.

Record hook : Type := mkHook {
  name : string;
  fn : ShutdownFunc
}.

Record Manager : Type := mkManager {
  timeout : Z;             (* nanoseconds *)
  hooks : list hook
}.

Inductive Log : Type :=
| Failed (component : string) (err : Err)    (* "shutdown hook failed" *)
| Stopped (component : string).              (* "component stopped" *)

Definition component (l : Log) : string :=
  match l with Failed c _ => c | Stopped c => c end.

(** The errors of the hooks that a log reports as failed, in order. *)
Definition failures (logs : list Log) : list Err :=
  flat_map (fun l => match l with Failed _ err => [err] | Stopped _ => [] end) logs.

(** The errors a result stands for; none when it is nil. *)
Definition joinedLeaves (result : option joined) : list Err :=
  match result with Some j => leaves j | None => [] end.

Definition New (timeout : Z) : Manager :=
  mkManager (if timeout <=? 0 then 15 * 1000000000 else timeout) [].

(** [fn] is [None] for a nil callback. *)
Definition Register (name : string) (fn : option ShutdownFunc) (m : Manager) : Manager :=
  match fn with
  | None => m
  | Some f => mkManager (timeout m) (hooks m ++ [mkHook name f])
  end.

(** [errors.Join(result, err)] with [err] not nil. *)
Definition join (result : option joined) (err : Err) : option joined :=
  match result with
  | None => Some (Join [Leaf err])
  | Some j => Some (Join [j; Leaf err])
  end.

(** The loop of [Shutdown], over the hooks in the order in which it
    visits them. *)
Fixpoint runHooks (hs : list hook) (w : W) (result : option joined)
  : W * list Log * option joined :=
  match hs with
  | [] => (w, [], result)
  | h :: hs' =>
      match fn h w with
      | (w', Some err) =>
          let '(w'', logs, res) := runHooks hs' w' (join result err) in
          (w'', Failed (name h) err :: logs, res)
      | (w', None) =>
          let '(w'', logs, res) := runHooks hs' w' result in
          (w'', Stopped (name h) :: logs, res)
      end
  end.

Definition Shutdown (m : Manager) (w : W) : W * list Log * option joined :=
  runHooks (rev (hooks m)) w None.

End Manager.

Arguments joined Err : clear implicits.
Arguments hook W Err : clear implicits.
Arguments Manager W Err : clear implicits.
Arguments Log Err : clear implicits.
Arguments ShutdownFunc W Err : clear implicits.

End lifecycle.

(** ** Vocabulary of the statements about the store *)

Module order.
Import buffer.

(** The order of the tuple [(priority, enqueued_at, id)]. *)
Definition tupleCompare (a b : Item) : comparison :=
  match Priority a ?= Priority b with
  | Eq =>
      match UnixNano (Timestamp a) ?= UnixNano (Timestamp b) with
      | Eq => String.compare (ID a) (ID b)
      | c => c
      end
  | c => c
  end.

Definition tupleLt (a b : Item) : Prop := tupleCompare a b = Lt.

(** A record as [normalize] leaves it when the clock is an [int64] after
    the epoch. *)
Definition normalized (i : Item) : Prop :=
  1 <= Priority i <= 5 /\ 0 <= UnixNano (Timestamp i) < 2 ^ 63.

Definition clockOK (e : Env) : Prop := 0 <= now e < 2 ^ 63.

Definition stampOK (i : Item) : Prop :=
  Timestamp i = TimeZero \/ 0 <= UnixNano (Timestamp i) < 2 ^ 63.

Definition keyLt {V : Type} (x y : string * V) : Prop :=
  String.compare (fst x) (fst y) = Lt.

(** The cursor invariant of a bucket: keys strictly ascending. *)
Definition keyOrdered {V : Type} (b : bolt.Bucket V) : Prop :=
  StronglySorted keyLt b.

(** Every value is the JSON of a normalized item filed under its own
    key. *)
Definition filed (kv : string * Entry) : Prop :=
  exists i, snd kv = Stored i /\ fst kv = buildKey i /\ normalized i.

Definition wellFiled (b : bolt.Bucket Entry) : Prop :=
  keyOrdered b /\ Forall filed b.

(** The stores that [Open] followed by calls of the store's methods can
    produce. *)
Inductive fromEnqueues : Store -> Prop :=
| fe_Open : fromEnqueues (Some [])
| fe_Enqueue e item s :
    fromEnqueues s -> clockOK e -> stampOK item ->
    fromEnqueues (fst (Enqueue e item s))
| fe_Remove txFails item s :
    fromEnqueues s -> fromEnqueues (fst (Remove txFails item s))
| fe_Requeue e item s :
    fromEnqueues s -> clockOK e ->
    fromEnqueues (fst (Requeue e item s)).

(** The item with its counter incremented, as the failure branch of
    the drain loop holds it. *)
Definition retried (item : Item) : Item := set_Retries (Retries item + 1) item.

(** The item as [Requeue] hands it to [Enqueue]. *)
Definition refreshed (e : Env) (i : Item) : Item :=
  set_Timestamp (TimeAt (now e)) (set_bucketKey "" i).

(** The key under which [Requeue] files the item. *)
Definition requeueKey (e : Env) (i : Item) : string :=
  buildKey (normalize e (refreshed e i)).

(** Two items that are the same record: everything but the retry
    counter, the timestamp and the handle agrees. *)
Definition sameRecord (a b : Item) : Prop :=
  ID a = ID b /\ UserID a = UserID b /\ Entity a = Entity b
  /\ Operation a = Operation b /\ Data a = Data b /\ Priority a = Priority b.

(** The store holds the record. *)
Definition held (s : Store) (r : Item) : Prop :=
  exists k i, match s with Some b => bolt.Get k b | None => None end = Some (Stored i)
              /\ sameRecord r i.

(** A payload that [processItem] cannot deserialize into the domain
    type of the item's entity. *)
Definition poison `{Json} (i : Item) : Prop :=
  (Entity i = EntityProfile /\ unmarshalUser (Data i) = None)
  \/ (Entity i = EntityTask /\ unmarshalTask (Data i) = None).

End order.

(** ** Reading a run *)

Module run.
Import services.
Local Open Scope list_scope.

(** The three parts of what a method returns. *)
Definition world {A B C : Type} (x : A * B * C) : A := fst (fst x).
Definition events {A B C : Type} (x : A * B * C) : B := snd (fst x).
Definition result {A B C : Type} (x : A * B * C) : C := snd x.

(** The two first parts of what [processItem] returns. *)
Definition repoAfter {R : Type} (x : R * option error * list Event) : R := fst (fst x).
Definition errorOf {R : Type} (x : R * option error * list Event) : option error :=
  snd (fst x).

(** The tables with every [updated_at] blanked: what two states share
    when they differ in that column only. *)
Definition eraseUpdated (db : postgres.DB) : postgres.DB :=
  postgres.mkDB
    (map (fun kr =>
            (fst kr,
             postgres.mkUserRow (postgres.u_email (snd kr)) (postgres.u_role (snd kr))
               (postgres.u_status (snd kr)) (postgres.u_metadata (snd kr))
               (postgres.u_created_at (snd kr)) TimeZero))
       (postgres.users db))
    (map (fun kr =>
            (fst kr,
             postgres.mkTaskRow (postgres.t_user_id (snd kr)) (postgres.t_title (snd kr))
               (postgres.t_description (snd kr)) (postgres.t_status (snd kr))
               (postgres.t_priority (snd kr)) (postgres.t_due_date (snd kr))
               (postgres.t_metadata (snd kr)) (postgres.t_created_at (snd kr)) TimeZero))
       (postgres.tasks db)).

(** The items [processItem] was called with, in order. *)
Fixpoint processed (evs : list Event) : list buffer.Item :=
  match evs with
  | [] => []
  | EvProcess i _ :: evs' => i :: processed evs'
  | _ :: evs' => processed evs'
  end.

(** The repository methods invoked, in order. *)
Fixpoint calls (evs : list Event) : list Call :=
  match evs with
  | [] => []
  | EvCall c :: evs' => c :: calls evs'
  | _ :: evs' => calls evs'
  end.

(** How many times a record with this id was applied. *)
Definition applies (id : string) (evs : list Event) : nat :=
  List.length (filter (fun i => String.eqb (buffer.ID i) id) (processed evs)).

(** The keys of a store, in cursor order. *)
Definition keys (s : buffer.Store) : list string :=
  match s with
  | None => []
  | Some b => map fst b
  end.

(** The value filed under a key. *)
Definition at_key (k : string) (s : buffer.Store) : option buffer.Entry :=
  match s with
  | None => None
  | Some b => bolt.Get k b
  end.

(** The stored records of a store, with their handles. *)
Definition records (s : buffer.Store) : list buffer.Item :=
  match s with
  | None => []
  | Some b => buffer.scan (List.length b) b
  end.

(** The readable records of a bucket with their handles, in cursor
    order. *)
Fixpoint listing (b : bolt.Bucket buffer.Entry) : list buffer.Item :=
  match b with
  | [] => []
  | (k, buffer.Stored i) :: b' => buffer.set_bucketKey k i :: listing b'
  | (k, buffer.Corrupt) :: b' => listing b'
  end.

(** The number of entries that [json.Unmarshal] rejects. *)
Fixpoint unreadable (b : bolt.Bucket buffer.Entry) : nat :=
  match b with
  | [] => 0%nat
  | (k, buffer.Stored i) :: b' => unreadable b'
  | (k, buffer.Corrupt) :: b' => S (unreadable b')
  end.

(** [n] consecutive ticks of the scheduler, the first with the
    environment [envs t].  The error a tick returns is logged by the
    scheduler and otherwise dropped. *)
Fixpoint ticks {R E : Type} `{Repositories R E} `{Json}
  (bp : BufferProcessor) (envs : nat -> TickEnv E) (t n : nat) (w : World R)
  : World R * list Event :=
  match n with
  | O => (w, [])
  | S n' =>
      let (w1, ev1) := fst (Drain bp (envs t) w) in
      let (w2, ev2) := ticks bp envs (S t) n' w1 in
      (w2, ev1 ++ ev2)
  end.

(** The applies a record with this id may still receive under the retry
    budget [M]: one when its counter is at or past the budget, else the
    budget minus the counter. *)
Definition share (M : Z) (id : string) (i : buffer.Item) : nat :=
  if String.eqb (buffer.ID i) id then Z.to_nat (Z.max 1 (M - buffer.Retries i)) else 0%nat.

Definition shareOf (M : Z) (id : string) (v : buffer.Entry) : nat :=
  match v with
  | buffer.Stored i => share M id i
  | buffer.Corrupt => 0%nat
  end.

(** The shares of the entries whose key is not in [K]. *)
Definition budgetOutside (K : list string) (M : Z) (id : string)
  (b : bolt.Bucket buffer.Entry) : nat :=
  list_sum
    (map (fun kv => if existsb (String.eqb (fst kv)) K then 0%nat
                    else shareOf M id (snd kv)) b).

Definition budget (M : Z) (id : string) (b : bolt.Bucket buffer.Entry) : nat :=
  budgetOutside [] M id b.

Definition sumShare (M : Z) (id : string) (items : list buffer.Item) : nat :=
  list_sum (map (share M id) items).

(** The processor has no monitor, or its monitor reports online: a tick
    is not skipped. *)
Definition online (bp : BufferProcessor) : Prop :=
  forall status, monitor bp = Some status -> monitor.IsOnline status = true.

(** Both transactions of an iteration commit. *)
Definition commits {E : Type} (e : IterEnv E) : Prop :=
  removeFails e = false /\ buffer.fails (requeueEnv e) = false.

(** The requeue of an iteration does not fail after its remove went
    through. *)
Definition noLoss {E : Type} (e : IterEnv E) : Prop :=
  buffer.fails (requeueEnv e) = true -> removeFails e = true.

(** The clock readings of the first [n] iterations of a tick are
    [int64] values after the epoch, differ from one another, and differ
    from the timestamp of every stored record. *)
Definition freshClock {E : Type} (te : TickEnv E) (n : nat)
  (b : bolt.Bucket buffer.Entry) : Prop :=
  (forall j, (j < n)%nat -> order.clockOK (requeueEnv (iter te j)))
  /\ (forall j j', (j < n)%nat -> (j' < n)%nat -> j <> j' ->
        buffer.now (requeueEnv (iter te j)) <> buffer.now (requeueEnv (iter te j')))
  /\ (forall j k i, (j < n)%nat -> In (k, buffer.Stored i) b ->
        UnixNano (buffer.Timestamp i) <> buffer.now (requeueEnv (iter te j))).

(** Every entry has a key and every stored record an id. *)
Definition identified (b : bolt.Bucket buffer.Entry) : Prop :=
  Forall (fun kv => fst kv <> "" /\ forall i, snd kv = buffer.Stored i -> buffer.ID i <> "") b.

(** The bucket after the iteration of the drain loop that handles
    [item], when [processItem] returned [err]: the handle is deleted
    unless that transaction fails, and a failed item under its retry
    budget is filed again unless that transaction fails. *)
Definition bucketAfter {E : Type} (bp : BufferProcessor) (e : IterEnv E)
  (item : buffer.Item) (err : option error) (b : bolt.Bucket buffer.Entry)
  : bolt.Bucket buffer.Entry :=
  let b1 := if removeFails e then b else bolt.Delete (buffer.bucketKey item) b in
  match err with
  | None => b1
  | Some _ =>
      if buffer.Retries item + 1 >=? MaxRetries (cfg bp) then b1
      else if buffer.fails (requeueEnv e) then b1
      else bolt.Put (order.requeueKey (requeueEnv e) (order.retried item))
             (buffer.marshal
                (buffer.normalize (requeueEnv e)
                   (order.refreshed (requeueEnv e) (order.retried item)))) b1
  end.

End run.

(** ** Concrete data for the examples *)

Module examples.
Import buffer.

Definition quote : string := String "034"%char EmptyString.

(** The JSON object with the single member [id]. *)
Definition idObject (id : string) : string :=
  "{" ++ quote ++ "id" ++ quote ++ ":" ++ quote ++ id ++ quote ++ "}".

(** No quote, no backslash, no control byte: the text is its own JSON
    string body. *)
Fixpoint plain (s : string) : bool :=
  match s with
  | EmptyString => true
  | String c s' =>
      negb (Ascii.eqb c "034"%char) && negb (Ascii.eqb c "092"%char)
      && (32 <=? Z.of_N (N_of_ascii c)) && (Z.of_N (N_of_ascii c) <? 128) && plain s'
  end.

Definition parseIdObject (data : string) : option string :=
  let pre := "{" ++ quote ++ "id" ++ quote ++ ":" ++ quote in
  let post := quote ++ "}" in
  let n := String.length data in
  let a := String.length pre in
  let z := String.length post in
  if (a + z <=? n)%nat
     && String.eqb (substring 0 a data) pre
     && String.eqb (substring (n - z) z data) post
     && plain (substring a (n - a - z) data)
  then Some (substring a (n - a - z) data)
  else None.

Definition userOf (id : string) : User :=
  domain.User.mkUser id "" "" "" [] TimeZero TimeZero.

Definition taskOf (id : string) : Task :=
  domain.Task.mkTask id "" "" "" "" 0 None [] TimeZero TimeZero.

(** A codec for the payloads of the examples: it reads and writes
    objects whose only member is [id], where it agrees with
    encoding/json on what [Unmarshal] returns, and rejects everything
    else, as encoding/json rejects the other payload of the examples,
    the array []. *)
#[global] Instance json : Json := {
  unmarshalUser data := option_map userOf (parseIdObject data);
  unmarshalTask data := option_map taskOf (parseIdObject data);
  marshalUser u := Some (idObject (domain.User.ID u));
  marshalTask t := Some (idObject (domain.Task.ID t))
}.

Definition cfg3 : services.ProcessorConfig := services.mkConfig 30000000000 50 3.

Definition allUp : monitor.Status := monitor.mkStatus true true true 0 (TimeAt 1).
Definition pgDown : monitor.Status := monitor.mkStatus false true true 0 (TimeAt 1).
Definition bufferDown : monitor.Status := monitor.mkStatus true true false 0 (TimeAt 1).

Definition pgUp (clock : Z) : postgres.Env := postgres.mkEnv true clock "uuid-pg".
Definition pgOff (clock : Z) : postgres.Env := postgres.mkEnv false clock "uuid-pg".

Definition emptyDB : postgres.DB := postgres.mkDB [] [].

(** An environment in which every store transaction commits; the n-th
    iteration requeues at time [clock + n]. *)
Definition calm (pg : postgres.Env) (clock : Z) : services.TickEnv postgres.Env :=
  services.mkTickEnv false
    (fun n => services.mkIterEnv pg false (mkEnv (clock + Z.of_nat n) "uuid-q" false)).

(** The same, except that the requeue of every iteration fails. *)
Definition requeueBroken (pg : postgres.Env) (clock : Z) : services.TickEnv postgres.Env :=
  services.mkTickEnv false
    (fun n => services.mkIterEnv pg false (mkEnv (clock + Z.of_nat n) "uuid-q" true)).

(** The same, except that the remove of every iteration fails. *)
Definition removeBroken (pg : postgres.Env) (clock : Z) : services.TickEnv postgres.Env :=
  services.mkTickEnv false
    (fun n => services.mkIterEnv pg true (mkEnv (clock + Z.of_nat n) "uuid-q" false)).

(** An environment whose clock stands still: every iteration requeues at
    the same time [clock]. *)
Definition frozen (pg : postgres.Env) (clock : Z) : services.TickEnv postgres.Env :=
  services.mkTickEnv false
    (fun n => services.mkIterEnv pg false (mkEnv clock "uuid-q" false)).

Definition taskUpdate1 : Item :=
  mkItem "t1" "u1" EntityTask OperationUpdate (idObject "t1") 4 0 TimeZero "".

Definition taskCreate1 : Item :=
  mkItem "t1" "u1" EntityTask OperationCreate (idObject "t1") 4 0 TimeZero "".
Definition taskDelete1 : Item :=
  mkItem "t1" "u1" EntityTask OperationDelete (idObject "t1") 4 0 TimeZero "".
Definition profileUpdate1 : Item :=
  mkItem "" "u1" EntityProfile OperationUpdate (idObject "u1") 3 0 TimeZero "".
Definition poison1 : Item :=
  mkItem "p1" "u1" EntityTask OperationCreate "[]" 4 0 TimeZero "".

Definition enqueueAt (clock : Z) (i : Item) (s : Store) : Store :=
  fst (Enqueue (mkEnv clock "uuid-1" false) i s).

Definition emptyStore : Store := Some [].

(** A task create filed at time 100 and a profile update filed at time
    200, the two records as the store holds them, and as a batch
    returns them. *)
Definition twoRecords : Store :=
  fst (Enqueue (mkEnv 200 "uuid-1" false) profileUpdate1
         (fst (Enqueue (mkEnv 100 "uuid-1" false) taskCreate1 emptyStore))).

Definition storedTask1 : Item :=
  mkItem "t1" "u1" EntityTask OperationCreate (idObject "t1") 4 0 (TimeAt 100) "".
Definition storedProfile1 : Item :=
  mkItem "uuid-1" "u1" EntityProfile OperationUpdate (idObject "u1") 3 0 (TimeAt 200) "".
Definition batchTask1 : Item :=
  set_bucketKey "4_00000000000000000100_t1" storedTask1.
Definition batchPoison1 : Item :=
  mkItem "p1" "u1" EntityTask OperationCreate "[]" 4 0 (TimeAt 100)
    "4_00000000000000000100_p1".

Definition oneTask : bolt.Bucket Entry :=
  [("4_00000000000000000100_t1", Stored storedTask1)].

End examples.

(* ------------------------------------------------------------------ *)
(** * Properties *)

(** ** Bytewise comparison *)

Section Compare.

Lemma ascii_compare_refl (a : ascii) : Ascii.compare a a = Eq.
Proof. unfold Ascii.compare. apply N.compare_refl. Qed.

Lemma compare_refl (s : string) : String.compare s s = Eq.
Proof.
  induction s as [|a s IH]; simpl; [reflexivity|].
  now rewrite ascii_compare_refl.
Qed.

Lemma compare_eq (s t : string) : String.compare s t = Eq <-> s = t.
Proof.
  split; [apply String.compare_eq_iff | intros ->; apply compare_refl].
Qed.

Lemma compare_eqb (s t : string) :
  String.eqb s t = match String.compare s t with Eq => true | _ => false end.
Proof.
  destruct (String.eqb_spec s t) as [->|Hne].
  - now rewrite compare_refl.
  - destruct (String.compare s t) eqn:E; try reflexivity.
    apply compare_eq in E. contradiction.
Qed.

Lemma compare_gt_lt (s t : string) :
  String.compare s t = Gt <-> String.compare t s = Lt.
Proof.
  rewrite (String.compare_antisym t s).
  destruct (String.compare s t); simpl; split; congruence.
Qed.

Lemma ascii_compare_lt_trans (a b c : ascii) :
  Ascii.compare a b = Lt -> Ascii.compare b c = Lt -> Ascii.compare a c = Lt.
Proof.
  unfold Ascii.compare. rewrite !N.compare_lt_iff. lia.
Qed.

Lemma compare_lt_trans (s t u : string) :
  String.compare s t = Lt -> String.compare t u = Lt -> String.compare s u = Lt.
Proof.
  revert t u. induction s as [|a s IH]; intros [|b t] [|c u]; simpl; try congruence.
  destruct (Ascii.compare a b) eqn:Eab; try discriminate.
  - apply Ascii.compare_eq_iff in Eab. subst b.
    destruct (Ascii.compare a c); try congruence. apply IH.
  - destruct (Ascii.compare b c) eqn:Ebc; try discriminate.
    + apply Ascii.compare_eq_iff in Ebc. subst c. now rewrite Eab.
    + now rewrite (ascii_compare_lt_trans _ _ _ Eab Ebc).
Qed.

(** Two texts that start with blocks of the same length compare by the
    blocks first. *)
Lemma compare_app (x x' y y' : string) :
  String.length x = String.length x' ->
  String.compare (x ++ y) (x' ++ y') =
  match String.compare x x' with Eq => String.compare y y' | c => c end.
Proof.
  revert x'. induction x as [|a x IH]; intros [|a' x']; simpl; try discriminate.
  - reflexivity.
  - intros H. injection H as H.
    destruct (Ascii.compare a a'); try reflexivity. now apply IH.
Qed.

Lemma length_app (x y : string) :
  String.length (x ++ y) = (String.length x + String.length y)%nat.
Proof. induction x; simpl; congruence. Qed.

End Compare.

(** ** Fixed-width decimals order like numbers *)

Section Decimal.

Lemma digit_compare (a b : Z) :
  0 <= a < 10 -> 0 <= b < 10 ->
  Ascii.compare (fmt.digit a) (fmt.digit b) = Z.compare a b.
Proof.
  intros Ha Hb. unfold Ascii.compare, fmt.digit.
  rewrite !N_ascii_embedding by lia.
  destruct (Z.compare_spec a b) as [H|H|H];
    [apply N.compare_eq_iff | apply N.compare_lt_iff | apply N.compare_gt_iff]; lia.
Qed.

Lemma fixed_length (w : nat) (n : Z) : String.length (fmt.fixed w n) = w.
Proof. revert n. induction w; intros; simpl; [reflexivity | now rewrite IHw]. Qed.

Lemma fixed_compare (w : nat) (n m : Z) :
  0 <= n < 10 ^ Z.of_nat w -> 0 <= m < 10 ^ Z.of_nat w ->
  String.compare (fmt.fixed w n) (fmt.fixed w m) = Z.compare n m.
Proof.
  revert n m. induction w as [|w IH]; intros n m Hn Hm.
  - simpl in *. assert (n = 0) by lia. assert (m = 0) by lia. subst. reflexivity.
  - rewrite Nat2Z.inj_succ, Z.pow_succ_r in Hn, Hm by lia.
    set (p := 10 ^ Z.of_nat w) in *.
    assert (Hp : 0 < p) by (subst p; apply Z.pow_pos_nonneg; lia).
    simpl. fold p.
    assert (Hqn : 0 <= n / p < 10)
      by (split; [apply Z.div_pos; lia | apply Z.div_lt_upper_bound; lia]).
    assert (Hqm : 0 <= m / p < 10)
      by (split; [apply Z.div_pos; lia | apply Z.div_lt_upper_bound; lia]).
    pose proof (Z.mod_pos_bound n p Hp) as Hrn.
    pose proof (Z.mod_pos_bound m p Hp) as Hrm.
    rewrite digit_compare by assumption.
    rewrite IH by assumption.
    pose proof (Z.div_mod n p ltac:(lia)) as En.
    pose proof (Z.div_mod m p ltac:(lia)) as Em.
    destruct (Z.compare_spec (n / p) (m / p)) as [Hq|Hq|Hq].
    + destruct (Z.compare_spec (n mod p) (m mod p)); symmetry;
        [apply Z.compare_eq_iff | apply Z.compare_lt_iff | apply Z.compare_gt_iff]; nia.
    + symmetry. apply Z.compare_lt_iff. nia.
    + symmetry. apply Z.compare_gt_iff. nia.
Qed.

Lemma ndigits_aux_le (fuel w : nat) (n : Z) :
  0 <= n < 10 ^ Z.of_nat (S w) -> (fmt.ndigits_aux fuel n <= S w)%nat.
Proof.
  revert w n. induction fuel as [|f IH]; intros w n Hn; simpl; [lia|].
  destruct (n <? 10) eqn:E; [lia|]. apply Z.ltb_ge in E.
  destruct w as [|w].
  - simpl in Hn. lia.
  - apply le_n_S. apply IH.
    rewrite Nat2Z.inj_succ, Z.pow_succ_r in Hn by lia.
    split; [apply Z.div_pos; lia | apply Z.div_lt_upper_bound; lia].
Qed.

Lemma width_nonneg (w : nat) (n : Z) :
  0 <= n < 10 ^ Z.of_nat (S w) -> fmt.width (S w) n = fmt.fixed (S w) n.
Proof.
  intros Hn. unfold fmt.width.
  destruct (n <? 0) eqn:E; [apply Z.ltb_lt in E; lia|].
  unfold fmt.ndigits.
  pose proof (ndigits_aux_le (S (Z.to_nat (Z.log2 n))) w n Hn).
  now rewrite Nat.max_l by assumption.
Qed.

Lemma d_one_digit (n : Z) : 0 <= n < 10 -> fmt.d n = fmt.fixed 1 n.
Proof.
  intros Hn. unfold fmt.d, fmt.width.
  destruct (n <? 0) eqn:E; [apply Z.ltb_lt in E; lia|].
  unfold fmt.ndigits.
  pose proof (ndigits_aux_le (S (Z.to_nat (Z.log2 n))) 0 n ltac:(simpl; lia)).
  assert (1 <= fmt.ndigits_aux (S (Z.to_nat (Z.log2 n))) n)%nat
    by (simpl; destruct (n <? 10); lia).
  replace (Nat.max 0 _) with 1%nat by lia. reflexivity.
Qed.

Lemma d020_int64 (n : Z) : 0 <= n < 2 ^ 63 -> fmt.d020 n = fmt.fixed 20 n.
Proof.
  intros Hn. apply (width_nonneg 19). simpl Z.of_nat.
  assert (2 ^ 63 < 10 ^ 20) by reflexivity. lia.
Qed.

End Decimal.

(** ** The bucket keeps its keys ascending *)

Section BucketOrder.
Context {V : Type}.
Implicit Types (b : bolt.Bucket V) (k : string) (v : V).

Lemma Put_In k v b x : In x (bolt.Put k v b) -> x = (k, v) \/ In x b.
Proof.
  induction b as [|[k' v'] b IH]; simpl.
  - intros [<-|[]]. now left.
  - destruct (String.compare k k'); simpl; intros [<-|H]; auto.
    destruct (IH H); auto.
Qed.

Lemma Delete_In k b x : In x (bolt.Delete k b) -> In x b.
Proof.
  induction b as [|[k' v'] b IH]; simpl; [tauto|].
  destruct (String.eqb k k'); simpl; intuition.
Qed.

Lemma keyLt_trans (x y z : string * V) :
  order.keyLt x y -> order.keyLt y z -> order.keyLt x z.
Proof. apply compare_lt_trans. Qed.

Lemma Put_keyOrdered k v b :
  order.keyOrdered b -> order.keyOrdered (bolt.Put k v b).
Proof.
  unfold order.keyOrdered.
  induction b as [|[k' v'] b IH]; intros Hs; simpl.
  - repeat constructor.
  - inversion Hs as [|? ? Hs' Hall]; subst.
    destruct (String.compare k k') eqn:E.
    + apply compare_eq in E. subst k'. now constructor.
    + constructor; [assumption|]. constructor; [exact E|].
      eapply Forall_impl; [|exact Hall].
      intros z Hz. eapply keyLt_trans; [|exact Hz]. exact E.
    + constructor; [now apply IH|].
      apply Forall_forall. intros z Hz.
      apply Put_In in Hz. destruct Hz as [->|Hz].
      * now apply compare_gt_lt in E.
      * rewrite Forall_forall in Hall. now apply Hall.
Qed.

Lemma Delete_keyOrdered k b :
  order.keyOrdered b -> order.keyOrdered (bolt.Delete k b).
Proof.
  unfold order.keyOrdered.
  induction b as [|[k' v'] b IH]; intros Hs; simpl; [constructor|].
  inversion Hs as [|? ? Hs' Hall]; subst.
  destruct (String.eqb k k'); [assumption|].
  constructor; [now apply IH|].
  apply Forall_forall. intros z Hz. apply Delete_In in Hz.
  rewrite Forall_forall in Hall. now apply Hall.
Qed.

End BucketOrder.

(** ** Keys order like the tuple *)

Section KeyOrder.
Import buffer order.

Lemma buildKey_normalized (i : Item) :
  normalized i ->
  buildKey i =
  fmt.fixed 1 (Priority i) ++ "_" ++ fmt.fixed 20 (UnixNano (Timestamp i)) ++ "_" ++ ID i.
Proof.
  intros [Hp Ht]. unfold buildKey.
  rewrite d_one_digit by lia. now rewrite d020_int64.
Qed.

Lemma buildKey_compare (a b : Item) :
  normalized a -> normalized b ->
  String.compare (buildKey a) (buildKey b) = tupleCompare a b.
Proof.
  intros Ha Hb.
  rewrite (buildKey_normalized a Ha), (buildKey_normalized b Hb).
  destruct Ha as [Hpa Hta], Hb as [Hpb Htb].
  assert (H63 : 2 ^ 63 < 10 ^ Z.of_nat 20) by reflexivity.
  rewrite compare_app by now rewrite !fixed_length.
  rewrite fixed_compare by (simpl; lia).
  unfold tupleCompare.
  destruct (Priority a ?= Priority b); try reflexivity.
  change ("_" ++ ?x) with (String "_" x). cbn [String.compare].
  rewrite ascii_compare_refl.
  rewrite compare_app by now rewrite !fixed_length.
  rewrite fixed_compare by lia.
  destruct (UnixNano (Timestamp a) ?= UnixNano (Timestamp b)); reflexivity.
Qed.

End KeyOrder.

(** ** The store invariant *)

Section StoreInvariant.
Import buffer order.

Lemma normalize_Priority (e : Env) (i : Item) :
  Priority (normalize e i) =
  if (Priority i <=? 0) || (5 <? Priority i) then 3 else Priority i.
Proof.
  unfold normalize.
  destruct (ID i =? "")%string; cbn [Priority set_ID];
    destruct ((_ <=? 0) || (5 <? _)); destruct (IsZero _); reflexivity.
Qed.

Lemma normalize_Timestamp (e : Env) (i : Item) :
  Timestamp (normalize e i) =
  if IsZero (Timestamp i) then TimeAt (now e) else Timestamp i.
Proof.
  unfold normalize.
  destruct (ID i =? "")%string; cbn [Priority set_ID];
    destruct ((_ <=? 0) || (5 <? _)); cbn [Timestamp set_ID set_Priority];
    destruct (IsZero (Timestamp i)); reflexivity.
Qed.

Lemma normalize_ID (e : Env) (i : Item) :
  ID (normalize e i) = if (ID i =? "")%string then uuid e else ID i.
Proof.
  unfold normalize.
  destruct (ID i =? "")%string; cbn [Priority set_ID];
    destruct ((_ <=? 0) || (5 <? _)); cbn [Timestamp set_ID set_Priority];
    destruct (IsZero (Timestamp i)); reflexivity.
Qed.

Lemma normalize_Entity (e : Env) (i : Item) : Entity (normalize e i) = Entity i.
Proof.
  unfold normalize.
  destruct (ID i =? "")%string; cbn [Priority set_ID];
    destruct ((_ <=? 0) || (5 <? _)); cbn [Timestamp set_ID set_Priority];
    destruct (IsZero (Timestamp i)); reflexivity.
Qed.

Lemma normalize_normalized (e : Env) (i : Item) :
  clockOK e -> stampOK i -> normalized (normalize e i).
Proof.
  intros He Hi. unfold normalized.
  rewrite normalize_Priority, normalize_Timestamp. split.
  - destruct ((_ <=? 0) || (5 <? _)) eqn:Ep; [lia|].
    apply orb_false_iff in Ep as [Ep1 Ep2].
    apply Z.leb_gt in Ep1. apply Z.ltb_ge in Ep2. lia.
  - destruct Hi as [->|Hi]; [exact He|].
    destruct (Timestamp i); [exact He | exact Hi].
Qed.

Lemma buildKey_set_bucketKey (k : string) (i : Item) :
  buildKey (set_bucketKey k i) = buildKey i.
Proof. reflexivity. Qed.

Lemma filed_Put (k : string) (i : Item) (b : bolt.Bucket Entry) :
  normalized i -> k = buildKey i ->
  Forall filed b -> Forall filed (bolt.Put k (marshal i) b).
Proof.
  intros Hn Hk Hb. apply Forall_forall. intros x Hx.
  apply Put_In in Hx. destruct Hx as [->|Hx].
  - exists (set_bucketKey "" i). repeat split; try apply Hn. exact Hk.
  - rewrite Forall_forall in Hb. now apply Hb.
Qed.

Lemma deleteFirstByID_In (id : string) (b : bolt.Bucket Entry) x :
  In x (deleteFirstByID id b) -> In x b.
Proof.
  induction b as [|[k v] b IH]; simpl; [tauto|].
  destruct v as [i|]; [destruct (ID i =? id)%string|]; simpl; intuition.
Qed.

Lemma deleteFirstByID_keyOrdered (id : string) (b : bolt.Bucket Entry) :
  keyOrdered b -> keyOrdered (deleteFirstByID id b).
Proof.
  unfold keyOrdered.
  induction b as [|[k v] b IH]; intros Hs; simpl; [constructor|].
  inversion Hs as [|? ? Hs' Hall]; subst.
  assert (Hc : StronglySorted keyLt ((k, v) :: deleteFirstByID id b)).
  { constructor; [now apply IH|].
    apply Forall_forall. intros z Hz. apply deleteFirstByID_In in Hz.
    rewrite Forall_forall in Hall. now apply Hall. }
  destruct v as [i|]; [destruct (ID i =? id)%string|]; assumption.
Qed.

Lemma Forall_sub {A : Type} (P : A -> Prop) (l l' : list A) :
  (forall x, In x l' -> In x l) -> Forall P l -> Forall P l'.
Proof. rewrite !Forall_forall. auto. Qed.

Lemma Enqueue_wellFiled e item b b' err :
  clockOK e -> stampOK item -> wellFiled b ->
  Enqueue e item (Some b) = (Some b', err) -> wellFiled b'.
Proof.
  intros He Hi [Hs Hf]. unfold Enqueue, bolt.Update.
  destruct (fails e); intros [= <- _]; [now split|].
  split.
  - now apply Put_keyOrdered.
  - apply filed_Put; auto. now apply normalize_normalized.
Qed.

Lemma Remove_wellFiled txFails item b b' err :
  wellFiled b -> Remove txFails item (Some b) = (Some b', err) -> wellFiled b'.
Proof.
  intros [Hs Hf]. unfold Remove, deleteByID, bolt.Update.
  destruct (String.length (bucketKey item) =? 0)%nat;
    [destruct (ID item =? "")%string|]; destruct txFails;
    intros [= <- _]; try (now split).
  - split; [now apply deleteFirstByID_keyOrdered|].
    eapply Forall_sub; [|exact Hf]. apply deleteFirstByID_In.
  - split; [now apply Delete_keyOrdered|].
    eapply Forall_sub; [|exact Hf]. apply Delete_In.
Qed.

Lemma Enqueue_some e item b :
  exists b' err, Enqueue e item (Some b) = (Some b', err).
Proof. unfold Enqueue. destruct bolt.Update. eauto. Qed.

Lemma Remove_some txFails item b :
  exists b' err, Remove txFails item (Some b) = (Some b', err).
Proof.
  unfold Remove. destruct (String.length (bucketKey item) =? 0)%nat.
  - destruct deleteByID. eauto.
  - destruct bolt.Update. eauto.
Qed.

Lemma fromEnqueues_wellFiled (s : Store) :
  fromEnqueues s -> exists b, s = Some b /\ wellFiled b.
Proof.
  induction 1 as [|e item s _ [b [-> Hb]] He Hi
                  |txFails item s _ [b [-> Hb]]
                  |e item s _ [b [-> Hb]] He].
  - exists []. split; [reflexivity|]. split; constructor.
  - destruct (Enqueue_some e item b) as (b' & err & E). rewrite E.
    exists b'. split; [reflexivity|]. eapply Enqueue_wellFiled; eauto.
  - destruct (Remove_some txFails item b) as (b' & err & E). rewrite E.
    exists b'. split; [reflexivity|]. eapply Remove_wellFiled; eauto.
  - unfold Requeue.
    destruct (Enqueue_some e (set_Timestamp (TimeAt (now e)) (set_bucketKey "" item)) b)
      as (b' & err & E).
    rewrite E. exists b'. split; [reflexivity|].
    eapply Enqueue_wellFiled; [exact He| |exact Hb|exact E].
    right. exact He.
Qed.

Lemma scan_In (l : nat) (b : bolt.Bucket Entry) (x : Item) :
  In x (scan l b) -> exists k i, In (k, Stored i) b /\ x = set_bucketKey k i.
Proof.
  revert l. induction b as [|[k v] b IH]; intros l; simpl; [tauto|].
  destruct l as [|l]; [simpl; tauto|].
  destruct v as [i|].
  - intros [<-|H]; [exists k, i; auto|].
    destruct (IH _ H) as (k' & i' & ? & ?). exists k', i'. auto.
  - intros H. destruct (IH _ H) as (k' & i' & ? & ?). exists k', i'. auto.
Qed.

Lemma scan_sorted (l : nat) (b : bolt.Bucket Entry) :
  wellFiled b -> StronglySorted tupleLt (scan l b).
Proof.
  intros [Hs Hf]. revert l.
  induction b as [|[k v] b IH]; intros l; simpl; [constructor|].
  inversion Hs as [|? ? Hs' Hall]; subst.
  inversion Hf as [|? ? Hkv Hf']; subst.
  destruct l as [|l]; [constructor|].
  destruct v as [i|]; [|now apply IH].
  constructor; [now apply IH|].
  apply Forall_forall. intros x Hx.
  apply scan_In in Hx. destruct Hx as (k' & i' & Hin & ->).
  destruct Hkv as (i0 & Hi0 & Hk & Hn). cbn in Hi0, Hk. injection Hi0 as <-.
  rewrite Forall_forall in Hall, Hf'.
  destruct (Hf' _ Hin) as (i1 & Hi1 & Hk' & Hn'). cbn in Hi1, Hk'. injection Hi1 as <-.
  unfold tupleLt.
  change (tupleCompare (set_bucketKey k i) (set_bucketKey k' i'))
    with (tupleCompare i i').
  rewrite <- buildKey_compare by assumption.
  rewrite <- Hk, <- Hk'. exact (Hall _ Hin).
Qed.

End StoreInvariant.

Lemma sorted_earlier_later {A : Type} (Rel : A -> A -> Prop) (l1 l2 l3 : list A) (a b : A) :
  StronglySorted Rel (l1 ++ a :: l2 ++ b :: l3)%list -> Rel a b.
Proof.
  induction l1 as [|x l1 IH]; cbn; intros Hs; inversion Hs as [|? ? Hs' Hall]; subst.
  - rewrite Forall_forall in Hall. apply Hall. apply in_or_app. right. now left.
  - now apply IH.
Qed.


(** ** Lookup in a bucket *)

Section BucketLookup.
Context {V : Type}.
Implicit Types (b : bolt.Bucket V) (k : string) (v : V).

Lemma Get_Put_same k v b : bolt.Get k (bolt.Put k v b) = Some v.
Proof.
  induction b as [|[k' v'] b IH]; simpl.
  - now rewrite String.eqb_refl.
  - destruct (String.compare k k') eqn:E; simpl.
    + now rewrite String.eqb_refl.
    + now rewrite String.eqb_refl.
    + rewrite compare_eqb, E. exact IH.
Qed.

Lemma Get_Put_other k k0 v b :
  k0 <> k -> bolt.Get k0 (bolt.Put k v b) = bolt.Get k0 b.
Proof.
  intros Hne. apply String.eqb_neq in Hne.
  induction b as [|[k' v'] b IH]; simpl.
  - now rewrite Hne.
  - destruct (String.compare k k') eqn:E; simpl.
    + apply compare_eq in E. subst k'. now rewrite Hne.
    + now rewrite Hne.
    + now rewrite IH.
Qed.

Lemma Get_Delete_other k k0 b :
  k0 <> k -> bolt.Get k0 (bolt.Delete k b) = bolt.Get k0 b.
Proof.
  intros Hne.
  induction b as [|[k' v'] b IH]; simpl; [reflexivity|].
  destruct (String.eqb_spec k k') as [<-|Hk]; simpl.
  - apply String.eqb_neq in Hne. now rewrite Hne.
  - now rewrite IH.
Qed.

Lemma Get_None_above k b :
  Forall (fun y => String.compare k (fst y) = Lt) b -> bolt.Get k b = None.
Proof.
  induction 1 as [|[k' v'] b Hlt _ IH]; simpl; [reflexivity|].
  cbn in Hlt. now rewrite compare_eqb, Hlt.
Qed.

Lemma Get_Delete_same k b :
  order.keyOrdered b -> bolt.Get k (bolt.Delete k b) = None.
Proof.
  unfold order.keyOrdered.
  induction b as [|[k' v'] b IH]; intros Hs; simpl; [reflexivity|].
  inversion Hs as [|? ? Hs' Hall]; subst.
  destruct (String.eqb_spec k k') as [<-|Hk].
  - now apply Get_None_above.
  - simpl. apply String.eqb_neq in Hk. rewrite Hk. now apply IH.
Qed.

Lemma Get_In k v b : bolt.Get k b = Some v -> In (k, v) b.
Proof.
  induction b as [|[k' v'] b IH]; simpl; [discriminate|].
  destruct (String.eqb_spec k k') as [<-|Hk].
  - intros [= ->]. now left.
  - intros Hg. right. now apply IH.
Qed.

Lemma In_Get k v b : order.keyOrdered b -> In (k, v) b -> bolt.Get k b = Some v.
Proof.
  unfold order.keyOrdered.
  induction b as [|[k' v'] b IH]; intros Hs; simpl; [tauto|].
  inversion Hs as [|? ? Hs' Hall]; subst.
  intros [[= -> ->]|Hin].
  - now rewrite String.eqb_refl.
  - destruct (String.eqb_spec k k') as [<-|Hk]; [|now apply IH].
    rewrite Forall_forall in Hall. specialize (Hall _ Hin).
    unfold order.keyLt in Hall. cbn in Hall. now rewrite compare_refl in Hall.
Qed.

End BucketLookup.

Lemma Check_StatusCode (clock : Z) (sys : handler.System) :
  handler.StatusCode (fst (handler.Check clock sys)) =
  if monitor.PostgreSQL (handler.monitorStatus sys)
     && monitor.Redis (handler.monitorStatus sys)
  then 200 else 503.
Proof.
  unfold handler.Check, monitor.GetStatus.
  now destruct (monitor.PostgreSQL _ && monitor.Redis _).
Qed.



(** ** What a run of the processor leaves in the event list *)

Section Runs.
Import buffer services run.
Context {R E : Type} `{Repositories R E} `{Json}.
Local Open Scope list_scope.

Lemma processed_app (a b : list Event) :
  processed (a ++ b) = processed a ++ processed b.
Proof.
  induction a as [|[]]; simpl; congruence.
Qed.

Lemma calls_app (a b : list Event) : calls (a ++ b) = calls a ++ calls b.
Proof.
  induction a as [|[]]; simpl; congruence.
Qed.

Lemma processed_logIf err l msg : processed (logIf err l msg) = [].
Proof. now destruct err. Qed.

Lemma calls_logIf err l msg : calls (logIf err l msg) = [].
Proof. now destruct err. Qed.

(** [processItem] in one piece: what it decides before any repository
    is touched. *)
Lemma processItem_cases (e : E) (item : Item) (r : R) :
  (exists err, processItem e item r = (r, Some err, [EvProcess item (Some err)]))
  \/ (exists c r' err,
        processItem e item r = (r', err, [EvCall c; EvProcess item err])).
Proof.
  unfold processItem.
  destruct (Entity item =? EntityProfile)%string.
  - destruct (unmarshalUser (Data item)); [|left; eauto].
    destruct (Upsert e (Some u) r). right. eauto.
  - destruct (Entity item =? EntityTask)%string; [|left; eauto].
    destruct (unmarshalTask (Data item)); [|left; eauto].
    destruct (Operation item =? OperationCreate)%string.
    { destruct (Create e (Some t) r). right. eauto. }
    destruct (Operation item =? OperationUpdate)%string.
    { destruct (Update e (Some t) r). right. eauto. }
    destruct (Operation item =? OperationDelete)%string.
    { destruct (Delete e (domain.Task.ID t) r). right. eauto. }
    left. eauto.
Qed.

Lemma processItem_processed (e : E) (item : Item) (r : R) :
  processed (snd (processItem e item r)) = [item].
Proof.
  destruct (processItem_cases e item r) as [(err & ->)|(c & r' & err & ->)];
    reflexivity.
Qed.

Lemma drainItem_processed bp (e : IterEnv E) (item : Item) (w : World R) :
  processed (snd (drainItem bp e item w)) = [item].
Proof.
  unfold drainItem.
  pose proof (processItem_processed (repoEnv e) item (repo w)) as Hp.
  destruct (processItem (repoEnv e) item (repo w)) as [[r' err] evs].
  cbn [snd] in Hp.
  destruct err as [err|].
  - destruct (_ >=? _).
    + destruct Remove. cbn [snd]. now rewrite !processed_app, Hp.
    + destruct Remove. destruct Requeue. cbn [snd].
      now rewrite !processed_app, !processed_logIf, Hp.
  - destruct Remove. cbn [snd]. now rewrite !processed_app, processed_logIf, Hp.
Qed.

Lemma drainItems_processed bp (env : nat -> IterEnv E) (n : nat)
  (items : list Item) (w : World R) :
  processed (snd (drainItems bp env n items w)) = items.
Proof.
  revert n w. induction items as [|item rest IH]; intros n w; simpl; [reflexivity|].
  pose proof (drainItem_processed bp (env n) item w) as H1.
  destruct (drainItem bp (env n) item w) as [w1 ev1].
  pose proof (IH (S n) w1) as H2.
  destruct (drainItems bp env (S n) rest w1) as [w2 ev2].
  cbn [snd] in *. now rewrite processed_app, H1, H2.
Qed.

(** The loop reads the configuration of the processor, not its
    monitor. *)
Lemma drainItem_monitor mon mon' c (e : IterEnv E) (item : Item) (w : World R) :
  drainItem (mkProcessor mon c) e item w = drainItem (mkProcessor mon' c) e item w.
Proof. reflexivity. Qed.

Lemma drainItems_monitor mon mon' c (env : nat -> IterEnv E) (n : nat)
  (items : list Item) (w : World R) :
  drainItems (mkProcessor mon c) env n items w
  = drainItems (mkProcessor mon' c) env n items w.
Proof.
  revert n w. induction items as [|item rest IH]; intros n w; simpl; [reflexivity|].
  rewrite (drainItem_monitor mon mon').
  destruct drainItem as [w1 ev1]. now rewrite IH.
Qed.

End Runs.

(** C10.  No monitor.  With a nil monitor [Drain] and [BufferOperation]
    do what they do under a monitor that reports online.  When the
    processor has a store, a tick whose read succeeds applies every item
    of the batch, in order, and [BufferOperation] calls [processItem] on
    the item before anything is enqueued; only a monitor that reports
    offline makes [Drain] skip the tick and [BufferOperation] enqueue
    without an attempt. *)
Theorem nil_monitor_behaves_online
  {R E : Type} `{Repositories R E} `{Json}
  (c : services.ProcessorConfig) (te : services.TickEnv E) (re : E) (qe : buffer.Env)
  (item : buffer.Item) (w : services.World R) :
  let bp := services.mkProcessor None c in
  (forall status, monitor.IsOnline status = true ->
     services.Drain bp te w = services.Drain (services.mkProcessor (Some status) c) te w
     /\ services.BufferOperation bp re qe item w
        = services.BufferOperation (services.mkProcessor (Some status) c) re qe item w)
  /\ (forall b, services.store w = Some b ->
      (services.viewFails te = false ->
       run.processed (run.events (services.Drain bp te w))
       = fst (buffer.GetBatch false (services.BatchSize c) (services.store w)))
      /\ run.processed (run.events (services.BufferOperation bp re qe item w)) = [item]
      /\ (forall status, monitor.IsOnline status = false ->
          services.Drain (services.mkProcessor (Some status) c) te w
          = (w, [services.EvLog services.Debug "skipping buffer drain (offline)"], None)
          /\ run.processed
               (run.events
                  (services.BufferOperation (services.mkProcessor (Some status) c)
                     re qe item w))
             = [])).
Proof.
  intros bp. subst bp. split.
  - intros status Hon. unfold services.Drain, services.BufferOperation.
    cbn [services.monitor services.cfg]. rewrite Hon. cbn [negb].
    split; [|reflexivity].
    destruct (services.store w); [|reflexivity].
    destruct buffer.GetBatch as [items [err|]]; [reflexivity|].
    now rewrite (drainItems_monitor None (Some status)).
  - intros b Hs. repeat apply conj.
    + intros Hv. unfold services.Drain. cbn [services.monitor services.cfg].
      rewrite Hs, Hv. cbn [buffer.GetBatch].
      pose proof (drainItems_processed (services.mkProcessor None c) (services.iter te) 0
                    (buffer.scan (Z.to_nat (if services.BatchSize c <=? 0 then 50
                                             else services.BatchSize c)) b) w) as Hp.
      destruct services.drainItems as [w' evs]. exact Hp.
    + unfold services.BufferOperation. cbn [services.monitor]. rewrite Hs.
      pose proof (processItem_processed re item (services.repo w)) as Hp.
      destruct (services.processItem re item (services.repo w)) as [[r' err] evs].
      cbn [snd] in Hp. destruct err.
      * destruct buffer.Enqueue. unfold run.events. cbn [fst snd].
        now rewrite processed_app, Hp.
      * exact Hp.
    + intros status Hoff. unfold services.Drain, services.BufferOperation.
      cbn [services.monitor]. rewrite Hs, Hoff. cbn [negb]. split; [reflexivity|].
      now destruct buffer.Enqueue.
Qed.

(** ** Requeue against remove-then-enqueue *)

Section RequeueFacts.
Import buffer order.

Lemma marshal_set_bucketKey (k : string) (i : Item) :
  marshal (set_bucketKey k i) = marshal i.
Proof. reflexivity. Qed.

Lemma Requeue_unfold (e : Env) (item : Item) (s : Store) :
  Requeue e item s = Enqueue e (refreshed e item) s.
Proof. reflexivity. Qed.

Lemma Enqueue_commits (e : Env) (item : Item) (b : bolt.Bucket Entry) :
  fails e = false ->
  Enqueue e item (Some b)
  = (Some (bolt.Put (buildKey (normalize e item)) (marshal (normalize e item)) b), None).
Proof. intros Hf. unfold Enqueue, bolt.Update. now rewrite Hf. Qed.

Lemma Enqueue_fails (e : Env) (item : Item) (b : bolt.Bucket Entry) :
  fails e = true -> Enqueue e item (Some b) = (Some b, Some ErrBolt).
Proof. intros Hf. unfold Enqueue, bolt.Update. now rewrite Hf. Qed.

Lemma Remove_by_handle (item : Item) (b : bolt.Bucket Entry) :
  bucketKey item <> "" ->
  Remove false item (Some b) = (Some (bolt.Delete (bucketKey item) b), None).
Proof.
  intros Hk. unfold Remove.
  destruct (bucketKey item) as [|c k]; [contradiction|]. reflexivity.
Qed.

Lemma Remove_fails (item : Item) (b : bolt.Bucket Entry) :
  bucketKey item <> "" ->
  Remove true item (Some b) = (Some b, Some ErrBolt).
Proof.
  intros Hk. unfold Remove.
  destruct (bucketKey item) as [|c k]; [contradiction|]. reflexivity.
Qed.

End RequeueFacts.

(** C8 (as stated, refuted).  One record enqueued at time 100 and read
    back with its handle: [Requeue] at time 200 leaves two keys in the
    store, the old one and the new one, where [Remove] followed by
    [Enqueue] of the refreshed item leaves the new key only. *)
Lemma Requeue_keeps_old_entry :
  let s0 := examples.enqueueAt 100 examples.taskCreate1 examples.emptyStore in
  let e := buffer.mkEnv 200 "uuid-2" false in
  let item := hd examples.taskCreate1 (fst (buffer.GetBatch false 10 s0)) in
  buffer.bucketKey item = "4_00000000000000000100_t1"
  /\ run.keys (fst (buffer.Requeue e item s0))
     = ["4_00000000000000000100_t1"; "4_00000000000000000200_t1"]
  /\ run.keys (fst (buffer.Enqueue e (order.refreshed e item)
                      (fst (buffer.Remove false item s0))))
     = ["4_00000000000000000200_t1"].
Proof. vm_compute. repeat split. Qed.

(** C8 (amended).  [Requeue] is [Enqueue] of the item with a refreshed
    timestamp and removes nothing: when the transaction commits, the item
    is filed under the new key and every other key, the old handle
    included, holds what it held.  It is [Remove] followed by [Requeue]
    that leaves the old handle empty and the item under the new key, and
    that is the state [Remove] followed by [Enqueue] of the refreshed item
    gives. *)
Theorem Requeue_is_Enqueue_refreshed
  (e : buffer.Env) (item : buffer.Item) (b : bolt.Bucket buffer.Entry) :
  order.keyOrdered b ->
  buffer.fails e = false ->
  let k' := order.requeueKey e item in
  let v' := buffer.marshal (buffer.normalize e (order.refreshed e item)) in
  buffer.Requeue e item (Some b) = buffer.Enqueue e (order.refreshed e item) (Some b)
  /\ run.at_key k' (fst (buffer.Requeue e item (Some b))) = Some v'
  /\ (forall k, k <> k' ->
        run.at_key k (fst (buffer.Requeue e item (Some b))) = bolt.Get k b)
  /\ (buffer.bucketKey item <> "" ->
      let s1 := fst (buffer.Remove false item (Some b)) in
      buffer.Requeue e item s1 = buffer.Enqueue e (order.refreshed e item) s1
      /\ run.at_key k' (fst (buffer.Requeue e item s1)) = Some v'
      /\ (buffer.bucketKey item <> k' ->
          run.at_key (buffer.bucketKey item) (fst (buffer.Requeue e item s1)) = None)
      /\ (forall k, k <> k' -> k <> buffer.bucketKey item ->
            run.at_key k (fst (buffer.Requeue e item s1)) = bolt.Get k b)).
Proof.
  intros Hb He k' v'. subst k' v'. unfold order.requeueKey.
  rewrite Requeue_unfold, (Enqueue_commits e _ b He). cbn [fst run.at_key].
  split; [reflexivity|].
  split; [apply Get_Put_same|].
  split; [intros k Hk; now apply Get_Put_other|].
  intros Hh. rewrite (Remove_by_handle item b Hh). cbn [fst].
  rewrite Requeue_unfold, (Enqueue_commits e _ _ He). cbn [fst run.at_key].
  split; [reflexivity|].
  split; [apply Get_Put_same|].
  split.
  - intros Hne. rewrite Get_Put_other by exact Hne. now apply Get_Delete_same.
  - intros k Hk Hk2. rewrite Get_Put_other by exact Hk. now apply Get_Delete_other.
Qed.

(** ** One iteration of the drain loop, symbolically *)

Section Iteration.
Import buffer services run order.
Context {R E : Type} `{Repositories R E} `{Json}.
Local Open Scope list_scope.

Lemma Remove_handle (txFails : bool) (item : Item) (b : bolt.Bucket Entry) :
  bucketKey item <> "" ->
  Remove txFails item (Some b)
  = (Some (if txFails then b else bolt.Delete (bucketKey item) b),
     if txFails then Some ErrBolt else None).
Proof.
  intros Hk. destruct txFails; [now apply Remove_fails | now apply Remove_by_handle].
Qed.

Lemma Requeue_bucket (e : Env) (item : Item) (b : bolt.Bucket Entry) :
  Requeue e item (Some b)
  = (Some (if fails e then b
           else bolt.Put (requeueKey e item)
                  (marshal (normalize e (refreshed e item))) b),
     if fails e then Some ErrBolt else None).
Proof.
  rewrite Requeue_unfold. unfold requeueKey.
  destruct (fails e) eqn:Hf; [now apply Enqueue_fails | now apply Enqueue_commits].
Qed.

Lemma drainItem_world bp (e : IterEnv E) (item : Item) (w : World R)
  (b : bolt.Bucket Entry) :
  store w = Some b -> bucketKey item <> "" ->
  fst (drainItem bp e item w)
  = mkWorld
      (Some (bucketAfter bp e item (snd (fst (processItem (repoEnv e) item (repo w)))) b))
      (fst (fst (processItem (repoEnv e) item (repo w)))).
Proof.
  intros Hs Hk. unfold drainItem, bucketAfter.
  destruct (processItem (repoEnv e) item (repo w)) as [[r' err] evs].
  cbn [fst snd]. rewrite Hs.
  assert (Hk' : bucketKey (retried item) <> "") by exact Hk.
  destruct err as [err|].
  - fold (retried item). change (Retries (retried item)) with (Retries item + 1).
    rewrite (Remove_handle _ (retried item) b Hk').
    change (bucketKey (retried item)) with (bucketKey item).
    destruct (Retries item + 1 >=? MaxRetries (cfg bp)); [reflexivity|].
    rewrite Requeue_bucket. reflexivity.
  - rewrite (Remove_handle _ item b Hk). reflexivity.
Qed.

Lemma processItem_profile (e : E) (item : Item) (r : R) (u : User) :
  Entity item = EntityProfile -> unmarshalUser (Data item) = Some u ->
  processItem e item r
  = (fst (Upsert e (Some u) r), snd (Upsert e (Some u) r),
     [EvCall (CallUpsert u); EvProcess item (snd (Upsert e (Some u) r))]).
Proof.
  intros He Hu. unfold processItem. rewrite He, Hu. cbn.
  now destruct (Upsert e (Some u) r).
Qed.

Lemma processItem_create (e : E) (item : Item) (r : R) (t : Task) :
  Entity item = EntityTask -> Operation item = OperationCreate ->
  unmarshalTask (Data item) = Some t ->
  processItem e item r
  = (fst (Create e (Some t) r), snd (snd (Create e (Some t) r)),
     [EvCall (CallCreate t); EvProcess item (snd (snd (Create e (Some t) r)))]).
Proof.
  intros He Ho Hu. unfold processItem. rewrite He, Ho, Hu. cbn.
  now destruct (Create e (Some t) r).
Qed.

Lemma processItem_update (e : E) (item : Item) (r : R) (t : Task) :
  Entity item = EntityTask -> Operation item = OperationUpdate ->
  unmarshalTask (Data item) = Some t ->
  processItem e item r
  = (fst (Update e (Some t) r), snd (Update e (Some t) r),
     [EvCall (CallUpdate t); EvProcess item (snd (Update e (Some t) r))]).
Proof.
  intros He Ho Hu. unfold processItem. rewrite He, Ho, Hu. cbn.
  now destruct (Update e (Some t) r).
Qed.

Lemma processItem_delete (e : E) (item : Item) (r : R) (t : Task) :
  Entity item = EntityTask -> Operation item = OperationDelete ->
  unmarshalTask (Data item) = Some t ->
  processItem e item r
  = (fst (Delete e (domain.Task.ID t) r), snd (Delete e (domain.Task.ID t) r),
     [EvCall (CallDelete (domain.Task.ID t)); EvProcess item (snd (Delete e (domain.Task.ID t) r))]).
Proof.
  intros He Ho Hu. unfold processItem. rewrite He, Ho, Hu. cbn.
  now destruct (Delete e (domain.Task.ID t) r).
Qed.

Lemma processItem_poison (e : E) (item : Item) (r : R) :
  poison item ->
  processItem e item r = (r, Some ErrUnmarshal, [EvProcess item (Some ErrUnmarshal)]).
Proof.
  unfold processItem. intros [[He Hu]|[He Hu]]; rewrite He; cbn; now rewrite Hu.
Qed.

End Iteration.

Section IterationOutcome.
Import buffer services run order.
Context {R E : Type} `{Repositories R E} `{Json}.
Local Open Scope list_scope.

(** [normalize] and [refreshed] leave the record's content alone. *)
Lemma requeued_content (e : Env) (item : Item) :
  let i' := normalize e (refreshed e (retried item)) in
  Retries i' = Retries item + 1
  /\ Data i' = Data item /\ Entity i' = Entity item
  /\ Operation i' = Operation item /\ UserID i' = UserID item
  /\ Timestamp i' = TimeAt (now e)
  /\ (ID item <> "" -> ID i' = ID item).
Proof.
  cbv zeta. unfold normalize, refreshed, retried.
  cbn [ID Priority Timestamp set_Timestamp set_bucketKey set_Retries IsZero
       UserID Entity Operation Data Retries].
  destruct (String.eqb_spec (ID item) "") as [Hid|Hid];
    cbn [ID Priority Timestamp set_ID];
    destruct ((_ <=? 0) || (5 <? _)); cbn; repeat split; auto; contradiction.
Qed.

(** The store after an iteration whose [processItem] failed, when both
    transactions commit. *)
Lemma failed_iteration_store bp (e : IterEnv E) (item : Item) (err : error)
  (b : bolt.Bucket Entry) :
  keyOrdered b -> bucketKey item <> "" ->
  removeFails e = false -> fails (requeueEnv e) = false ->
  let b' := bucketAfter bp e item (Some err) b in
  if Retries item + 1 >=? MaxRetries (cfg bp)
  then bolt.Get (bucketKey item) b' = None
  else bolt.Get (requeueKey (requeueEnv e) (retried item)) b'
       = Some (marshal (normalize (requeueEnv e) (refreshed (requeueEnv e) (retried item)))).
Proof.
  intros Hb Hk Hrm Hrq. cbv zeta. unfold bucketAfter. rewrite Hrm, Hrq.
  destruct (Retries item + 1 >=? MaxRetries (cfg bp)).
  - now apply Get_Delete_same.
  - apply Get_Put_same.
Qed.

End IterationOutcome.



(** ** PostgreSQL tables *)

Section Tables.
Context {Row : Type}.
Local Open Scope list_scope.
Implicit Types (t : list (string * Row)) (id : string).

Lemma find_None_rowsAffected id t :
  postgres.find id t = None -> postgres.rowsAffected id t = 0%nat.
Proof.
  unfold postgres.rowsAffected.
  induction t as [|[k r] t IH]; simpl; [reflexivity|].
  destruct (k =? id)%string; [discriminate | exact IH].
Qed.

Lemma find_Some_rowsAffected id t r :
  postgres.find id t = Some r -> postgres.rowsAffected id t <> 0%nat.
Proof.
  unfold postgres.rowsAffected.
  induction t as [|[k r'] t IH]; simpl; [discriminate|].
  destruct (k =? id)%string; simpl; [discriminate | exact IH].
Qed.

Lemma find_remove id t : postgres.find id (postgres.remove id t) = None.
Proof.
  unfold postgres.remove.
  induction t as [|[k r] t IH]; simpl; [reflexivity|].
  destruct (k =? id)%string eqn:E; simpl; [exact IH | now rewrite E].
Qed.

Lemma find_modify id f t :
  postgres.find id (postgres.modify id f t) = option_map f (postgres.find id t).
Proof.
  unfold postgres.modify.
  induction t as [|[k r] t IH]; simpl; [reflexivity|].
  destruct (k =? id)%string eqn:E; simpl; rewrite E; [reflexivity | exact IH].
Qed.

Lemma find_app_new id t r :
  postgres.find id t = None -> postgres.find id (t ++ [(id, r)]) = Some r.
Proof.
  induction t as [|[k r'] t IH]; simpl.
  - now rewrite String.eqb_refl.
  - destruct (k =? id)%string; [discriminate | exact IH].
Qed.

Lemma modify_modify id f g t :
  postgres.modify id g (postgres.modify id f t)
  = postgres.modify id (fun r => g (f r)) t.
Proof.
  unfold postgres.modify. rewrite map_map. apply map_ext.
  intros [k r]. cbn. destruct (k =? id)%string eqn:E; cbn; now rewrite E.
Qed.

Lemma modify_app_new id f t r :
  postgres.find id t = None ->
  postgres.modify id f (t ++ [(id, r)]) = t ++ [(id, f r)].
Proof.
  unfold postgres.modify. intros Hf. rewrite map_app. cbn.
  rewrite String.eqb_refl. f_equal.
  induction t as [|[k r'] t IH]; simpl in *; [reflexivity|].
  destruct (k =? id)%string; [discriminate|]. now rewrite IH.
Qed.

End Tables.



(** ** Order of a batch and of the tick that applies it *)

Section BatchOrder.
Import buffer services run order.
Local Open Scope list_scope.

Lemma tupleLt_Priority (a b : Item) : tupleLt a b -> Priority a <= Priority b.
Proof.
  unfold tupleLt, tupleCompare.
  destruct (Z.compare_spec (Priority a) (Priority b)); intros; try lia. discriminate.
Qed.

Lemma sorted_lower_priority_first (l : list Item) (p t : Item) :
  StronglySorted tupleLt l -> In p l -> In t l -> Priority p < Priority t ->
  exists l1 l2 l3, l = l1 ++ p :: l2 ++ t :: l3.
Proof.
  intros Hs. induction Hs as [|x l Hs IH Hall]; intros Hp Ht Hlt; [contradiction|].
  rewrite Forall_forall in Hall.
  destruct Hp as [->|Hp].
  - destruct Ht as [->|Ht]; [lia|].
    destruct (in_split _ _ Ht) as (l2 & l3 & ->). now exists [], l2, l3.
  - destruct Ht as [->|Ht].
    + specialize (Hall _ Hp). apply tupleLt_Priority in Hall. lia.
    + destruct (IH Hp Ht Hlt) as (l1 & l2 & l3 & ->). now exists (x :: l1), l2, l3.
Qed.

(** The cursor reaches a key only after every smaller key. *)
Lemma scan_reaches_smaller (l : nat) (b : bolt.Bucket Entry) (k1 : string)
  (i1 x : Item) :
  keyOrdered b -> bolt.Get k1 b = Some (Stored i1) ->
  In x (scan l b) -> String.compare k1 (bucketKey x) = Lt ->
  In (set_bucketKey k1 i1) (scan l b).
Proof.
  unfold keyOrdered. revert l.
  induction b as [|[k v] b IH]; intros l Hs Hg Hx Hlt; [discriminate|].
  inversion Hs as [|? ? Hs' Hall]; subst. rewrite Forall_forall in Hall.
  cbn [bolt.Get] in Hg. cbn [scan] in *.
  destruct l as [|l]; [contradiction|].
  destruct (String.eqb_spec k1 k) as [->|Hne].
  - injection Hg as ->. now left.
  - assert (Hk1 : order.keyLt (k, v) (k1, Stored i1)) by (apply Hall; now apply Get_In).
    unfold order.keyLt in Hk1. cbn in Hk1.
    destruct v as [i|].
    + destruct Hx as [<-|Hx].
      * cbn in Hlt. apply compare_gt_lt in Hk1. congruence.
      * right. eapply IH; eauto.
    + eapply IH; eauto.
Qed.

Context {R E : Type} `{Repositories R E} `{Json}.

Lemma BufferOperation_store bp (re : E) (qe : Env) (item : Item) (w : World R) :
  store (world (BufferOperation bp re qe item w)) = store w
  \/ store (world (BufferOperation bp re qe item w)) = fst (Enqueue qe item (store w)).
Proof.
  unfold BufferOperation, world.
  destruct (store w) as [b|] eqn:Hs; [|left; exact Hs].
  destruct (match monitor bp with None => true | Some st => monitor.IsOnline st end).
  - destruct (processItem re item (repo w)) as [[r' err] evs].
    destruct err; [|left; reflexivity].
    destruct (Enqueue qe item (Some b)); right; reflexivity.
  - destruct (Enqueue qe item (Some b)); right; reflexivity.
Qed.

Lemma Enqueue_new_entry (qe : Env) (item : Item) (s : Store) (k : string) (v : Entry) :
  at_key k (fst (Enqueue qe item s)) = Some v -> at_key k s <> Some v ->
  v = marshal (normalize qe item).
Proof.
  destruct s as [b|]; [|discriminate]. unfold Enqueue, bolt.Update.
  destruct (fails qe); cbn [fst at_key]; [intros; contradiction|].
  destruct (String.eqb_spec k (buildKey (normalize qe item))) as [->|Hne].
  - rewrite Get_Put_same. now intros [= <-] _.
  - rewrite Get_Put_other by exact Hne. intros; contradiction.
Qed.

End BatchOrder.

(** C4 (as stated, refuted).  A task create is buffered through
    [BufferTask] at time 100 and a profile update through [BufferProfile]
    at time 200, both while the monitor reports offline; the next tick
    applies the profile update first and the task create second. *)
Lemma profile_applied_before_task :
  let off := services.mkProcessor (Some examples.pgDown) examples.cfg3 in
  let on := services.mkProcessor (Some examples.allUp) examples.cfg3 in
  let w0 := services.mkWorld examples.emptyStore examples.emptyDB in
  let w1 := run.world (services.BufferTask (Some off) (examples.pgUp 1)
                         (buffer.mkEnv 100 "uuid-a" false) usecase.OperationCreate
                         (Some (examples.taskOf "t1")) w0) in
  let w2 := run.world (services.BufferProfile (Some off) (examples.pgUp 2)
                         (buffer.mkEnv 200 "uuid-b" false) usecase.OperationUpdate
                         (Some (examples.userOf "u1")) w1) in
  let out := services.Drain on (examples.calm (examples.pgUp 5) 1000) w2 in
  map buffer.Entity (run.processed (run.events out)) = ["profile"; "task"]
  /\ map buffer.Priority (run.processed (run.events out)) = [3; 4]
  /\ map buffer.Timestamp (run.processed (run.events out)) = [TimeAt 200; TimeAt 100]
  /\ run.keys (services.store (run.world out)) = [].
Proof. vm_compute. repeat split. Qed.

(** C4 (amended).  The record that [BufferProfile] files has priority 3
    and the one [BufferTask] files has priority 4, and the lower value
    drains first: in every store produced by the store's methods, when a
    tick that is not skipped reaches a record of priority 4, every stored
    record of priority 3 is applied earlier in the same tick, whatever
    the enqueue times. *)
Theorem profile_drains_before_task
  {R E : Type} `{Repositories R E} `{Json}
  (s : buffer.Store) (bp : services.BufferProcessor) (te : services.TickEnv E) (r : R)
  (k : string) (p t : buffer.Item) :
  order.fromEnqueues s ->
  match services.monitor bp with Some st => monitor.IsOnline st = true | None => True end ->
  services.viewFails te = false ->
  run.at_key k s = Some (buffer.Stored p) ->
  buffer.Priority p = 3 ->
  buffer.Priority t = 4 ->
  In t (fst (buffer.GetBatch false (services.BatchSize (services.cfg bp)) s)) ->
  (exists l1 l2 l3,
      run.processed (run.events (services.Drain bp te (services.mkWorld s r)))
      = l1 ++ buffer.set_bucketKey k p :: l2 ++ t :: l3)%list
  /\ (forall b' re qe op u w k' i,
        run.at_key k' (services.store
                         (run.world (services.BufferProfile b' re qe op u w)))
        = Some (buffer.Stored i) ->
        run.at_key k' (services.store w) <> Some (buffer.Stored i) ->
        buffer.Priority i = 3 /\ buffer.Entity i = buffer.EntityProfile)
  /\ (forall b' re qe op u w k' i,
        run.at_key k' (services.store
                         (run.world (services.BufferTask b' re qe op u w)))
        = Some (buffer.Stored i) ->
        run.at_key k' (services.store w) <> Some (buffer.Stored i) ->
        buffer.Priority i = 4 /\ buffer.Entity i = buffer.EntityTask).
Proof.
  intros Hs Hon Hv Hp Hp3 Ht4 Ht.
  destruct (fromEnqueues_wellFiled s Hs) as (b & -> & Hb).
  split; [|split].
  - cbn in Hp, Ht.
    set (lim := Z.to_nat (if services.BatchSize (services.cfg bp) <=? 0 then 50
                          else services.BatchSize (services.cfg bp))) in *.
    assert (Hproc : run.processed
                      (run.events (services.Drain bp te (services.mkWorld (Some b) r)))
                    = buffer.scan lim b).
    { unfold services.Drain. cbn [services.store].
      replace (match services.monitor bp with
               | Some status => negb (monitor.IsOnline status)
               | None => false
               end) with false
        by (destruct (services.monitor bp); [now rewrite Hon | reflexivity]).
      rewrite Hv. cbn [buffer.GetBatch]. fold lim.
      pose proof (drainItems_processed bp (services.iter te) 0 (buffer.scan lim b)
                    (services.mkWorld (Some b) r)) as Hd.
      destruct services.drainItems. exact Hd. }
    rewrite Hproc.
    apply sorted_lower_priority_first.
    + now apply scan_sorted.
    + destruct (scan_In _ _ _ Ht) as (kt & it & Hin & ->).
      destruct Hb as [Hso Hfi].
      eapply scan_reaches_smaller; eauto. cbn [buffer.bucketKey buffer.set_bucketKey].
      rewrite Forall_forall in Hfi.
      destruct (Hfi _ (Get_In _ _ _ Hp)) as (i1 & Hi1 & Hk1 & Hn1).
      destruct (Hfi _ Hin) as (i2 & Hi2 & Hk2 & Hn2).
      cbn in Hi1, Hk1, Hi2, Hk2. injection Hi1 as <-. injection Hi2 as <-.
      rewrite Hk1, Hk2, buildKey_compare by assumption.
      unfold order.tupleCompare. cbn in Ht4. rewrite Hp3, Ht4. reflexivity.
    + exact Ht.
    + cbn. lia.
  - intros b' re qe op u w k' i Hafter Hbefore.
    unfold services.BufferProfile in Hafter.
    destruct b' as [bp'|]; [|now elim Hbefore].
    destruct u as [u|]; [|now elim Hbefore].
    destruct (marshalUser u) as [payload|]; [|now elim Hbefore].
    match type of Hafter with
    | context [services.BufferOperation _ _ _ ?it _] => set (item := it) in *
    end.
    destruct (BufferOperation_store bp' re qe item w) as [E1|E1];
      rewrite E1 in Hafter; [now elim Hbefore|].
    pose proof (Enqueue_new_entry _ _ _ _ _ Hafter Hbefore) as Hv'.
    injection Hv' as ->.
    change (buffer.Priority (buffer.normalize qe item) = 3
            /\ buffer.Entity (buffer.normalize qe item) = buffer.EntityProfile).
    now rewrite normalize_Priority, normalize_Entity.
  - intros b' re qe op u w k' i Hafter Hbefore.
    unfold services.BufferTask in Hafter.
    destruct b' as [bp'|]; [|now elim Hbefore].
    destruct u as [u|]; [|now elim Hbefore].
    destruct (marshalTask u) as [payload|]; [|now elim Hbefore].
    match type of Hafter with
    | context [services.BufferOperation _ _ _ ?it _] => set (item := it) in *
    end.
    destruct (BufferOperation_store bp' re qe item w) as [E1|E1];
      rewrite E1 in Hafter; [now elim Hbefore|].
    pose proof (Enqueue_new_entry _ _ _ _ _ Hafter Hbefore) as Hv'.
    injection Hv' as ->.
    change (buffer.Priority (buffer.normalize qe item) = 4
            /\ buffer.Entity (buffer.normalize qe item) = buffer.EntityTask).
    now rewrite normalize_Priority, normalize_Entity.
Qed.

(** ** Applying a record twice *)

Section SecondApply.
Local Open Scope list_scope.

Lemma Upsert_twice (e1 e2 : postgres.Env) (u : User) (db : postgres.DB) :
  postgres.up e1 = true -> postgres.up e2 = true ->
  snd (postgres.Upsert e1 (Some u) db) = None
  /\ snd (postgres.Upsert e2 (Some u) (fst (postgres.Upsert e1 (Some u) db))) = None
  /\ run.eraseUpdated (fst (postgres.Upsert e2 (Some u) (fst (postgres.Upsert e1 (Some u) db))))
     = run.eraseUpdated (fst (postgres.Upsert e1 (Some u) db)).
Proof.
  intros H1 H2. unfold postgres.Upsert. rewrite H1, H2. cbn [negb].
  destruct (postgres.find (domain.User.ID u) (postgres.users db)) as [r|] eqn:Hf;
    cbn [fst snd postgres.users postgres.tasks].
  - rewrite find_modify, Hf. cbn [option_map fst snd].
    repeat split. unfold run.eraseUpdated. cbn [postgres.users postgres.tasks].
    f_equal. rewrite modify_modify. unfold postgres.modify. rewrite !map_map.
    apply map_ext. intros [k r0]. cbn.
    destruct (k =? domain.User.ID u)%string; reflexivity.
  - rewrite (find_app_new _ _ _ Hf). cbn [fst snd].
    repeat split. unfold run.eraseUpdated. cbn [postgres.users postgres.tasks].
    f_equal. rewrite (modify_app_new _ _ _ _ Hf). rewrite !map_app. reflexivity.
Qed.

Lemma Update_twice (e1 e2 : postgres.Env) (t : Task) (db : postgres.DB) :
  postgres.up e1 = true -> postgres.up e2 = true ->
  snd (postgres.Update e2 (Some t) (fst (postgres.Update e1 (Some t) db)))
  = snd (postgres.Update e1 (Some t) db)
  /\ run.eraseUpdated (fst (postgres.Update e2 (Some t) (fst (postgres.Update e1 (Some t) db))))
     = run.eraseUpdated (fst (postgres.Update e1 (Some t) db)).
Proof.
  intros H1 H2. unfold postgres.Update. rewrite H1, H2. cbn [negb].
  destruct (postgres.find (domain.Task.ID t) (postgres.tasks db)) as [r|] eqn:Hf;
    cbn [fst snd postgres.users postgres.tasks].
  - rewrite find_modify, Hf. cbn [option_map fst snd].
    split; [reflexivity|]. unfold run.eraseUpdated. cbn [postgres.users postgres.tasks].
    f_equal. rewrite modify_modify. unfold postgres.modify. rewrite !map_map.
    apply map_ext. intros [k r0]. cbn.
    destruct (k =? domain.Task.ID t)%string; reflexivity.
  - rewrite Hf. cbn [fst snd]. split; reflexivity.
Qed.

Lemma Create_twice (e1 e2 : postgres.Env) (t : Task) (db : postgres.DB) :
  postgres.up e1 = true -> postgres.up e2 = true -> domain.Task.ID t <> "" ->
  postgres.Create e2 (Some t) (fst (postgres.Create e1 (Some t) db))
  = (fst (postgres.Create e1 (Some t) db), (None, Some ErrUniqueViolation)).
Proof.
  intros H1 H2 Hid. unfold postgres.Create. rewrite H1, H2. cbn [negb].
  apply String.eqb_neq in Hid. rewrite Hid.
  destruct (postgres.find (domain.Task.ID t) (postgres.tasks db)) as [r|] eqn:Hf;
    cbn [fst snd postgres.users postgres.tasks].
  - now rewrite Hf.
  - now rewrite (find_app_new _ _ _ Hf).
Qed.

Lemma Delete_twice (e1 e2 : postgres.Env) (id : string) (db : postgres.DB) :
  postgres.up e1 = true -> postgres.up e2 = true ->
  postgres.Delete e2 id (fst (postgres.Delete e1 id db))
  = (fst (postgres.Delete e1 id db), Some ErrTaskNotFound).
Proof.
  intros H1 H2. unfold postgres.Delete. rewrite H1, H2. cbn [negb].
  destruct (postgres.rowsAffected id (postgres.tasks db) =? 0)%nat eqn:Hn;
    cbn [fst postgres.tasks postgres.users].
  - now rewrite Hn.
  - now rewrite (find_None_rowsAffected _ _ (find_remove id (postgres.tasks db))).
Qed.

End SecondApply.



(** ** The retry budget *)

Section Budget.
Import buffer services run order.
Local Open Scope list_scope.
Local Open Scope nat_scope.
Variables (M : Z) (id : string).
Implicit Types (b : bolt.Bucket Entry) (K : list string).

Lemma budgetOutside_nil K : budgetOutside K M id [] = 0.
Proof. reflexivity. Qed.

Lemma budgetOutside_cons K (k : string) (v : Entry) b :
  budgetOutside K M id ((k, v) :: b)
  = (if existsb (String.eqb k) K then 0 else shareOf M id v) + budgetOutside K M id b.
Proof. reflexivity. Qed.

Lemma budgetOutside_more (k : string) K b :
  budgetOutside (k :: K) M id b <= budgetOutside K M id b.
Proof.
  induction b as [|[k0 v] b IH]; [rewrite !budgetOutside_nil; lia|].
  rewrite !budgetOutside_cons. cbn [existsb].
  destruct (k0 =? k)%string; cbn [orb]; destruct (existsb _ K); lia.
Qed.

Lemma budgetOutside_absent (h : string) K b :
  Forall (fun kv => fst kv <> h) b ->
  budgetOutside (h :: K) M id b = budgetOutside K M id b.
Proof.
  induction 1 as [|[k0 v] b Hne _ IH]; [reflexivity|].
  rewrite !budgetOutside_cons. cbn [existsb].
  cbn in Hne. apply String.eqb_neq in Hne. rewrite Hne. cbn [orb]. now rewrite IH.
Qed.

Lemma keyOrdered_tail_absent (k : string) (v : Entry) b :
  keyOrdered ((k, v) :: b) -> Forall (fun kv => fst kv <> k) b.
Proof.
  intros Hs. inversion Hs as [|? ? _ Hall]; subst.
  eapply Forall_impl; [|exact Hall]. intros [k' v'] Hlt. cbn in *.
  intros ->. unfold keyLt in Hlt. cbn in Hlt. now rewrite compare_refl in Hlt.
Qed.

Lemma budgetOutside_Delete (h : string) K b :
  keyOrdered b ->
  budgetOutside K M id (bolt.Delete h b) <= budgetOutside (h :: K) M id b.
Proof.
  induction b as [|[k v] b IH]; intros Hs; cbn [bolt.Delete];
    [rewrite !budgetOutside_nil; lia|].
  pose proof (keyOrdered_tail_absent _ _ _ Hs) as Habs.
  assert (Hs' : keyOrdered b) by (inversion Hs; assumption).
  destruct (String.eqb_spec h k) as [->|Hne].
  - rewrite <- (budgetOutside_absent k K b Habs), budgetOutside_cons. lia.
  - specialize (IH Hs'). rewrite !budgetOutside_cons. cbn [existsb].
    replace (k =? h)%string with false
      by (symmetry; apply String.eqb_neq; congruence).
    cbn [orb]. lia.
Qed.

Lemma budgetOutside_Put (k : string) (v : Entry) K b :
  budgetOutside K M id (bolt.Put k v b) <= budgetOutside K M id b + shareOf M id v.
Proof.
  induction b as [|[k0 v0] b IH]; cbn [bolt.Put].
  - rewrite budgetOutside_cons, budgetOutside_nil. destruct (existsb _ K); lia.
  - destruct (String.compare k k0); rewrite !budgetOutside_cons.
    + destruct (existsb (String.eqb k) K), (existsb (String.eqb k0) K); lia.
    + destruct (existsb (String.eqb k) K), (existsb (String.eqb k0) K); lia.
    + destruct (existsb (String.eqb k0) K); lia.
Qed.

Lemma sumShare_cons (x : Item) (items : list Item) :
  sumShare M id (x :: items) = share M id x + sumShare M id items.
Proof. reflexivity. Qed.

Lemma budget_scan (l : Datatypes.nat) b :
  sumShare M id (scan l b) + budgetOutside (map bucketKey (scan l b)) M id b
  <= budget M id b.
Proof.
  unfold budget. revert l.
  induction b as [|[k v] b IH]; intros l; cbn [scan]; [cbn; lia|].
  destruct l as [|l]; [cbn [map]; unfold sumShare; cbn; lia|].
  destruct v as [i|].
  - specialize (IH l).
    pose proof (budgetOutside_more k (map bucketKey (scan l b)) b) as Hm.
    cbn [map]. rewrite sumShare_cons, !budgetOutside_cons.
    cbn [bucketKey set_bucketKey existsb]. rewrite String.eqb_refl. cbn [orb shareOf].
    change (share M id (set_bucketKey k i)) with (share M id i). lia.
  - specialize (IH (S l)). rewrite !budgetOutside_cons. cbn [shareOf existsb].
    destruct (existsb _ _); lia.
Qed.

End Budget.

Section RetryBound.
Import buffer services run order.
Context {R E : Type} `{Repositories R E} `{Json}.
Local Open Scope list_scope.
Variables (bp : BufferProcessor) (id : string).
Let M := MaxRetries (cfg bp).

Lemma applies_app (a b : list Event) :
  applies id (a ++ b) = (applies id a + applies id b)%nat.
Proof.
  unfold applies. now rewrite processed_app, filter_app, List.length_app.
Qed.

Lemma applies_drainItem (e : IterEnv E) (x : Item) (w : World R) :
  applies id (snd (drainItem bp e x w)) = if (ID x =? id)%string then 1%nat else 0%nat.
Proof.
  unfold applies. rewrite drainItem_processed. cbn.
  now destruct (ID x =? id)%string.
Qed.

Lemma append_nonempty (s : string) (c : ascii) (t : string) :
  (s ++ String c t)%string <> "".
Proof. destruct s; discriminate. Qed.

Lemma buildKey_nonempty (i : Item) : buildKey i <> "".
Proof. unfold buildKey. apply append_nonempty. Qed.

Lemma identified_Delete (h : string) (b : bolt.Bucket Entry) :
  identified b -> identified (bolt.Delete h b).
Proof. apply Forall_sub. apply Delete_In. Qed.

Lemma identified_Put (k : string) (i : Item) (b : bolt.Bucket Entry) :
  k <> "" -> ID i <> "" -> identified b -> identified (bolt.Put k (marshal i) b).
Proof.
  intros Hk Hi Hb. apply Forall_forall. intros x Hx.
  apply Put_In in Hx. destruct Hx as [->|Hx].
  - split; [exact Hk|]. intros i0 [= <-]. exact Hi.
  - unfold identified in Hb. rewrite Forall_forall in Hb. now apply Hb.
Qed.

Lemma share_requeued (e : Env) (x : Item) :
  ID x <> "" -> Retries x + 1 < M ->
  ((if (ID x =? id)%string then 1 else 0)
   + shareOf M id (marshal (normalize e (refreshed e (retried x))))
   <= share M id x)%nat.
Proof.
  intros Hid Hlt.
  destruct (requeued_content e x) as (Hr & _ & _ & _ & _ & _ & Hi).
  specialize (Hi Hid). cbv zeta in Hr, Hi.
  unfold shareOf, marshal, share.
  change (ID (set_bucketKey "" ?i)) with (ID i).
  change (Retries (set_bucketKey "" ?i)) with (Retries i).
  rewrite Hi, Hr. destruct (ID x =? id)%string; lia.
Qed.

Lemma share_positive (x : Item) :
  ((if (ID x =? id)%string then 1 else 0) <= share M id x)%nat.
Proof. unfold share. destruct (ID x =? id)%string; lia. Qed.

(** One iteration pays for the apply it makes out of the share of the
    item it handles. *)
Lemma drainItem_budget (e : IterEnv E) (x : Item) (b : bolt.Bucket Entry) (r : R) :
  keyOrdered b -> identified b -> bucketKey x <> "" -> ID x <> "" -> commits e ->
  exists b1 r1,
    fst (drainItem bp e x (mkWorld (Some b) r)) = mkWorld (Some b1) r1
    /\ keyOrdered b1 /\ identified b1
    /\ forall K,
        (applies id (snd (drainItem bp e x (mkWorld (Some b) r)))
         + budgetOutside K M id b1
         <= share M id x + budgetOutside (bucketKey x :: K) M id b)%nat.
Proof.
  intros Hs Hi Hk Hid [Hrm Hrq].
  rewrite (drainItem_world bp e x (mkWorld (Some b) r) b eq_refl Hk).
  eexists. eexists. split; [reflexivity|].
  rewrite applies_drainItem. unfold bucketAfter. rewrite Hrm, Hrq.
  pose proof (Delete_keyOrdered (bucketKey x) b Hs) as Hs1.
  pose proof (identified_Delete (bucketKey x) b Hi) as Hi1.
  pose proof (share_positive x) as Hpos.
  destruct (snd (fst (processItem (repoEnv e) x (repo (mkWorld (Some b) r))))) as [err|].
  - fold M. rewrite Z.geb_leb.
    destruct (Z.leb_spec M (Retries x + 1)) as [Hge|Hlt].
    + repeat split; auto. intros K.
      pose proof (budgetOutside_Delete M id (bucketKey x) K b Hs). lia.
    + split; [now apply Put_keyOrdered|].
      split.
      * apply identified_Put; auto; [apply buildKey_nonempty|].
        destruct (requeued_content (requeueEnv e) x) as (_ & _ & _ & _ & _ & _ & Hi').
        rewrite (Hi' Hid). exact Hid.
      * intros K.
        pose proof (budgetOutside_Delete M id (bucketKey x) K b Hs).
        pose proof (budgetOutside_Put M id
                      (requeueKey (requeueEnv e) (retried x))
                      (marshal (normalize (requeueEnv e)
                                  (refreshed (requeueEnv e) (retried x))))
                      K (bolt.Delete (bucketKey x) b)).
        pose proof (share_requeued (requeueEnv e) x Hid Hlt). lia.
  - repeat split; auto. intros K.
    pose proof (budgetOutside_Delete M id (bucketKey x) K b Hs). lia.
Qed.

Lemma drainItems_budget (env : nat -> IterEnv E) (items : list Item) :
  forall (n : nat) (b : bolt.Bucket Entry) (r : R),
    keyOrdered b -> identified b ->
    Forall (fun x => bucketKey x <> "" /\ ID x <> "") items ->
    (forall j, commits (env j)) ->
    exists b' r',
      fst (drainItems bp env n items (mkWorld (Some b) r)) = mkWorld (Some b') r'
      /\ keyOrdered b' /\ identified b'
      /\ (applies id (snd (drainItems bp env n items (mkWorld (Some b) r)))
          + budget M id b'
          <= sumShare M id items + budgetOutside (map bucketKey items) M id b)%nat.
Proof.
  induction items as [|x rest IH]; intros n b r Hs Hi Hitems Hc.
  - exists b, r. cbn. repeat split; auto.
  - inversion Hitems as [|? ? [Hk Hid] Hrest]; subst.
    destruct (drainItem_budget (env n) x b r Hs Hi Hk Hid (Hc n))
      as (b1 & r1 & E1 & Hs1 & Hi1 & Hstep).
    cbn [drainItems].
    destruct (drainItem bp (env n) x (mkWorld (Some b) r)) as [w1 ev1].
    cbn [fst snd] in E1, Hstep. subst w1.
    destruct (IH (S n) b1 r1 Hs1 Hi1 Hrest Hc) as (b' & r' & E2 & Hs2 & Hi2 & Hrestb).
    destruct (drainItems bp env (S n) rest (mkWorld (Some b1) r1)) as [w2 ev2].
    cbn [fst snd] in E2, Hrestb |- *. subst w2.
    exists b', r'. repeat split; auto.
    rewrite applies_app. cbn [map]. rewrite sumShare_cons.
    specialize (Hstep (map bucketKey rest)). lia.
Qed.

Lemma scan_identified (l : nat) (b : bolt.Bucket Entry) :
  identified b -> Forall (fun x => bucketKey x <> "" /\ ID x <> "") (scan l b).
Proof.
  intros Hi. apply Forall_forall. intros x Hx.
  destruct (scan_In _ _ _ Hx) as (k & i & Hin & ->).
  unfold identified in Hi. rewrite Forall_forall in Hi.
  destruct (Hi _ Hin) as [Hk Hid]. split; [exact Hk | exact (Hid i eq_refl)].
Qed.

Lemma Drain_budget (te : TickEnv E) (b : bolt.Bucket Entry) (r : R) :
  keyOrdered b -> identified b -> (forall j, commits (iter te j)) ->
  exists b' r',
    world (Drain bp te (mkWorld (Some b) r)) = mkWorld (Some b') r'
    /\ keyOrdered b' /\ identified b'
    /\ (applies id (events (Drain bp te (mkWorld (Some b) r))) + budget M id b'
        <= budget M id b)%nat.
Proof.
  intros Hs Hi Hc. unfold Drain, world, events. cbn [store].
  destruct (match monitor bp with
            | Some status => negb (monitor.IsOnline status)
            | None => false
            end).
  { exists b, r. cbn. repeat split; auto. }
  unfold GetBatch. destruct (viewFails te).
  { exists b, r. cbn. repeat split; auto. }
  set (lim := Z.to_nat (if BatchSize (cfg bp) <=? 0 then 50 else BatchSize (cfg bp))).
  destruct (drainItems_budget (iter te) (scan lim b) 0 b r Hs Hi
              (scan_identified lim b Hi) Hc) as (b' & r' & Ew & Hs' & Hi' & Hle).
  destruct (drainItems bp (iter te) 0 (scan lim b) (mkWorld (Some b) r)) as [w' evs].
  cbn [fst snd] in *. subst w'. exists b', r'. repeat split; auto.
  pose proof (budget_scan M id lim b). fold M in Hle. lia.
Qed.

Lemma ticks_budget (envs : nat -> TickEnv E) (n : nat) :
  forall (t : nat) (b : bolt.Bucket Entry) (r : R),
    keyOrdered b -> identified b -> (forall t j, commits (iter (envs t) j)) ->
    (applies id (snd (ticks bp envs t n (mkWorld (Some b) r))) <= budget M id b)%nat.
Proof.
  induction n as [|n IH]; intros t b r Hs Hi Hc; cbn [ticks].
  - cbn. lia.
  - destruct (Drain_budget (envs t) b r Hs Hi (Hc t)) as (b' & r' & Ew & Hs' & Hi' & Hle).
    unfold world, events in Ew, Hle.
    destruct (fst (Drain bp (envs t) (mkWorld (Some b) r))) as [w1 ev1].
    cbn [fst snd] in Ew, Hle. subst w1.
    specialize (IH (S t) b' r' Hs' Hi' Hc).
    destruct (ticks bp envs (S t) n (mkWorld (Some b') r')) as [w2 ev2].
    cbn [snd] in *. rewrite applies_app. lia.
Qed.

(** A record whose every apply fails: it is applied once per tick until
    its share is used up, then it is gone. *)
Section AlwaysFailing.
Variable envs : nat -> TickEnv E.
Hypothesis Honline :
  match monitor bp with Some st => monitor.IsOnline st = true | None => True end.
Hypothesis Hview : forall t, viewFails (envs t) = false.
Hypothesis Hcommit : forall t j, commits (iter (envs t) j).
Hypothesis Hfail :
  forall t j x r, errorOf (processItem (repoEnv (iter (envs t) j)) x r) <> None.

Lemma Drain_online (t : nat) (b : bolt.Bucket Entry) (r : R) :
  fst (Drain bp (envs t) (mkWorld (Some b) r))
  = drainItems bp (iter (envs t)) 0
      (scan (Z.to_nat (if BatchSize (cfg bp) <=? 0 then 50 else BatchSize (cfg bp))) b)
      (mkWorld (Some b) r).
Proof.
  unfold Drain. cbn [store].
  replace (match monitor bp with
           | Some status => negb (monitor.IsOnline status)
           | None => false
           end) with false
    by (destruct (monitor bp); [now rewrite Honline | reflexivity]).
  unfold GetBatch. rewrite Hview. now destruct drainItems.
Qed.

Lemma limit_positive :
  exists l, Z.to_nat (if BatchSize (cfg bp) <=? 0 then 50 else BatchSize (cfg bp)) = S l.
Proof.
  destruct (Z.leb_spec (BatchSize (cfg bp)) 0).
  - exists 49%nat. reflexivity.
  - exists (Nat.pred (Z.to_nat (BatchSize (cfg bp)))). lia.
Qed.

Lemma ticks_S (t n : nat) (w : World R) :
  ticks bp envs t (S n) w
  = (fst (ticks bp envs (S t) n (fst (fst (Drain bp (envs t) w)))),
     snd (fst (Drain bp (envs t) w))
     ++ snd (ticks bp envs (S t) n (fst (fst (Drain bp (envs t) w))))).
Proof.
  cbn [ticks]. destruct (fst (Drain bp (envs t) w)) as [w1 ev1]. cbn [fst snd].
  now destruct (ticks bp envs (S t) n w1).
Qed.

Lemma ticks_empty (n : nat) : forall (t : nat) (r : R),
  exists r', ticks bp envs t n (mkWorld (Some ([] : bolt.Bucket Entry)) r)
             = (mkWorld (Some ([] : bolt.Bucket Entry)) r', []).
Proof.
  induction n as [|n IH]; intros t r; [cbn [ticks]; eauto|].
  rewrite ticks_S, Drain_online. cbn [scan drainItems fst snd].
  destruct (IH (S t) r) as (r' & ->). exists r'. reflexivity.
Qed.

Lemma Delete_single (k : string) (v : Entry) : bolt.Delete k [(k, v)] = [].
Proof. cbn. now rewrite String.eqb_refl. Qed.

Lemma always_failing_exact (d : nat) :
  forall (k : string) (i : Item) (t m : nat) (r : R),
    k <> "" -> ID i = id -> id <> "" -> share M id i = d ->
    applies id
      (snd (ticks bp envs t (d + m)
              (mkWorld (Some ([(k, Stored i)] : bolt.Bucket Entry)) r))) = d
    /\ store
         (fst (ticks bp envs t (d + m)
                 (mkWorld (Some ([(k, Stored i)] : bolt.Bucket Entry)) r)))
       = Some ([] : bolt.Bucket Entry).
Proof.
  induction d as [|d IH]; intros k i t m r Hk Hid Hne Hsh.
  - unfold share in Hsh. rewrite Hid, String.eqb_refl in Hsh. lia.
  - cbn [Nat.add]. rewrite ticks_S, Drain_online.
    destruct limit_positive as (l & ->). cbn [scan drainItems].
    set (x := set_bucketKey k i).
    assert (Hkx : bucketKey x <> "") by exact Hk.
    unfold share in Hsh. rewrite Hid, String.eqb_refl in Hsh.
    destruct (Hcommit t 0%nat) as [Hrm Hrq].
    pose proof (Hfail t 0%nat x r) as Hf. unfold errorOf in Hf.
    match goal with
    | |- context [drainItem bp ?e x ?w0] =>
        pose proof (drainItem_world bp e x w0 _ eq_refl Hkx) as Hw;
        pose proof (applies_drainItem e x w0) as Ha;
        destruct (drainItem bp e x w0) as [w1 ev1]
    end.
    cbn [fst snd repo] in Hw, Ha |- *.
    change (ID x) with (ID i) in Ha. rewrite Hid, String.eqb_refl in Ha.
    destruct (snd (fst (processItem (repoEnv (iter (envs t) 0)) x r))) as [err|];
      [clear Hf|now elim Hf].
    unfold bucketAfter in Hw. rewrite Hrm, Hrq in Hw.
    change (bucketKey x) with k in Hw. rewrite Delete_single in Hw.
    change (Retries x) with (Retries i) in Hw. fold M in Hw.
    rewrite Z.geb_leb in Hw.
    destruct (Z.leb_spec M (Retries i + 1)) as [Hge|Hlt]; subst w1.
    + assert (d = 0)%nat by lia. subst d. cbn [Nat.add].
      destruct (ticks_empty m (S t)
                  (fst (fst (processItem (repoEnv (iter (envs t) 0)) x r)))) as (r' & Et).
      rewrite Et. cbn [fst snd store]. rewrite !applies_app, Ha. cbn. auto.
    + cbn [bolt.Put] in *.
      set (i' := normalize (requeueEnv (iter (envs t) 0))
                   (refreshed (requeueEnv (iter (envs t) 0)) (retried x))) in *.
      destruct (requeued_content (requeueEnv (iter (envs t) 0)) x)
        as (Hr' & _ & _ & _ & _ & _ & Hi').
      fold i' in Hr', Hi'. change (Retries x) with (Retries i) in Hr'.
      change (ID x) with (ID i) in Hi'. rewrite Hid in Hi'. specialize (Hi' Hne).
      destruct (IH (requeueKey (requeueEnv (iter (envs t) 0)) (retried x))
                  (set_bucketKey "" i') (S t) m
                  (fst (fst (processItem (repoEnv (iter (envs t) 0)) x r))))
        as [IHa IHs].
      * apply buildKey_nonempty.
      * exact Hi'.
      * exact Hne.
      * unfold share. change (ID (set_bucketKey "" i')) with (ID i').
        change (Retries (set_bucketKey "" i')) with (Retries i').
        rewrite Hi', String.eqb_refl, Hr'. lia.
      * unfold marshal. cbn [fst snd]. rewrite !applies_app, Ha, IHa, IHs. cbn. auto.
Qed.

End AlwaysFailing.

End RetryBound.

Section FailedIteration.
Import buffer services run order.
Context {R E : Type} `{Repositories R E} `{Json}.
Local Open Scope list_scope.

Lemma drainItem_drop_log bp (e : IterEnv E) (x : Item) (w : World R) :
  errorOf (processItem (repoEnv e) x (repo w)) <> None ->
  Retries x + 1 >= MaxRetries (cfg bp) ->
  In (EvLog Warn "dropping buffer item (max retries reached)") (snd (drainItem bp e x w)).
Proof.
  intros Hf Hge. unfold drainItem, errorOf in *.
  destruct (processItem (repoEnv e) x (repo w)) as [[r' err] evs]. cbn [fst snd] in Hf.
  destruct err as [err|]; [|now elim Hf].
  cbn [Retries set_Retries].
  replace (Retries x + 1 >=? MaxRetries (cfg bp)) with true
    by (symmetry; rewrite Z.geb_leb; apply Z.leb_le; lia).
  destruct Remove. cbn [snd]. apply in_or_app. right. now left.
Qed.

Lemma budget_single (Mx : Z) (id k : string) (i : Item) :
  ID i = id -> Retries i = 0 -> 1 <= Mx ->
  budget Mx id [(k, Stored i)] = Z.to_nat Mx.
Proof.
  intros Hid Hr HM. unfold budget, budgetOutside. cbn.
  unfold share. rewrite Hid, String.eqb_refl, Hr. lia.
Qed.

Lemma NewBufferProcessor_MaxRetries mon (c : ProcessorConfig) :
  MaxRetries (cfg (NewBufferProcessor mon c))
  = if MaxRetries c <=? 0 then 3 else MaxRetries c.
Proof.
  unfold NewBufferProcessor.
  destruct (Interval c <=? 0); cbn [BatchSize MaxRetries Interval];
    destruct (BatchSize c <=? 0); cbn [BatchSize MaxRetries Interval];
    destruct (MaxRetries c <=? 0); reflexivity.
Qed.

End FailedIteration.



(** ** Durability across a tick *)

Section Durability.
Import buffer services run order.
Context {R E : Type} `{Repositories R E} `{Json}.
Local Open Scope list_scope.

Lemma drainItem_returned bp (e : IterEnv E) (x : Item) (w : World R) :
  In (EvProcess x (errorOf (processItem e.(repoEnv) x (repo w))))
     (snd (drainItem bp e x w)).
Proof.
  unfold drainItem, errorOf.
  assert (Hin : In (EvProcess x (snd (fst (processItem (repoEnv e) x (repo w)))))
                  (snd (processItem (repoEnv e) x (repo w)))).
  { destruct (processItem_cases (repoEnv e) x (repo w)) as [(err & ->)|(c & r' & err & ->)];
      cbn; auto. }
  destruct (processItem (repoEnv e) x (repo w)) as [[r' err] evs]. cbn [fst snd] in *.
  destruct err as [err|].
  - destruct (_ >=? _).
    + destruct Remove. cbn [snd]. rewrite <- !app_assoc. apply in_or_app. now left.
    + destruct Remove. destruct Requeue. cbn [snd].
      rewrite <- !app_assoc. apply in_or_app. now left.
  - destruct Remove. cbn [snd]. apply in_or_app. now left.
Qed.

Lemma scan_handles_above (l : nat) (b : bolt.Bucket Entry) (k : string) :
  Forall (fun kv => String.compare k (fst kv) = Lt) b ->
  ~ In k (map bucketKey (scan l b)).
Proof.
  intros Hall Hin. apply in_map_iff in Hin. destruct Hin as (x & Hx & Hin).
  destruct (scan_In _ _ _ Hin) as (k' & i & Hin' & ->). cbn in Hx. subst k'.
  rewrite Forall_forall in Hall. specialize (Hall _ Hin'). cbn in Hall.
  now rewrite compare_refl in Hall.
Qed.

Lemma scan_NoDup (l : nat) (b : bolt.Bucket Entry) :
  keyOrdered b -> NoDup (map bucketKey (scan l b)).
Proof.
  unfold keyOrdered. revert l.
  induction b as [|[k v] b IH]; intros l Hs; cbn [scan]; [constructor|].
  inversion Hs as [|? ? Hs' Hall]; subst.
  destruct l as [|l]; [constructor|].
  destruct v as [i|]; [|now apply IH].
  cbn [map bucketKey set_bucketKey]. constructor; [|now apply IH].
  now apply scan_handles_above.
Qed.

Lemma scan_complete (l : nat) (b : bolt.Bucket Entry) (k : string) (i : Item) :
  (List.length b <= l)%nat -> In (k, Stored i) b -> In (set_bucketKey k i) (scan l b).
Proof.
  revert l. induction b as [|[k0 v] b IH]; intros l Hl Hin; [contradiction|].
  cbn [List.length] in Hl. destruct l as [|l]; [lia|]. cbn [scan].
  destruct Hin as [[= -> ->]|Hin]; [now left|].
  destruct v; [right|]; apply IH; auto; lia.
Qed.

Lemma buildKey_same_time (a b : Item) :
  normalized a -> normalized b -> buildKey a = buildKey b ->
  UnixNano (Timestamp a) = UnixNano (Timestamp b).
Proof.
  intros Ha Hb Hk. apply compare_eq in Hk. rewrite buildKey_compare in Hk by assumption.
  unfold tupleCompare in Hk.
  destruct (Priority a ?= Priority b); try discriminate.
  destruct (Z.compare_spec (UnixNano (Timestamp a)) (UnixNano (Timestamp b)));
    [assumption | discriminate | discriminate].
Qed.

Lemma requeued_normalized (e : Env) (y : Item) :
  clockOK e -> normalized (normalize e (refreshed e y))
               /\ UnixNano (Timestamp (normalize e (refreshed e y))) = now e.
Proof.
  intros He. split.
  - apply normalize_normalized; [exact He | right; exact He].
  - rewrite normalize_Timestamp. reflexivity.
Qed.

Lemma requeueKey_same_time (e e' : Env) (y y' : Item) :
  clockOK e -> clockOK e' -> requeueKey e y = requeueKey e' y' -> now e = now e'.
Proof.
  intros He He' Hk.
  destruct (requeued_normalized e y He) as [Hn Ht].
  destruct (requeued_normalized e' y' He') as [Hn' Ht'].
  rewrite <- Ht, <- Ht'. now apply buildKey_same_time.
Qed.

Lemma requeueKey_stored_time (e : Env) (y i : Item) :
  clockOK e -> normalized i -> requeueKey e y = buildKey i ->
  now e = UnixNano (Timestamp i).
Proof.
  intros He Hi Hk. destruct (requeued_normalized e y He) as [Hn Ht].
  rewrite <- Ht. now apply buildKey_same_time.
Qed.

Lemma drainItems_cons bp (env : nat -> IterEnv E) (n : nat) (x : Item)
  (rest : list Item) (w : World R) :
  drainItems bp env n (x :: rest) w
  = (fst (drainItems bp env (S n) rest (fst (drainItem bp (env n) x w))),
     snd (drainItem bp (env n) x w)
     ++ snd (drainItems bp env (S n) rest (fst (drainItem bp (env n) x w)))).
Proof.
  cbn [drainItems]. destruct (drainItem bp (env n) x w) as [w1 ev1]. cbn [fst snd].
  now destruct (drainItems bp env (S n) rest w1).
Qed.

Section Loop.
Variables (bp : BufferProcessor) (env : nat -> IterEnv E).
Let M := MaxRetries (cfg bp).
Let qk (j : nat) (y : Item) : string := requeueKey (requeueEnv (env j)) y.
Let qv (j : nat) (x : Item) : Entry :=
  marshal (normalize (requeueEnv (env j)) (refreshed (requeueEnv (env j)) (retried x))).

Lemma bucketAfter_keyOrdered (e : IterEnv E) (x : Item) err (b : bolt.Bucket Entry) :
  keyOrdered b -> keyOrdered (bucketAfter bp e x err b).
Proof.
  intros Hs. unfold bucketAfter.
  assert (Hs1 : keyOrdered (if removeFails e then b else bolt.Delete (bucketKey x) b))
    by (destruct (removeFails e); [assumption | now apply Delete_keyOrdered]).
  destruct err; [|assumption].
  destruct (_ >=? _); [assumption|].
  destruct (fails _); [assumption | now apply Put_keyOrdered].
Qed.

Lemma bucketAfter_Get_other (e : IterEnv E) (x : Item) err (b : bolt.Bucket Entry)
  (k : string) :
  k <> bucketKey x -> k <> requeueKey (requeueEnv e) (retried x) ->
  bolt.Get k (bucketAfter bp e x err b) = bolt.Get k b.
Proof.
  intros Hh Hq. unfold bucketAfter.
  assert (H1 : bolt.Get k (if removeFails e then b else bolt.Delete (bucketKey x) b)
               = bolt.Get k b)
    by (destruct (removeFails e); [reflexivity | now apply Get_Delete_other]).
  destruct err; [|assumption].
  destruct (_ >=? _); [assumption|].
  destruct (fails _); [assumption|]. now rewrite Get_Put_other.
Qed.

Lemma bucketAfter_free (e : IterEnv E) (x : Item) err (b : bolt.Bucket Entry)
  (k : string) :
  keyOrdered b -> bolt.Get k b = None ->
  k <> requeueKey (requeueEnv e) (retried x) ->
  bolt.Get k (bucketAfter bp e x err b) = None.
Proof.
  intros Hs Hn Hq. unfold bucketAfter.
  assert (H1 : bolt.Get k (if removeFails e then b else bolt.Delete (bucketKey x) b) = None).
  { destruct (removeFails e); [assumption|].
    destruct (String.eqb_spec k (bucketKey x)) as [->|Hne].
    - now apply Get_Delete_same.
    - now rewrite Get_Delete_other. }
  destruct err; [|assumption].
  destruct (_ >=? _); [assumption|].
  destruct (fails _); [assumption|]. now rewrite Get_Put_other.
Qed.

(** What becomes of the entry under the handle of a failed item that is
    still under its retry budget: it stays, or it is filed again. *)
Lemma bucketAfter_requeued (e : IterEnv E) (x : Item) (er : error)
  (b : bolt.Bucket Entry) (v : Entry) :
  noLoss e -> bolt.Get (bucketKey x) b = Some v -> Retries x + 1 < M ->
  bolt.Get (bucketKey x) (bucketAfter bp e x (Some er) b) = Some v
  \/ bolt.Get (requeueKey (requeueEnv e) (retried x)) (bucketAfter bp e x (Some er) b)
     = Some (marshal (normalize (requeueEnv e)
                        (refreshed (requeueEnv e) (retried x)))).
Proof.
  intros Hnl Hg Hlt. unfold bucketAfter. fold M.
  replace (Retries x + 1 >=? M) with false
    by (symmetry; rewrite Z.geb_leb; apply Z.leb_gt; lia).
  destruct (fails (requeueEnv e)) eqn:Hrq.
  - rewrite (Hnl Hrq). now left.
  - right. apply Get_Put_same.
Qed.

Lemma drainItem_some (e : IterEnv E) (x : Item) (b : bolt.Bucket Entry) (r : R) :
  bucketKey x <> "" ->
  fst (drainItem bp e x (mkWorld (Some b) r))
  = mkWorld (Some (bucketAfter bp e x (errorOf (processItem (repoEnv e) x r)) b))
      (repoAfter (processItem (repoEnv e) x r)).
Proof. intros Hk. exact (drainItem_world bp e x (mkWorld (Some b) r) b eq_refl Hk). Qed.

Lemma drainItems_some (items : list Item) :
  forall (n : nat) (b : bolt.Bucket Entry) (r : R),
    (forall x, In x items -> bucketKey x <> "") ->
    exists b' r', fst (drainItems bp env n items (mkWorld (Some b) r)) = mkWorld (Some b') r'.
Proof.
  induction items as [|x rest IH]; intros n b r Hk; [cbn; eauto|].
  rewrite drainItems_cons. cbn [fst].
  rewrite (drainItem_some (env n) x b r (Hk x (or_introl eq_refl))).
  apply IH. intros x' Hx'. apply Hk. now right.
Qed.

Lemma drainItems_durable (items : list Item) :
  forall (n : nat) (b : bolt.Bucket Entry) (r : R),
    keyOrdered b ->
    NoDup (map bucketKey items) ->
    (forall x, In x items -> bucketKey x <> "" /\ bolt.Get (bucketKey x) b <> None) ->
    (forall j y, (n <= j < n + List.length items)%nat -> bolt.Get (qk j y) b = None) ->
    (forall j j' y y', (n <= j < n + List.length items)%nat ->
                       (n <= j' < n + List.length items)%nat ->
                       j <> j' -> qk j y <> qk j' y') ->
    (forall j, (n <= j)%nat -> noLoss (env j)) ->
    forall k v, bolt.Get k b = Some v ->
    exists b' r',
      fst (drainItems bp env n items (mkWorld (Some b) r)) = mkWorld (Some b') r'
      /\ (bolt.Get k b' = Some v
          \/ exists x, In x items /\ bucketKey x = k
               /\ ((exists err,
                       In (EvProcess x err)
                          (snd (drainItems bp env n items (mkWorld (Some b) r)))
                       /\ (err = None \/ Retries x + 1 >= M))
                   \/ exists j, bolt.Get (qk j (retried x)) b' = Some (qv j x))).
Proof.
  induction items as [|x rest IH];
    intros n b r Hs Hnd Hitems Hfree Hdist Hnl k v Hg.
  - exists b, r. split; [reflexivity | now left].
  - inversion Hnd as [|? ? Hnotin Hnd']; subst.
    destruct (Hitems x (or_introl eq_refl)) as [Hkx Hgx].
    rewrite drainItems_cons. cbn [fst snd].
    pose proof (drainItem_returned bp (env n) x (mkWorld (Some b) r)) as Hev.
    rewrite (drainItem_some (env n) x b r Hkx). cbn [repo] in Hev.
    set (err := errorOf (processItem (repoEnv (env n)) x r)) in *.
    set (r1 := repoAfter (processItem (repoEnv (env n)) x r)).
    set (b1 := bucketAfter bp (env n) x err b).
    set (ev1 := snd (drainItem bp (env n) x (mkWorld (Some b) r))) in *.
    cbn [List.length] in Hfree, Hdist.
    assert (Hq : bolt.Get (qk n (retried x)) b = None) by (apply Hfree; lia).
    (* the hypotheses for the rest of the batch *)
    assert (Hs1 : keyOrdered b1) by now apply bucketAfter_keyOrdered.
    assert (Hitems1 : forall x', In x' rest ->
               bucketKey x' <> "" /\ bolt.Get (bucketKey x') b1 <> None).
    { intros x' Hx'. destruct (Hitems x' (or_intror Hx')) as [Hk' Hg'].
      split; [exact Hk'|]. unfold b1. rewrite bucketAfter_Get_other; [exact Hg'| |].
      - intros Heq. apply Hnotin. rewrite <- Heq. now apply in_map.
      - intros Heq. apply Hg'. rewrite Heq. exact Hq. }
    assert (Hfree1 : forall j y, (S n <= j < S n + List.length rest)%nat ->
                                 bolt.Get (qk j y) b1 = None).
    { intros j y Hj. apply bucketAfter_free; [exact Hs | apply Hfree; lia|].
      apply (Hdist j n y (retried x)); lia. }
    assert (Hdist1 : forall j j' y y', (S n <= j < S n + List.length rest)%nat ->
                                       (S n <= j' < S n + List.length rest)%nat ->
                                       j <> j' -> qk j y <> qk j' y')
      by (intros; apply Hdist; lia).
    assert (Hnl1 : forall j, (S n <= j)%nat -> noLoss (env j)) by (intros; apply Hnl; lia).
    pose proof (IH (S n) b1 r1 Hs1 Hnd' Hitems1 Hfree1 Hdist1 Hnl1) as IHr.
    destruct (drainItems_some rest (S n) b1 r1 (fun x' Hx' => proj1 (Hitems1 x' Hx')))
      as (b' & r' & Eend).
    (* an entry that survives the head iteration *)
    assert (Hkeep : forall k0 v0, bolt.Get k0 b1 = Some v0 ->
              exists b'0 r'0,
                fst (drainItems bp env (S n) rest (mkWorld (Some b1) r1))
                = mkWorld (Some b'0) r'0
                /\ (bolt.Get k0 b'0 = Some v0
                    \/ exists x0, In x0 (x :: rest) /\ bucketKey x0 = k0
                         /\ ((exists err0,
                                 In (EvProcess x0 err0)
                                    (ev1 ++ snd (drainItems bp env (S n) rest
                                                   (mkWorld (Some b1) r1)))
                                 /\ (err0 = None \/ Retries x0 + 1 >= M))
                             \/ exists j, bolt.Get (qk j (retried x0)) b'0
                                          = Some (qv j x0)))).
    { intros k0 v0 Hg0. destruct (IHr k0 v0 Hg0) as (b'0 & r'0 & E0 & [Hl|Hr]).
      - exists b'0, r'0. split; [exact E0 | now left].
      - destruct Hr as (x0 & Hin0 & Hk0 & Hout).
        exists b'0, r'0. split; [exact E0|]. right. exists x0.
        split; [now right|]. split; [exact Hk0|].
        destruct Hout as [(err0 & Hin & Hok)|Hd]; [left|right; exact Hd].
        exists err0. split; [apply in_or_app; now right | exact Hok]. }
    destruct (String.eqb_spec k (bucketKey x)) as [->|Hne].
    + (* the entry under the handle of the head item *)
      assert (Hterm : forall er, err = er -> (er = None \/ Retries x + 1 >= M) ->
                exists b'0 r'0,
                  fst (drainItems bp env (S n) rest (mkWorld (Some b1) r1))
                  = mkWorld (Some b'0) r'0
                  /\ (bolt.Get (bucketKey x) b'0 = Some v
                      \/ exists x0, In x0 (x :: rest) /\ bucketKey x0 = bucketKey x
                           /\ ((exists err0,
                                   In (EvProcess x0 err0)
                                      (ev1 ++ snd (drainItems bp env (S n) rest
                                                     (mkWorld (Some b1) r1)))
                                   /\ (err0 = None \/ Retries x0 + 1 >= M))
                               \/ exists j, bolt.Get (qk j (retried x0)) b'0
                                            = Some (qv j x0)))).
      { intros er Her Hok. exists b', r'. split; [exact Eend|]. right. exists x.
        split; [now left|]. split; [reflexivity|]. left. exists er.
        split; [apply in_or_app; left; now rewrite <- Her | exact Hok]. }
      destruct err as [er|] eqn:Eerr; [|apply (Hterm None eq_refl); now left].
      destruct (Z_lt_ge_dec (Retries x + 1) M) as [Hlt|Hge];
        [|apply (Hterm (Some er) eq_refl); now right].
      destruct (bucketAfter_requeued (env n) x er b v (Hnl n (le_n n)) Hg Hlt)
        as [Hstay|Hnew].
      * apply Hkeep. exact Hstay.
      * destruct (IHr _ _ Hnew) as (b'0 & r'0 & E0 & [Hl|Hr]).
        -- exists b'0, r'0. split; [exact E0|]. right. exists x.
           split; [now left|]. split; [reflexivity|]. right. exists n. exact Hl.
        -- destruct Hr as (x0 & Hin0 & Hk0 & _).
           destruct (Hitems x0 (or_intror Hin0)) as [_ Hg0].
           exfalso. apply Hg0. rewrite Hk0. exact Hq.
    + (* any other entry *)
      apply Hkeep. unfold b1. rewrite bucketAfter_Get_other; [exact Hg | exact Hne|].
      intros Heq. rewrite Heq in Hg. unfold qk in Hq. congruence.
Qed.

End Loop.

End Durability.

Section TickDurability.
Import buffer services run order.
Context {R E : Type} `{Repositories R E} `{Json}.
Local Open Scope list_scope.

Lemma scan_length (l : nat) (b : bolt.Bucket Entry) :
  (List.length (scan l b) <= List.length b)%nat.
Proof.
  revert l. induction b as [|[k v] b IH]; intros l; cbn [scan List.length]; [lia|].
  destruct l as [|l]; [cbn; lia|].
  destruct v; cbn [List.length]; [specialize (IH l) | specialize (IH (S l))]; lia.
Qed.

Lemma sameRecord_refl (i : Item) : sameRecord i i.
Proof. repeat split. Qed.

Lemma sameRecord_requeued (e : Env) (x : Item) :
  ID x <> "" -> 1 <= Priority x <= 5 ->
  sameRecord x (set_bucketKey "" (normalize e (refreshed e (retried x)))).
Proof.
  intros Hid Hp.
  destruct (requeued_content e x) as (_ & Hd & He & Ho & Hu & _ & Hi).
  cbv zeta in *. unfold sameRecord.
  change (ID (set_bucketKey "" ?i)) with (ID i).
  change (UserID (set_bucketKey "" ?i)) with (UserID i).
  change (Entity (set_bucketKey "" ?i)) with (Entity i).
  change (Operation (set_bucketKey "" ?i)) with (Operation i).
  change (Data (set_bucketKey "" ?i)) with (Data i).
  change (Priority (set_bucketKey "" ?i)) with (Priority i).
  rewrite (Hi Hid), Hd, He, Ho, Hu, normalize_Priority.
  change (Priority (refreshed e (retried x))) with (Priority x).
  replace ((Priority x <=? 0) || (5 <? Priority x)) with false
    by (symmetry; apply orb_false_iff; split; [apply Z.leb_gt | apply Z.ltb_ge]; lia).
  repeat split.
Qed.

Lemma Drain_durable bp (te : TickEnv E) (b : bolt.Bucket Entry) (r : R)
  (k : string) (i : Item) :
  wellFiled b -> identified b ->
  (forall j, noLoss (iter te j)) ->
  freshClock te (List.length b) b ->
  bolt.Get k b = Some (Stored i) ->
  held (store (world (Drain bp te (mkWorld (Some b) r)))) i
  \/ exists err,
       In (EvProcess (set_bucketKey k i) err) (events (Drain bp te (mkWorld (Some b) r)))
       /\ (err = None \/ Retries i + 1 >= MaxRetries (cfg bp)).
Proof.
  intros [Hs Hf] Hi Hnl (Hck & Hdist & Hst) Hg.
  assert (Hstay : held (Some b) i) by (exists k, i; split; [exact Hg | apply sameRecord_refl]).
  unfold Drain, world, events. cbn [store].
  destruct (match monitor bp with
            | Some status => negb (monitor.IsOnline status)
            | None => false
            end); [now left|].
  unfold GetBatch. destruct (viewFails te); [now left|].
  set (lim := Z.to_nat (if BatchSize (cfg bp) <=? 0 then 50 else BatchSize (cfg bp))).
  pose proof (scan_length lim b) as Hlen.
  rewrite Forall_forall in Hf. unfold identified in Hi. rewrite Forall_forall in Hi.
  assert (Hitems : forall x, In x (scan lim b) ->
             bucketKey x <> "" /\ bolt.Get (bucketKey x) b <> None).
  { intros x Hx. destruct (scan_In _ _ _ Hx) as (k' & i' & Hin & ->).
    cbn [bucketKey set_bucketKey]. split; [exact (proj1 (Hi _ Hin))|].
    now rewrite (In_Get _ _ _ Hs Hin). }
  assert (Hfree : forall j y, (0 <= j < 0 + List.length (scan lim b))%nat ->
             bolt.Get (requeueKey (requeueEnv (iter te j)) y) b = None).
  { intros j y Hj.
    destruct (bolt.Get (requeueKey (requeueEnv (iter te j)) y) b) as [v|] eqn:Eg;
      [|reflexivity].
    exfalso. apply Get_In in Eg.
    destruct (Hf _ Eg) as (i0 & Hv & Hk0 & Hn0). cbn in Hv, Hk0. subst v.
    apply (Hst j _ i0 ltac:(lia) Eg). symmetry.
    eapply requeueKey_stored_time; [apply Hck; lia | exact Hn0 | exact Hk0]. }
  assert (Hdist' : forall j j' y y',
             (0 <= j < 0 + List.length (scan lim b))%nat ->
             (0 <= j' < 0 + List.length (scan lim b))%nat -> j <> j' ->
             requeueKey (requeueEnv (iter te j)) y
             <> requeueKey (requeueEnv (iter te j')) y').
  { intros j j' y y' Hj Hj' Hne Heq.
    apply (Hdist j j' ltac:(lia) ltac:(lia) Hne).
    eapply requeueKey_same_time; [apply Hck; lia | apply Hck; lia | exact Heq]. }
  destruct (drainItems_durable bp (iter te) (scan lim b) 0 b r Hs (scan_NoDup lim b Hs)
              Hitems Hfree Hdist' (fun j _ => Hnl j) k (Stored i) Hg)
    as (b' & r' & Eend & Hout).
  destruct (drainItems bp (iter te) 0 (scan lim b) (mkWorld (Some b) r)) as [w' evs].
  cbn [fst snd] in *. subst w'. cbn [store].
  destruct Hout as [Hl|(x & Hx & Hkx & Hout)].
  - left. exists k, i. split; [exact Hl | apply sameRecord_refl].
  - destruct (scan_In _ _ _ Hx) as (k' & i' & Hin & ->).
    cbn [bucketKey set_bucketKey] in Hkx. subst k'.
    rewrite (In_Get _ _ _ Hs Hin) in Hg. injection Hg as ->.
    destruct Hout as [(err & Hin' & Hok)|(j & Hd)].
    + right. exists err. split; [exact Hin' | exact Hok].
    + left. eexists. eexists. split; [exact Hd|].
      destruct (Hf _ Hin) as (i0 & Hv & _ & [Hp _]). cbn in Hv. injection Hv as <-.
      apply (sameRecord_requeued (requeueEnv (iter te j)) (set_bucketKey k i));
        [exact (proj2 (Hi _ Hin) i eq_refl) | exact Hp].
Qed.

Lemma Enqueue_held (e : Env) (item : Item) (b : bolt.Bucket Entry) :
  fails e = false ->
  snd (Enqueue e item (Some b)) = None
  /\ held (fst (Enqueue e item (Some b))) (normalize e item).
Proof.
  intros Hf. rewrite (Enqueue_commits e item b Hf). cbn [fst snd].
  split; [reflexivity|].
  exists (buildKey (normalize e item)), (set_bucketKey "" (normalize e item)).
  split; [apply Get_Put_same | repeat split].
Qed.

End TickDurability.


(** Why the clock matters.  Two records for the task t1, a create and an
    update, fail in one tick; were both requeues to read the same time,
    both would be filed under one key, and the second would overwrite the
    first. *)
Example equal_clock_readings_collide :
  let w0 := services.mkWorld
              (examples.enqueueAt 101 examples.taskUpdate1
                 (examples.enqueueAt 100 examples.taskCreate1 examples.emptyStore))
              examples.emptyDB in
  let out := services.Drain (services.mkProcessor None examples.cfg3)
               (examples.frozen (examples.pgOff 5) 1000) w0 in
  map buffer.Operation (run.records (services.store w0)) = ["create"; "update"]
  /\ map buffer.Operation (run.records (services.store (run.world out))) = ["update"]
  /\ run.keys (services.store (run.world out)) = ["4_00000000000000001000_t1"].
Proof. vm_compute. repeat split. Qed.


(** ** The theorems at concrete inputs *)

Ltac in_range := vm_compute; split; (discriminate || reflexivity).

Lemma twoRecords_fromEnqueues : order.fromEnqueues examples.twoRecords.
Proof.
  unfold examples.twoRecords.
  apply order.fe_Enqueue; [apply order.fe_Enqueue; [apply order.fe_Open | in_range | now left]
                          | in_range | now left].
Qed.


(** C4 (amended) at a store of two records. *)
Lemma profile_drains_before_task_witness :
  exists l1 l2 l3,
    run.processed
      (run.events
         (services.Drain (services.mkProcessor (Some examples.allUp) examples.cfg3)
            (examples.calm (examples.pgUp 5) 1000)
            (services.mkWorld examples.twoRecords examples.emptyDB)))
    = (l1 ++ buffer.set_bucketKey "3_00000000000000000200_uuid-1" examples.storedProfile1
          :: l2 ++ examples.batchTask1 :: l3)%list.
Proof.
  refine (proj1 (profile_drains_before_task examples.twoRecords
                   (services.mkProcessor (Some examples.allUp) examples.cfg3)
                   (examples.calm (examples.pgUp 5) 1000) examples.emptyDB
                   "3_00000000000000000200_uuid-1" examples.storedProfile1
                   examples.batchTask1 twoRecords_fromEnqueues _ _ _ _ _ _)).
  - reflexivity.
  - reflexivity.
  - vm_compute. reflexivity.
  - reflexivity.
  - reflexivity.
  - vm_compute. right. left. reflexivity.
Defined.




(** C8 (amended) at a store of one record: the old handle keeps its entry. *)
Lemma Requeue_is_Enqueue_refreshed_witness :
  run.at_key "4_00000000000000000100_t1"
    (fst (buffer.Requeue (buffer.mkEnv 200 "uuid-2" false) examples.batchTask1
            (Some examples.oneTask)))
  = Some (buffer.Stored examples.storedTask1).
Proof.
  refine (proj1 (proj2 (proj2
            (Requeue_is_Enqueue_refreshed (buffer.mkEnv 200 "uuid-2" false)
               examples.batchTask1 examples.oneTask _ eq_refl)))
            "4_00000000000000000100_t1" _).
  - repeat constructor.
  - vm_compute. discriminate.
Defined.

Lemma processItem_unreachable (e : postgres.Env) (x : buffer.Item) (db : postgres.DB) :
  postgres.up e = false -> run.errorOf (services.processItem e x db) <> None.
Proof.
  intros Hup. unfold run.errorOf, services.processItem.
  destruct (buffer.Entity x =? buffer.EntityProfile)%string.
  { destruct (unmarshalUser (buffer.Data x)); [|discriminate].
    cbn. unfold postgres.Upsert. rewrite Hup. discriminate. }
  destruct (buffer.Entity x =? buffer.EntityTask)%string; [|discriminate].
  destruct (unmarshalTask (buffer.Data x)); [|discriminate].
  destruct (buffer.Operation x =? buffer.OperationCreate)%string.
  { cbn. unfold postgres.Create. rewrite Hup. discriminate. }
  destruct (buffer.Operation x =? buffer.OperationUpdate)%string.
  { cbn. unfold postgres.Update. rewrite Hup. discriminate. }
  destruct (buffer.Operation x =? buffer.OperationDelete)%string.
  { cbn. unfold postgres.Delete. rewrite Hup. discriminate. }
  discriminate.
Qed.


Lemma oneTask_wellFiled : order.wellFiled examples.oneTask.
Proof.
  split; [repeat constructor|].
  repeat constructor. exists examples.storedTask1.
  split; [reflexivity|]. split; [vm_compute; reflexivity|]. split; in_range.
Qed.

Lemma oneTask_identified : run.identified examples.oneTask.
Proof.
  repeat constructor; cbn; try discriminate. intros i [= <-]. discriminate.
Qed.


(** C10 at a store of one record. *)
Lemma nil_monitor_behaves_online_witness :
  run.processed
    (run.events
       (services.BufferOperation (services.mkProcessor None examples.cfg3)
          (examples.pgUp 5) (buffer.mkEnv 300 "uuid-4" false) examples.taskCreate1
          (services.mkWorld (Some examples.oneTask) examples.emptyDB)))
  = [examples.taskCreate1].
Proof.
  exact (proj1 (proj2 (proj2
           (nil_monitor_behaves_online examples.cfg3
              (examples.calm (examples.pgUp 5) 1000) (examples.pgUp 5)
              (buffer.mkEnv 300 "uuid-4" false) examples.taskCreate1
              (services.mkWorld (Some examples.oneTask) examples.emptyDB))
           examples.oneTask eq_refl))).
Defined.

Example fmt_d_3 : fmt.d 3 = "3".
Proof. reflexivity. Qed.

Example fmt_d020_now :
  fmt.d020 1700000000000000000 = "01700000000000000000".
Proof. vm_compute. reflexivity. Qed.

Example fmt_d020_neg : fmt.d020 (-1) = "-0000000000000000001".
Proof. vm_compute. reflexivity. Qed.

Example fmt_d_207 : fmt.d 207 = "207" /\ fmt.d (-45) = "-45" /\ fmt.d 0 = "0".
Proof. vm_compute. auto. Qed.

(* ------------------------------------------------------------------ *)
(** * Further properties of the store *)

(** ** Listings, sizes and lengths *)

Section Listing.
Import buffer order run.
Local Open Scope list_scope.

Lemma scan_listing (n : nat) (b : bolt.Bucket Entry) :
  scan n b = firstn n (listing b).
Proof.
  revert n. induction b as [|[k v] b IH]; intros n; cbn [scan listing].
  - now destruct n.
  - destruct n as [|n]; [reflexivity|].
    destruct v as [i|]; cbn [firstn]; [now rewrite IH | apply IH].
Qed.

Lemma listing_length (b : bolt.Bucket Entry) :
  (List.length (listing b) + unreadable b = List.length b)%nat.
Proof.
  induction b as [|[k [i|]] b IH]; cbn [listing unreadable List.length]; lia.
Qed.

Lemma records_listing (b : bolt.Bucket Entry) : records (Some b) = listing b.
Proof.
  unfold records. rewrite scan_listing. apply firstn_all2.
  pose proof (listing_length b). lia.
Qed.

Lemma listing_app (a b : bolt.Bucket Entry) : listing (a ++ b) = listing a ++ listing b.
Proof.
  induction a as [|[k [i|]] a IH]; cbn [listing app]; [reflexivity| |exact IH].
  now rewrite IH.
Qed.

Lemma unreadable_app (a b : bolt.Bucket Entry) :
  unreadable (a ++ b) = (unreadable a + unreadable b)%nat.
Proof.
  induction a as [|[k [i|]] a IH]; cbn [unreadable app]; lia.
Qed.

Lemma listing_In (b : bolt.Bucket Entry) (x : Item) :
  In x (listing b) <-> exists k i, In (k, Stored i) b /\ x = set_bucketKey k i.
Proof.
  induction b as [|[k [i|]] b IH]; cbn [listing In].
  - split; [tauto | intros (? & ? & [] & _)].
  - rewrite IH. split.
    + intros [<-|(k' & i' & Hin & ->)]; [exists k, i | exists k', i']; auto.
    + intros (k' & i' & [[= -> ->]|Hin] & ->); [now left | right; eauto].
  - rewrite IH. split.
    + intros (k' & i' & Hin & ->). exists k', i'. auto.
    + intros (k' & i' & [[=]|Hin] & ->). eauto.
Qed.

End Listing.

Section BucketLength.
Context {V : Type}.
Implicit Types (b : bolt.Bucket V) (k : string) (v : V).

Lemma Get_None_ordered k k' v' b :
  order.keyOrdered ((k', v') :: b) -> String.compare k k' = Lt ->
  bolt.Get k ((k', v') :: b) = None.
Proof.
  intros Hs Hlt. inversion Hs as [|? ? Hs' Hall]; subst.
  apply Get_None_above. constructor; [exact Hlt|].
  eapply Forall_impl; [|exact Hall].
  intros y Hy. eapply compare_lt_trans; [exact Hlt | exact Hy].
Qed.

Lemma Put_length k v b :
  order.keyOrdered b ->
  List.length (bolt.Put k v b)
  = match bolt.Get k b with Some _ => List.length b | None => S (List.length b) end.
Proof.
  induction b as [|[k' v'] b IH]; intros Hs; [reflexivity|].
  cbn [bolt.Put]. destruct (String.compare k k') eqn:E.
  - apply compare_eq in E. subst k'. cbn [bolt.Get]. now rewrite String.eqb_refl.
  - now rewrite (Get_None_ordered k k' v' b Hs E).
  - cbn [bolt.Get List.length]. rewrite compare_eqb, E.
    inversion Hs as [|? ? Hs' Hall]; subst. rewrite (IH Hs').
    now destruct (bolt.Get k b).
Qed.

Lemma Delete_length k b :
  List.length (bolt.Delete k b)
  = match bolt.Get k b with Some _ => Nat.pred (List.length b) | None => List.length b end.
Proof.
  induction b as [|[k' v'] b IH]; [reflexivity|].
  cbn [bolt.Delete bolt.Get]. destruct (String.eqb k k'); [reflexivity|].
  cbn [List.length]. rewrite IH. destruct (bolt.Get k b) eqn:G; [|reflexivity].
  destruct b; [discriminate | reflexivity].
Qed.

Lemma Delete_absent k b : bolt.Get k b = None -> bolt.Delete k b = b.
Proof.
  induction b as [|[k' v'] b IH]; [reflexivity|].
  cbn [bolt.Delete bolt.Get]. destruct (String.eqb k k'); [discriminate|].
  intros G. now rewrite IH.
Qed.

Lemma Put_Put_same k v v0 b : bolt.Put k v (bolt.Put k v0 b) = bolt.Put k v b.
Proof.
  induction b as [|[k' v'] b IH]; cbn [bolt.Put].
  - now rewrite compare_refl.
  - destruct (String.compare k k') eqn:E; cbn [bolt.Put].
    + now rewrite compare_refl.
    + now rewrite compare_refl.
    + now rewrite E, IH.
Qed.

Lemma Delete_Put_fresh k v b :
  bolt.Get k b = None -> bolt.Delete k (bolt.Put k v b) = b.
Proof.
  induction b as [|[k' v'] b IH]; cbn [bolt.Put bolt.Get bolt.Delete].
  - now rewrite String.eqb_refl.
  - rewrite compare_eqb. destruct (String.compare k k') eqn:E; try discriminate; intros G.
    + cbn [bolt.Delete]. now rewrite String.eqb_refl.
    + cbn [bolt.Delete]. rewrite compare_eqb, E. now rewrite IH.
Qed.

End BucketLength.

(** ** What [normalize] fills in *)

Section Normalize.
Import buffer order.

Lemma normalize_rest (e : Env) (i : Item) :
  UserID (normalize e i) = UserID i /\ Operation (normalize e i) = Operation i
  /\ Data (normalize e i) = Data i /\ Retries (normalize e i) = Retries i
  /\ bucketKey (normalize e i) = bucketKey i.
Proof.
  unfold normalize.
  destruct (ID i =? "")%string; cbn [Priority set_ID];
    destruct ((_ <=? 0) || (5 <? _)); cbn [Timestamp set_ID set_Priority];
    destruct (IsZero (Timestamp i)); repeat split.
Qed.

Lemma normalize_fixpoint (e : Env) (i : Item) :
  ID i <> "" -> 1 <= Priority i <= 5 -> IsZero (Timestamp i) = false ->
  normalize e i = i.
Proof.
  intros Hid Hp Ht. unfold normalize.
  apply String.eqb_neq in Hid. rewrite Hid.
  replace ((Priority i <=? 0) || (5 <? Priority i)) with false
    by (symmetry; apply orb_false_iff; split; [apply Z.leb_gt | apply Z.ltb_ge]; lia).
  now rewrite Ht.
Qed.

Lemma normalize_Priority_range (e : Env) (i : Item) : 1 <= Priority (normalize e i) <= 5.
Proof.
  rewrite normalize_Priority.
  destruct ((_ <=? 0) || (5 <? _)) eqn:Ep; [lia|].
  apply orb_false_iff in Ep as [Ep1 Ep2].
  apply Z.leb_gt in Ep1. apply Z.ltb_ge in Ep2. lia.
Qed.

End Normalize.

(** X1.  [normalize] fills in what is missing and nothing else.  An ID
    that is not empty, a priority in 1..5 and a timestamp that is not the
    zero time are kept, and so are all the other fields; afterwards the
    item has an ID (the generated one is never empty), a priority in
    1..5 and a timestamp, so that normalizing it again, at any later time,
    changes nothing. *)
Theorem normalize_fills_only_missing (e e' : buffer.Env) (i : buffer.Item) :
  buffer.uuid e <> "" ->
  let n := buffer.normalize e i in
  (buffer.ID i <> "" -> buffer.ID n = buffer.ID i)
  /\ (1 <= buffer.Priority i <= 5 -> buffer.Priority n = buffer.Priority i)
  /\ (IsZero (buffer.Timestamp i) = false -> buffer.Timestamp n = buffer.Timestamp i)
  /\ (buffer.UserID n = buffer.UserID i /\ buffer.Entity n = buffer.Entity i
      /\ buffer.Operation n = buffer.Operation i /\ buffer.Data n = buffer.Data i
      /\ buffer.Retries n = buffer.Retries i)
  /\ (buffer.ID n <> "" /\ 1 <= buffer.Priority n <= 5
      /\ IsZero (buffer.Timestamp n) = false)
  /\ buffer.normalize e' n = n.
Proof.
  intros Hu n.
  assert (Hid : buffer.ID n <> "").
  { subst n. rewrite normalize_ID.
    destruct (String.eqb_spec (buffer.ID i) ""); assumption. }
  assert (Hp : 1 <= buffer.Priority n <= 5) by apply normalize_Priority_range.
  assert (Ht : IsZero (buffer.Timestamp n) = false).
  { subst n. rewrite normalize_Timestamp.
    destruct (IsZero (buffer.Timestamp i)) eqn:E; [reflexivity | exact E]. }
  repeat apply conj; try assumption.
  - intros Hi. subst n. rewrite normalize_ID.
    apply String.eqb_neq in Hi. now rewrite Hi.
  - intros Hpi. subst n. rewrite normalize_Priority.
    replace ((buffer.Priority i <=? 0) || (5 <? buffer.Priority i)) with false
      by (symmetry; apply orb_false_iff; split; [apply Z.leb_gt | apply Z.ltb_ge]; lia).
    reflexivity.
  - intros Hti. subst n. rewrite normalize_Timestamp. now rewrite Hti.
  - apply normalize_rest.
  - apply normalize_Entity.
  - apply normalize_rest.
  - apply normalize_rest.
  - apply normalize_rest.
  - apply Hp.
  - apply Hp.
  - now apply normalize_fixpoint.
Qed.

(** X1 at the profile record of the examples, which has no ID. *)
Lemma normalize_fills_only_missing_witness :
  buffer.normalize (buffer.mkEnv 900 "uuid-9" false)
    (buffer.normalize (buffer.mkEnv 200 "uuid-1" false) examples.profileUpdate1)
  = buffer.normalize (buffer.mkEnv 200 "uuid-1" false) examples.profileUpdate1.
Proof.
  refine (proj2 (proj2 (proj2 (proj2 (proj2
           (normalize_fills_only_missing (buffer.mkEnv 200 "uuid-1" false)
              (buffer.mkEnv 900 "uuid-9" false) examples.profileUpdate1 _)))))).
  cbn. discriminate.
Defined.

(** X2.  Keys identify the triple.  For items with a priority in 1..5
    and a non-negative [UnixNano], two keys built by [buildKey] are equal
    exactly when priority, timestamp and ID agree, so only such items can
    overwrite each other in the bucket; and a key is 23 bytes longer than
    the ID it ends with. *)
Theorem buildKey_injective (a b : buffer.Item) :
  order.normalized a -> order.normalized b ->
  (buffer.buildKey a = buffer.buildKey b
   <-> buffer.Priority a = buffer.Priority b
       /\ UnixNano (buffer.Timestamp a) = UnixNano (buffer.Timestamp b)
       /\ buffer.ID a = buffer.ID b)
  /\ String.length (buffer.buildKey a) = (23 + String.length (buffer.ID a))%nat.
Proof.
  intros Ha Hb. split.
  - split.
    + intros Hk. apply compare_eq in Hk. rewrite buildKey_compare in Hk by assumption.
      unfold order.tupleCompare in Hk.
      destruct (Z.compare_spec (buffer.Priority a) (buffer.Priority b)); try discriminate.
      destruct (Z.compare_spec (UnixNano (buffer.Timestamp a))
                  (UnixNano (buffer.Timestamp b))); try discriminate.
      apply compare_eq in Hk. auto.
    + intros (Hp & Ht & Hi).
      rewrite (buildKey_normalized a Ha), (buildKey_normalized b Hb).
      now rewrite Hp, Ht, Hi.
  - rewrite (buildKey_normalized a Ha).
    rewrite !length_app, !fixed_length. cbn [String.length]. lia.
Qed.

(** X2 at the task record of the examples and its copy with another
    owner. *)
Lemma buildKey_injective_witness :
  buffer.buildKey examples.storedTask1
  = buffer.buildKey
      (buffer.mkItem "t1" "u2" buffer.EntityTask buffer.OperationDelete "{}" 4 2
         (TimeAt 100) "").
Proof.
  refine (proj2 (proj1 (buildKey_injective examples.storedTask1
            (buffer.mkItem "t1" "u2" buffer.EntityTask buffer.OperationDelete "{}" 4 2
               (TimeAt 100) "") _ _)) _).
  - split; in_range.
  - split; in_range.
  - repeat split.
Defined.

(** X3.  A batch is the head of the listing.  [GetBatch] returns the
    first [limit] readable records in cursor order (the first 50 when
    [limit] is not positive): never more than the limit, never more than
    [Size] reports, the whole listing when the limit covers it, and a
    batch read with a larger limit only adds records behind those of the
    smaller one. *)
Theorem GetBatch_first_of_listing (b : bolt.Bucket buffer.Entry) (limit : Z) :
  let n := if limit <=? 0 then 50 else limit in
  let batch := fst (buffer.GetBatch false limit (Some b)) in
  batch = firstn (Z.to_nat n) (run.listing b)
  /\ Z.of_nat (List.length batch) <= n
  /\ Z.of_nat (List.length batch) <= fst (buffer.Size false (Some b))
  /\ (Z.of_nat (List.length (run.listing b)) <= n -> batch = run.listing b)
  /\ (forall limit', 0 < limit <= limit' ->
        exists rest, fst (buffer.GetBatch false limit' (Some b)) = (batch ++ rest)%list).
Proof.
  intros n batch.
  assert (Hn : 0 < n) by (subst n; destruct (Z.leb_spec limit 0); lia).
  assert (Hb : batch = firstn (Z.to_nat n) (run.listing b)).
  { subst batch n. cbn [buffer.GetBatch fst]. apply scan_listing. }
  repeat apply conj.
  - exact Hb.
  - rewrite Hb, length_firstn. lia.
  - rewrite Hb, length_firstn. cbn [buffer.Size fst]. unfold bolt.KeyN.
    pose proof (listing_length b). lia.
  - intros Hall. rewrite Hb. apply firstn_all2. lia.
  - intros limit' Hl. exists (skipn (Z.to_nat n) (firstn (Z.to_nat limit') (run.listing b))).
    rewrite Hb. cbn [buffer.GetBatch fst]. rewrite scan_listing.
    replace (if limit' <=? 0 then 50 else limit') with limit'
      by (destruct (Z.leb_spec limit' 0); lia).
    assert (En : n = limit) by (subst n; destruct (Z.leb_spec limit 0); lia).
    rewrite En.
    rewrite <- (firstn_skipn (Z.to_nat limit) (firstn (Z.to_nat limit') (run.listing b))) at 1.
    f_equal. rewrite firstn_firstn. f_equal. lia.
Qed.

(** X4.  [Size] counts keys, not records.  It is the number of readable
    records plus the number of entries that cannot be decoded, which no
    batch ever returns.  A committed [Enqueue] adds one exactly when no
    entry is filed under the item's key, and a committed [Remove] by
    handle takes one away exactly when the handle is in the bucket. *)
Theorem Size_counts_every_key (b : bolt.Bucket buffer.Entry) :
  order.keyOrdered b ->
  fst (buffer.Size false (Some b))
  = Z.of_nat (List.length (run.listing b)) + Z.of_nat (run.unreadable b)
  /\ (forall e item, buffer.fails e = false ->
        fst (buffer.Size false (fst (buffer.Enqueue e item (Some b))))
        = fst (buffer.Size false (Some b))
          + match bolt.Get (buffer.buildKey (buffer.normalize e item)) b with
            | Some _ => 0
            | None => 1
            end)
  /\ (forall item, buffer.bucketKey item <> "" ->
        fst (buffer.Size false (fst (buffer.Remove false item (Some b))))
        = fst (buffer.Size false (Some b))
          - match bolt.Get (buffer.bucketKey item) b with
            | Some _ => 1
            | None => 0
            end).
Proof.
  intros Hs. repeat apply conj.
  - cbn [buffer.Size fst]. unfold bolt.KeyN. pose proof (listing_length b). lia.
  - intros e item Hf. rewrite (Enqueue_commits e item b Hf).
    cbn [buffer.Size fst]. unfold bolt.KeyN. rewrite (Put_length _ _ _ Hs).
    destruct bolt.Get; lia.
  - intros item Hk. rewrite (Remove_by_handle item b Hk).
    cbn [buffer.Size fst]. unfold bolt.KeyN. rewrite Delete_length.
    destruct (bolt.Get (buffer.bucketKey item) b) eqn:G; [|lia].
    destruct b; [discriminate | cbn [List.length Nat.pred]; lia].
Qed.

(** X4 at the bucket with one task record: [Size] reports 1. *)
Lemma Size_counts_every_key_witness :
  fst (buffer.Size false (Some examples.oneTask))
  = Z.of_nat (List.length (run.listing examples.oneTask))
    + Z.of_nat (run.unreadable examples.oneTask).
Proof.
  exact (proj1 (Size_counts_every_key examples.oneTask (proj1 oneTask_wellFiled))).
Defined.

(** X5.  Removing what is not there succeeds.  [Remove] returns nil and
    leaves the bucket as it is when the handle of the item is not a key
    of the bucket, when the item has no handle and no readable record
    carries its ID, and (without opening a transaction at all) when the
    item has neither a handle nor an ID. *)
Theorem Remove_of_missing_is_success (b : bolt.Bucket buffer.Entry) (item : buffer.Item) :
  (buffer.bucketKey item <> "" -> bolt.Get (buffer.bucketKey item) b = None ->
   buffer.Remove false item (Some b) = (Some b, None))
  /\ (buffer.bucketKey item = "" ->
      (forall x, In x (run.listing b) -> buffer.ID x <> buffer.ID item) ->
      buffer.Remove false item (Some b) = (Some b, None))
  /\ (buffer.bucketKey item = "" -> buffer.ID item = "" ->
      forall txFails, buffer.Remove txFails item (Some b) = (Some b, None)).
Proof.
  repeat apply conj.
  - intros Hk Hg. rewrite (Remove_by_handle item b Hk). now rewrite Delete_absent.
  - intros Hk Hno. unfold buffer.Remove, buffer.deleteByID, bolt.Update. rewrite Hk.
    cbn [String.length Nat.eqb].
    destruct (buffer.ID item =? "")%string; [reflexivity|].
    f_equal. f_equal.
    induction b as [|[k [i|]] b IH]; cbn [buffer.deleteFirstByID]; [reflexivity| |].
    + destruct (String.eqb_spec (buffer.ID i) (buffer.ID item)) as [Heq|Hne].
      * exfalso. apply (Hno (buffer.set_bucketKey k i)); [now left | exact Heq].
      * f_equal. apply IH. intros x Hx. apply Hno. now right.
    + f_equal. apply IH. exact Hno.
  - intros Hk Hid txFails. unfold buffer.Remove, buffer.deleteByID. rewrite Hk, Hid.
    reflexivity.
Qed.

(** X6.  Removing by ID.  [Remove] of an item that has an ID but no
    handle deletes the first readable record, in cursor order, that
    carries this ID, and nothing else: later records with the same ID and
    the entries that cannot be decoded stay. *)
Theorem Remove_without_handle_deletes_first
  (b : bolt.Bucket buffer.Entry) (item x : buffer.Item) (l1 l2 : list buffer.Item) :
  buffer.bucketKey item = "" -> buffer.ID item <> "" ->
  run.records (Some b) = (l1 ++ x :: l2)%list ->
  buffer.ID x = buffer.ID item ->
  (forall y, In y l1 -> buffer.ID y <> buffer.ID item) ->
  snd (buffer.Remove false item (Some b)) = None
  /\ run.records (fst (buffer.Remove false item (Some b))) = (l1 ++ l2)%list
  /\ fst (buffer.Size false (fst (buffer.Remove false item (Some b))))
     = fst (buffer.Size false (Some b)) - 1.
Proof.
  intros Hk Hid Hl Hx Hl1.
  unfold buffer.Remove, buffer.deleteByID, bolt.Update. rewrite Hk.
  cbn [String.length Nat.eqb].
  apply String.eqb_neq in Hid. rewrite Hid. cbn [fst snd].
  split; [reflexivity|].
  rewrite records_listing in *. cbn [buffer.Size fst]. unfold bolt.KeyN.
  revert l1 Hl Hl1.
  induction b as [|[k [i|]] b IH]; intros l1 Hl Hl1; cbn [run.listing] in Hl.
  - destruct l1; discriminate.
  - cbn [buffer.deleteFirstByID]. destruct l1 as [|y l1]; cbn [app] in Hl.
    + injection Hl as <- Hl. cbn [buffer.ID buffer.set_bucketKey] in Hx.
      apply String.eqb_eq in Hx. rewrite Hx.
      split; [exact Hl | cbn [List.length]; lia].
    + injection Hl as <- Hl.
      assert (Hne : buffer.ID i <> buffer.ID item)
        by (apply (Hl1 (buffer.set_bucketKey k i)); now left).
      apply String.eqb_neq in Hne. rewrite Hne.
      destruct (IH l1 Hl (fun y Hy => Hl1 y (or_intror Hy))) as [IH1 IH2].
      cbn [run.listing app List.length]. split; [now rewrite IH1 | lia].
  - cbn [buffer.deleteFirstByID run.listing List.length].
    destruct (IH l1 Hl Hl1) as [IH1 IH2]. split; [exact IH1 | lia].
Qed.

(** X6 at the two records of the examples, removing the profile record
    by its ID. *)
Lemma Remove_without_handle_deletes_first_witness :
  run.records
    (fst (buffer.Remove false
            (buffer.mkItem "uuid-1" "" "" "" "" 0 0 TimeZero "") examples.twoRecords))
  = ([] ++ [examples.batchTask1])%list.
Proof.
  refine (proj1 (proj2
           (Remove_without_handle_deletes_first
              [("3_00000000000000000200_uuid-1", buffer.Stored examples.storedProfile1);
               ("4_00000000000000000100_t1", buffer.Stored examples.storedTask1)]
              (buffer.mkItem "uuid-1" "" "" "" "" 0 0 TimeZero "")
              (buffer.set_bucketKey "3_00000000000000000200_uuid-1" examples.storedProfile1)
              [] [examples.batchTask1] eq_refl _ eq_refl eq_refl _))).
  - discriminate.
  - intros y [].
Defined.

(** ** Filing, filing again, and taking back *)

Section Refile.
Import buffer order run.
Local Open Scope list_scope.

Lemma Put_In_same {V : Type} (k : string) (v : V) (b : bolt.Bucket V) :
  In (k, v) (bolt.Put k v b).
Proof. apply Get_In, Get_Put_same. Qed.

Lemma Put_fresh_split {V : Type} (k : string) (v : V) (b : bolt.Bucket V) :
  keyOrdered b -> bolt.Get k b = None ->
  exists l1 l2,
    b = l1 ++ l2 /\ bolt.Put k v b = l1 ++ (k, v) :: l2
    /\ Forall (fun y => String.compare (fst y) k = Lt) l1
    /\ Forall (fun y => String.compare k (fst y) = Lt) l2.
Proof.
  induction b as [|[k' v'] b IH]; intros Hs Hg.
  - exists [], []. repeat split; constructor.
  - cbn [bolt.Get] in Hg. rewrite compare_eqb in Hg. cbn [bolt.Put].
    inversion Hs as [|? ? Hs' Hall]; subst.
    destruct (String.compare k k') eqn:E; [discriminate| |].
    + exists [], ((k', v') :: b). repeat split; [constructor|].
      constructor; [exact E|].
      eapply Forall_impl; [|exact Hall].
      intros y Hy. eapply compare_lt_trans; [exact E | exact Hy].
    + destruct (IH Hs' Hg) as (l1 & l2 & -> & -> & H1 & H2).
      exists ((k', v') :: l1), l2. repeat split; [|exact H2].
      constructor; [|exact H1]. now apply compare_gt_lt in E.
Qed.

Lemma filed_In (b : bolt.Bucket Entry) (k : string) (v : Entry) :
  Forall filed b -> In (k, v) b ->
  exists i, v = Stored i /\ k = buildKey i /\ normalized i.
Proof.
  intros Hf Hin. rewrite Forall_forall in Hf. exact (Hf _ Hin).
Qed.

End Refile.

(** X7.  Filing the same item twice files it once.  An item that carries
    its ID and its timestamp is filed under the same key whenever it is
    enqueued, so a second committed [Enqueue] of it, at any time, leaves
    the bucket as the first one left it. *)
Theorem Enqueue_twice_is_once (e e' : buffer.Env) (item : buffer.Item)
  (b : bolt.Bucket buffer.Entry) :
  buffer.ID item <> "" -> IsZero (buffer.Timestamp item) = false ->
  buffer.fails e = false -> buffer.fails e' = false ->
  buffer.Enqueue e' item (fst (buffer.Enqueue e item (Some b)))
  = buffer.Enqueue e item (Some b).
Proof.
  intros Hid Ht Hf Hf'.
  assert (En : buffer.normalize e' item = buffer.normalize e item).
  { unfold buffer.normalize. apply String.eqb_neq in Hid. rewrite Hid.
    destruct ((_ <=? 0) || (5 <? _)); cbn [buffer.Timestamp buffer.set_Priority];
      now rewrite Ht. }
  rewrite (Enqueue_commits e item b Hf). cbn [fst].
  rewrite (Enqueue_commits e' item _ Hf'), En. now rewrite Put_Put_same.
Qed.

(** X7 at the task record of the examples, enqueued at time 300 and again
    at time 400. *)
Lemma Enqueue_twice_is_once_witness :
  buffer.Enqueue (buffer.mkEnv 400 "uuid-4" false) examples.storedTask1
    (fst (buffer.Enqueue (buffer.mkEnv 300 "uuid-3" false) examples.storedTask1 (Some [])))
  = buffer.Enqueue (buffer.mkEnv 300 "uuid-3" false) examples.storedTask1 (Some []).
Proof.
  refine (Enqueue_twice_is_once (buffer.mkEnv 300 "uuid-3" false)
            (buffer.mkEnv 400 "uuid-4" false) examples.storedTask1 [] _ eq_refl eq_refl eq_refl).
  discriminate.
Defined.







(** ** Cleanup *)

Section CleanupFacts.
Import buffer run.
Local Open Scope list_scope.

Lemma deleteOlder_listing (t : Time) (b : bolt.Bucket Entry) :
  listing (deleteOlder t b)
  = filter (fun x => negb (Before (Timestamp x) t)) (listing b).
Proof.
  induction b as [|[k [i|]] b IH]; cbn [deleteOlder listing filter]; [reflexivity| |exact IH].
  cbn [Timestamp set_bucketKey].
  destruct (Before (Timestamp i) t); cbn [negb listing]; [exact IH | now rewrite IH].
Qed.

Lemma deleteOlder_unreadable (t : Time) (b : bolt.Bucket Entry) :
  unreadable (deleteOlder t b) = unreadable b.
Proof.
  induction b as [|[k [i|]] b IH]; cbn [deleteOlder unreadable]; [reflexivity| |now rewrite IH].
  destruct (Before (Timestamp i) t); cbn [unreadable]; exact IH.
Qed.

Lemma deleteOlder_twice (t : Time) (b : bolt.Bucket Entry) :
  deleteOlder t (deleteOlder t b) = deleteOlder t b.
Proof.
  induction b as [|[k [i|]] b IH]; cbn [deleteOlder]; [reflexivity| |now rewrite IH].
  destruct (Before (Timestamp i) t) eqn:E; [exact IH|].
  cbn [deleteOlder]. now rewrite E, IH.
Qed.

Lemma deleteOlder_In (t : Time) (b : bolt.Bucket Entry) (x : string * Entry) :
  In x (deleteOlder t b) -> In x b.
Proof.
  induction b as [|[k [i|]] b IH]; cbn [deleteOlder]; [tauto| |].
  - destruct (Before (Timestamp i) t); cbn [In]; intuition.
  - cbn [In]. intuition.
Qed.

End CleanupFacts.

(** X11.  What [Cleanup] removes.  A committed [Cleanup] deletes exactly
    the readable records whose timestamp is before the cut-off: the
    listing afterwards is the listing before without them, in the same
    order; entries that cannot be decoded are never cleaned up; and a
    second [Cleanup] with the same cut-off finds nothing to do. *)
Theorem Cleanup_removes_the_old (b : bolt.Bucket buffer.Entry) (olderThan : Time) :
  let out := buffer.Cleanup false olderThan (Some b) in
  snd out = None
  /\ run.records (fst out)
     = filter (fun x => negb (Before (buffer.Timestamp x) olderThan)) (run.records (Some b))
  /\ (exists b', fst out = Some b' /\ run.unreadable b' = run.unreadable b)
  /\ buffer.Cleanup false olderThan (fst out) = out.
Proof.
  cbv zeta. unfold buffer.Cleanup, bolt.Update. cbn [fst snd]. repeat apply conj.
  - reflexivity.
  - rewrite !records_listing. apply deleteOlder_listing.
  - eexists. split; [reflexivity | apply deleteOlder_unreadable].
  - now rewrite deleteOlder_twice.
Qed.

(* ------------------------------------------------------------------ *)
(** * Further properties of the processor *)

Section Ticks.
Import buffer services run order.
Context {R E : Type} `{Repositories R E} `{Json}.
Local Open Scope list_scope.

Lemma Drain_runs bp (te : TickEnv E) (b : bolt.Bucket Entry) (r : R) :
  online bp -> viewFails te = false ->
  Drain bp te (mkWorld (Some b) r)
  = (fst (drainItems bp (iter te) 0
            (scan (Z.to_nat (if BatchSize (cfg bp) <=? 0 then 50 else BatchSize (cfg bp))) b)
            (mkWorld (Some b) r)),
     snd (drainItems bp (iter te) 0
            (scan (Z.to_nat (if BatchSize (cfg bp) <=? 0 then 50 else BatchSize (cfg bp))) b)
            (mkWorld (Some b) r)),
     None).
Proof.
  intros Hr Hv. unfold Drain. cbn [store].
  replace (match monitor bp with
           | Some status => negb (monitor.IsOnline status)
           | None => false
           end) with false
    by (destruct (monitor bp) as [st|] eqn:M; [now rewrite (Hr st M) | reflexivity]).
  unfold GetBatch. rewrite Hv. now destruct drainItems.
Qed.

Lemma processItem_no_log (e : E) (item : Item) (r : R) (l : Level) (msg : string) :
  ~ In (EvLog l msg) (snd (processItem e item r)).
Proof.
  destruct (processItem_cases e item r) as [(err & ->)|(c & r' & err & ->)];
    cbn; intuition discriminate.
Qed.

Lemma processItem_calls_le (e : E) (item : Item) (r : R) :
  (List.length (calls (snd (processItem e item r))) <= 1)%nat.
Proof.
  destruct (processItem_cases e item r) as [(err & ->)|(c & r' & err & ->)]; cbn; lia.
Qed.

Lemma drainItem_calls bp (e : IterEnv E) (item : Item) (w : World R) :
  calls (snd (drainItem bp e item w)) = calls (snd (processItem (repoEnv e) item (repo w))).
Proof.
  unfold drainItem.
  destruct (processItem (repoEnv e) item (repo w)) as [[r' err] evs]. cbn [snd].
  destruct err as [err|].
  - destruct (_ >=? _).
    + destruct Remove. cbn [snd]. rewrite !calls_app. cbn. now rewrite !app_nil_r.
    + destruct Remove. destruct Requeue. cbn [snd].
      rewrite !calls_app, !calls_logIf. cbn. now rewrite !app_nil_r.
  - destruct Remove. cbn [snd]. now rewrite calls_app, calls_logIf, app_nil_r.
Qed.

Lemma drainItems_calls_le bp (env : nat -> IterEnv E) (n : nat)
  (items : list Item) (w : World R) :
  (List.length (calls (snd (drainItems bp env n items w))) <= List.length items)%nat.
Proof.
  revert n w. induction items as [|x rest IH]; intros n w; [cbn; lia|].
  rewrite drainItems_cons. cbn [snd]. rewrite calls_app, List.length_app, drainItem_calls.
  pose proof (processItem_calls_le (repoEnv (env n)) x (repo w)).
  specialize (IH (S n) (fst (drainItem bp (env n) x w))).
  cbn [List.length]. lia.
Qed.

(** One iteration whose apply succeeds and whose remove commits. *)
Lemma drainItem_success bp (e : IterEnv E) (x : Item) (b : bolt.Bucket Entry) (r : R) :
  bucketKey x <> "" -> removeFails e = false ->
  errorOf (processItem (repoEnv e) x r) = None ->
  drainItem bp e x (mkWorld (Some b) r)
  = (mkWorld (Some (bolt.Delete (bucketKey x) b)) (repoAfter (processItem (repoEnv e) x r)),
     snd (processItem (repoEnv e) x r)).
Proof.
  intros Hk Hrm Hok. unfold drainItem, errorOf, repoAfter in *. cbn [store repo].
  destruct (processItem (repoEnv e) x r) as [[r' err] evs]. cbn [fst snd] in *.
  subst err. rewrite Hrm, (Remove_by_handle x b Hk). cbn [logIf]. now rewrite app_nil_r.
Qed.

Lemma drainItems_all_succeed bp (env : nat -> IterEnv E) (b : bolt.Bucket Entry) :
  Forall filed b ->
  (forall j, removeFails (env j) = false) ->
  (forall j x r, In x (listing b) -> errorOf (processItem (repoEnv (env j)) x r) = None) ->
  forall (n j : nat) (r : R),
    store (fst (drainItems bp env j (scan n b) (mkWorld (Some b) r))) = Some (skipn n b)
    /\ forall l msg,
         ~ In (EvLog l msg) (snd (drainItems bp env j (scan n b) (mkWorld (Some b) r))).
Proof.
  intros Hf Hrm. induction b as [|[k v] b IH]; intros Hok n j r.
  - cbn [scan drainItems fst snd store]. rewrite skipn_nil. auto.
  - inversion Hf as [|? ? Hkv Hf']; subst.
    destruct Hkv as (i & Hv & Hk & _). cbn [fst snd] in Hv, Hk. subst v.
    destruct n as [|n]; [cbn [scan drainItems fst snd store skipn]; auto|].
    cbn [scan]. rewrite drainItems_cons.
    assert (Hx : bucketKey (set_bucketKey k i) <> "")
      by (cbn [bucketKey set_bucketKey]; rewrite Hk; apply buildKey_nonempty).
    rewrite (drainItem_success bp (env j) _ _ r Hx (Hrm j))
      by (apply Hok; cbn [listing]; now left).
    cbn [fst snd bucketKey set_bucketKey bolt.Delete skipn]. rewrite String.eqb_refl.
    destruct (IH Hf' (fun j x r Hin => Hok j x r (or_intror Hin)) n (S j)
                (repoAfter (processItem (repoEnv (env j)) (set_bucketKey k i) r)))
      as [IH1 IH2].
    split; [exact IH1|].
    intros l msg Hin. apply in_app_or in Hin. destruct Hin as [Hin|Hin].
    + exact (processItem_no_log _ _ _ _ _ Hin).
    + exact (IH2 _ _ Hin).
Qed.

(** The stores that the store's methods can produce are closed under
    one iteration of the drain loop. *)
Lemma drainItem_fromEnqueues bp (e : IterEnv E) (x : Item) (w : World R) :
  fromEnqueues (store w) -> clockOK (requeueEnv e) ->
  fromEnqueues (store (fst (drainItem bp e x w))).
Proof.
  intros Hs He. unfold drainItem.
  destruct (processItem (repoEnv e) x (repo w)) as [[r' err] evs].
  destruct err as [err|].
  - destruct (_ >=? _).
    + pose proof (fe_Remove (removeFails e) (set_Retries (Retries x + 1) x) _ Hs) as H1.
      destruct Remove. exact H1.
    + pose proof (fe_Remove (removeFails e) (set_Retries (Retries x + 1) x) _ Hs) as H1.
      destruct Remove as [s1 rmErr]. cbn [fst] in H1.
      pose proof (fe_Requeue (requeueEnv e) (set_Retries (Retries x + 1) x) _ H1 He) as H2.
      destruct Requeue. exact H2.
  - pose proof (fe_Remove (removeFails e) x _ Hs) as H1.
    destruct Remove. exact H1.
Qed.

Lemma drainItems_fromEnqueues bp (env : nat -> IterEnv E) (items : list Item) :
  (forall j, clockOK (requeueEnv (env j))) ->
  forall (n : nat) (w : World R),
    fromEnqueues (store w) ->
    fromEnqueues (store (fst (drainItems bp env n items w))).
Proof.
  intros He. induction items as [|x rest IH]; intros n w Hs; [exact Hs|].
  rewrite drainItems_cons. cbn [fst]. apply IH. now apply drainItem_fromEnqueues.
Qed.

End Ticks.



Section Immediate.
Import buffer services run order.
Context {R E : Type} `{Repositories R E} `{Json}.
Local Open Scope list_scope.

(** [BufferOperation] in one piece. *)
Lemma BufferOperation_cases bp (re : E) (qe : Env) (item : Item) (w : World R)
  (b : bolt.Bucket Entry) :
  store w = Some b ->
  BufferOperation bp re qe item w
  = if match monitor bp with
       | None => true
       | Some status => monitor.IsOnline status
       end
    then
      match errorOf (processItem re item (repo w)) with
      | None =>
          (mkWorld (store w) (repoAfter (processItem re item (repo w))),
           snd (processItem re item (repo w)), None)
      | Some _ =>
          (mkWorld (fst (Enqueue qe item (Some b))) (repoAfter (processItem re item (repo w))),
           snd (processItem re item (repo w))
           ++ [EvLog Warn "immediate processing failed, buffering"],
           snd (Enqueue qe item (Some b)))
      end
    else (mkWorld (fst (Enqueue qe item (Some b))) (repo w), [], snd (Enqueue qe item (Some b))).
Proof.
  intros Hs. unfold BufferOperation, errorOf, repoAfter. rewrite Hs.
  destruct (match monitor bp with
            | None => true
            | Some status => monitor.IsOnline status
            end).
  - destruct (processItem re item (repo w)) as [[r' err] evs]. cbn [fst snd].
    destruct err; [|reflexivity]. now destruct Enqueue.
  - now destruct Enqueue.
Qed.

Lemma Enqueue_outcome (qe : Env) (item : Item) (b : bolt.Bucket Entry) :
  (fails qe = false /\ snd (Enqueue qe item (Some b)) = None
   /\ held (fst (Enqueue qe item (Some b))) (normalize qe item))
  \/ (fails qe = true /\ snd (Enqueue qe item (Some b)) = Some ErrBolt
      /\ fst (Enqueue qe item (Some b)) = Some b).
Proof.
  destruct (fails qe) eqn:Hq.
  - right. rewrite (Enqueue_fails qe item b Hq). auto.
  - left. destruct (Enqueue_held qe item b Hq). auto.
Qed.

End Immediate.



(** X14.  What an apply reads of a record.  [processItem] looks at the
    entity, the operation and the payload of the item and at nothing
    else: two items that agree on these three leave the same repository
    state, return the same error and make the same repository call,
    whatever their ID, owner, priority, retry counter and timestamp.  For
    a profile record not even the operation is read: it is upserted
    whatever the operation says. *)
Theorem processItem_reads_entity_operation_data
  {R E : Type} `{Repositories R E} `{Json}
  (e : E) (a b : buffer.Item) (r : R) :
  buffer.Entity a = buffer.Entity b -> buffer.Data a = buffer.Data b ->
  buffer.Operation a = buffer.Operation b \/ buffer.Entity a = buffer.EntityProfile ->
  run.repoAfter (services.processItem e a r) = run.repoAfter (services.processItem e b r)
  /\ run.errorOf (services.processItem e a r) = run.errorOf (services.processItem e b r)
  /\ run.calls (snd (services.processItem e a r)) = run.calls (snd (services.processItem e b r)).
Proof.
  intros He Hd Ho. unfold services.processItem, run.repoAfter, run.errorOf.
  rewrite <- He, <- Hd.
  destruct (buffer.Entity a =? buffer.EntityProfile)%string eqn:Ep.
  - destruct (unmarshalUser (buffer.Data a)); [|repeat split].
    destruct (Upsert e (Some u) r). repeat split.
  - destruct Ho as [Ho|Ho]; [|rewrite Ho in Ep; discriminate].
    rewrite <- Ho.
    destruct (buffer.Entity a =? buffer.EntityTask)%string; [|repeat split].
    destruct (unmarshalTask (buffer.Data a)); [|repeat split].
    destruct (buffer.Operation a =? buffer.OperationCreate)%string.
    { destruct (Create e (Some t) r). repeat split. }
    destruct (buffer.Operation a =? buffer.OperationUpdate)%string.
    { destruct (Update e (Some t) r). repeat split. }
    destruct (buffer.Operation a =? buffer.OperationDelete)%string.
    { destruct (Delete e (domain.Task.ID t) r). repeat split. }
    repeat split.
Qed.

(** X14 at a profile record filed as an update and its copy filed as a
    delete: both upsert the user. *)
Lemma processItem_reads_entity_operation_data_witness :
  run.calls
    (snd (services.processItem (examples.pgUp 5) examples.profileUpdate1 examples.emptyDB))
  = run.calls
      (snd (services.processItem (examples.pgUp 5)
              (buffer.mkItem "x" "u9" buffer.EntityProfile buffer.OperationDelete
                 (examples.idObject "u1") 1 2 (TimeAt 7) "")
              examples.emptyDB)).
Proof.
  exact (proj2 (proj2
           (processItem_reads_entity_operation_data (examples.pgUp 5)
              examples.profileUpdate1
              (buffer.mkItem "x" "u9" buffer.EntityProfile buffer.OperationDelete
                 (examples.idObject "u1") 1 2 (TimeAt 7) "")
              examples.emptyDB eq_refl eq_refl (or_intror eq_refl)))).
Defined.

(** X15.  What a tick reports and how often it calls.  A tick makes at
    most one repository call for each record of its batch, hence at most
    [BatchSize] calls (50 when [BatchSize] is not positive), and none
    when it is skipped or cannot read the batch.  Its result is the
    error of the read and nothing else: failed applies and failed store
    transactions of the loop are logged, never returned.  And the tick
    leaves the store one that the store's methods can produce, so the
    order of the next batch is again that of the keys. *)
Theorem Drain_calls_and_result
  {R E : Type} `{Repositories R E} `{Json}
  (bp : services.BufferProcessor) (te : services.TickEnv E) (w : services.World R) :
  let n := if services.BatchSize (services.cfg bp) <=? 0 then 50
           else services.BatchSize (services.cfg bp) in
  let out := services.Drain bp te w in
  (List.length (run.calls (run.events out)) <= List.length (run.processed (run.events out)))%nat
  /\ Z.of_nat (List.length (run.processed (run.events out))) <= n
  /\ (services.viewFails te = false -> run.result out = None)
  /\ (run.result out <> None ->
      run.world out = w /\ run.events out = [] /\ services.viewFails te = true)
  /\ ((forall j, order.clockOK (services.requeueEnv (services.iter te j))) ->
      order.fromEnqueues (services.store w) ->
      order.fromEnqueues (services.store (run.world out))).
Proof.
  intros n out. subst out. unfold services.Drain, run.result, run.world, run.events.
  assert (Hn : 0 <= n) by (subst n; destruct (Z.leb_spec (services.BatchSize (services.cfg bp)) 0); lia).
  destruct (services.store w) as [b|] eqn:Hs;
    [|cbn; repeat split; try lia; try discriminate; try contradiction;
      try (intros; rewrite Hs; assumption); auto].
  destruct (match services.monitor bp with
            | Some status => negb (monitor.IsOnline status)
            | None => false
            end);
    [cbn; repeat split; try lia; try discriminate; try contradiction;
     try (intros; rewrite Hs; assumption); auto|].
  unfold buffer.GetBatch. destruct (services.viewFails te) eqn:Hv.
  - cbn. repeat split; try lia; try discriminate;
      try (intros; rewrite Hs; assumption); auto.
  - fold n.
    pose proof (drainItems_calls_le bp (services.iter te) 0 (buffer.scan (Z.to_nat n) b) w) as Hc.
    pose proof (drainItems_processed bp (services.iter te) 0 (buffer.scan (Z.to_nat n) b) w) as Hp.
    pose proof (fun He Hf => drainItems_fromEnqueues bp (services.iter te)
                               (buffer.scan (Z.to_nat n) b) He 0%nat w Hf) as Hfe.
    destruct (services.drainItems bp (services.iter te) 0 (buffer.scan (Z.to_nat n) b) w)
      as [w' evs].
    cbn [fst snd] in *. rewrite Hp. repeat split; try contradiction; try discriminate.
    + exact Hc.
    + rewrite scan_listing, length_firstn. lia.
    + intros He Hf. rewrite Hs in Hfe. now apply Hfe.
Qed.

(* ------------------------------------------------------------------ *)
(** * Further properties of the use cases *)

Section UseCases.
Import buffer services run order.
Context {R E : Type} `{Repositories R E} `{Pointees R E} `{Json}.
Local Open Scope list_scope.

Lemma BufferOperation_commits bp (re : E) (qe : Env) (item : Item) (w : World R)
  (b : bolt.Bucket Entry) :
  store w = Some b -> fails qe = false ->
  result (BufferOperation bp re qe item w) = None.
Proof.
  intros Hs Hq. rewrite (BufferOperation_cases bp re qe item w b Hs).
  rewrite (Enqueue_commits qe item b Hq). unfold result.
  destruct (match monitor bp with
            | None => true
            | Some status => monitor.IsOnline status
            end); [|reflexivity].
  now destruct (errorOf (processItem re item (repo w))).
Qed.

Lemma shouldBuffer_accepts bp (re : E) (qe : Env) (operation : string) (t : Task)
  (w : World R) (b : bolt.Bucket Entry) :
  store w = Some b -> fails qe = false -> marshalTask t <> None ->
  snd (task.shouldBuffer (task.mkUseCase (Some (Some bp))) re qe operation t w) = true.
Proof.
  intros Hs Hq Hm. unfold task.shouldBuffer, BufferTask. cbn [task.buffer].
  destruct (marshalTask t) as [payload|]; [|contradiction].
  pose proof (BufferOperation_commits bp re qe
                (mkItem (domain.Task.ID t) (domain.Task.UserID t) EntityTask operation
                   payload 4 0 TimeZero "") w b Hs Hq) as Hb.
  destruct BufferOperation as [[w' evs] err]. unfold result in Hb. cbn [snd] in Hb.
  now subst err.
Qed.

Lemma BufferProfile_accepts bp (re : E) (qe : Env) (operation : string) (u : User)
  (w : World R) (b : bolt.Bucket Entry) :
  store w = Some b -> fails qe = false -> marshalUser u <> None ->
  result (BufferProfile (Some bp) re qe operation (Some u) w) = None.
Proof.
  intros Hs Hq Hm. unfold BufferProfile.
  destruct (marshalUser u) as [payload|]; [|contradiction].
  now apply (BufferOperation_commits bp re qe _ w b).
Qed.

End UseCases.

(** X16.  Writes are accepted while the store takes them.  With a
    buffer bridge whose processor has a store, and as long as the
    transaction of [Enqueue] commits and the entity can be marshalled,
    [CreateTask], [UpdateTask] and [UpdateProfile] never return an
    error, whatever the repository does: a failed repository call is
    answered by buffering.  [DeleteTask] returns nil or the not-found
    error of the repository, which it does not buffer. *)
Theorem writes_accepted_while_store_commits
  {R E : Type} `{Repositories R E} `{Pointees R E} `{Json}
  (bp : services.BufferProcessor) (e re : E) (qe : buffer.Env)
  (w : services.World R) (b : bolt.Bucket buffer.Entry)
  (t : Task) (u : User) (id : string) :
  services.store w = Some b -> buffer.fails qe = false ->
  (forall t', marshalTask t' <> None) -> (forall u', marshalUser u' <> None) ->
  let tasks := task.mkUseCase (Some (Some bp)) in
  let profiles := profile.mkUseCase (Some (Some bp)) in
  snd (run.result (task.CreateTask tasks e re qe t w)) = None
  /\ snd (run.result (task.UpdateTask tasks e re qe t w)) = None
  /\ snd (run.result (profile.UpdateProfile profiles e re qe u w)) = None
  /\ (run.result (task.DeleteTask tasks e re qe id w) = None
      \/ (run.result (task.DeleteTask tasks e re qe id w) = Some ErrTaskNotFound
          /\ snd (Delete e id (services.repo w)) = Some ErrTaskNotFound)).
Proof.
  intros Hs Hq Hmt Hmu tasks profiles. subst tasks profiles. repeat apply conj.
  - unfold task.CreateTask.
    destruct (Create e (Some t) (services.repo w)) as [r' [created err]]. cbn [snd fst].
    destruct err as [err|]; [|reflexivity].
    pose proof (shouldBuffer_accepts bp re qe usecase.OperationCreate
                  (afterCreate e t (services.repo w))
                  (services.mkWorld (services.store w) r') b Hs Hq (Hmt _)) as Hb.
    destruct task.shouldBuffer as [[w2 evs] buffered]. cbn [snd] in Hb. subst buffered.
    reflexivity.
  - unfold task.UpdateTask.
    destruct (Update e (Some t) (services.repo w)) as [r' err].
    destruct err as [err|]; [|reflexivity].
    pose proof (shouldBuffer_accepts bp re qe usecase.OperationUpdate
                  (afterUpdate e t (services.repo w))
                  (services.mkWorld (services.store w) r') b Hs Hq (Hmt _)) as Hb.
    destruct task.shouldBuffer as [[w2 evs] buffered]. cbn [snd] in Hb. subst buffered.
    reflexivity.
  - unfold profile.UpdateProfile.
    destruct (Upsert e (Some u) (services.repo w)) as [r' err].
    destruct err as [err|]; [|reflexivity]. cbn [profile.buffer].
    pose proof (BufferProfile_accepts bp re qe usecase.OperationUpdate
                  (afterUpsert e u (services.repo w))
                  (services.mkWorld (services.store w) r') b Hs Hq (Hmu _)) as Hb.
    destruct services.BufferProfile as [[w2 evs] err']. unfold run.result in Hb.
    cbn [snd] in Hb. subst err'. reflexivity.
  - unfold task.DeleteTask.
    destruct (Delete e id (services.repo w)) as [r' err]. cbn [snd].
    destruct err as [err|]; [|now left].
    pose proof (shouldBuffer_accepts bp re qe usecase.OperationDelete (task.emptyTask id)
                  (services.mkWorld (services.store w) r') b Hs Hq (Hmt _)) as Hb.
    destruct task.shouldBuffer as [[w2 evs] buffered]. cbn [snd] in Hb. subst buffered.
    destruct err; try (now left). right. split; reflexivity.
Qed.

(** X16 at an unreachable database and a store of one record: the
    update of a task is accepted. *)
Lemma writes_accepted_while_store_commits_witness :
  snd (run.result
         (task.UpdateTask (task.mkUseCase (Some (Some (services.mkProcessor None examples.cfg3))))
            (examples.pgOff 5) (examples.pgOff 6) (buffer.mkEnv 300 "uuid-4" false)
            (examples.taskOf "t1")
            (services.mkWorld (Some examples.oneTask) examples.emptyDB)))
  = None.
Proof.
  refine (proj1 (proj2
           (writes_accepted_while_store_commits (services.mkProcessor None examples.cfg3)
              (examples.pgOff 5) (examples.pgOff 6) (buffer.mkEnv 300 "uuid-4" false)
              (services.mkWorld (Some examples.oneTask) examples.emptyDB) examples.oneTask
              (examples.taskOf "t1") (examples.userOf "u1") "t1" eq_refl eq_refl _ _))).
  - intros t'. discriminate.
  - intros u'. discriminate.
Defined.

Section MissingTask.
Import buffer services run order.
Context `{Json}.
Local Open Scope list_scope.

Lemma Update_missing (e : postgres.Env) (t : Task) (db : postgres.DB) :
  postgres.up e = true ->
  postgres.find (domain.Task.ID t) (postgres.tasks db) = None ->
  postgres.Update e (Some t) db = (db, Some ErrTaskNotFound)
  /\ postgres.afterUpdate e t db = t.
Proof.
  intros Hup Hf. unfold postgres.Update, postgres.afterUpdate. now rewrite Hup, Hf.
Qed.

Lemma Delete_missing (e : postgres.Env) (id : string) (db : postgres.DB) :
  postgres.up e = true -> postgres.find id (postgres.tasks db) = None ->
  postgres.Delete e id db = (db, Some ErrTaskNotFound).
Proof.
  intros Hup Hf. unfold postgres.Delete. rewrite Hup. cbn [negb].
  now rewrite (find_None_rowsAffected _ _ Hf).
Qed.

End MissingTask.



(* ------------------------------------------------------------------ *)
(** * Further properties of the repositories *)

Section Rows.
Context {Row : Type}.
Implicit Types (t : list (string * Row)) (id : string).
Local Open Scope list_scope.

Lemma find_modify_other id id' f t :
  id' <> id -> postgres.find id' (postgres.modify id f t) = postgres.find id' t.
Proof.
  intros Hne. unfold postgres.modify.
  induction t as [|[k r] t IH]; simpl; [reflexivity|].
  destruct (String.eqb_spec k id) as [->|Hk]; cbn [fst snd].
  - apply String.eqb_neq in Hne. rewrite String.eqb_sym in Hne. rewrite Hne. exact IH.
  - destruct (k =? id')%string; [reflexivity | exact IH].
Qed.

Lemma find_remove_other id id' t :
  id' <> id -> postgres.find id' (postgres.remove id t) = postgres.find id' t.
Proof.
  intros Hne. unfold postgres.remove.
  induction t as [|[k r] t IH]; simpl; [reflexivity|].
  destruct (String.eqb_spec k id) as [->|Hk]; cbn [negb].
  - apply String.eqb_neq in Hne. rewrite String.eqb_sym in Hne. rewrite Hne. exact IH.
  - simpl. destruct (k =? id')%string; [reflexivity | exact IH].
Qed.

Lemma find_app_other id id' t r :
  id' <> id -> postgres.find id' (t ++ [(id, r)]) = postgres.find id' t.
Proof.
  intros Hne. induction t as [|[k r'] t IH]; simpl.
  - apply String.eqb_neq in Hne. rewrite String.eqb_sym in Hne. now rewrite Hne.
  - destruct (k =? id')%string; [reflexivity | exact IH].
Qed.

Lemma rowsAffected_find id t :
  postgres.rowsAffected id t <> 0%nat -> exists r, postgres.find id t = Some r.
Proof.
  intros Hr. destruct (postgres.find id t) as [r|] eqn:F; [eauto|].
  now rewrite (find_None_rowsAffected _ _ F) in Hr.
Qed.

End Rows.

(** X18.  [Update] does not look at the owner.  The statement of
    [taskRepository.Update] selects the row by its ID alone and sets
    neither [user_id] nor [created_at]: its result and the tables it
    leaves are the same whatever [UserID] the task carries, and
    afterwards every row has the owner and the creation time it had
    before. *)
Theorem Update_ignores_the_owner
  (e : postgres.Env) (t : Task) (owner : string) (db : postgres.DB) :
  let t' := domain.Task.mkTask (domain.Task.ID t) owner (domain.Task.Title t)
              (domain.Task.Description t) (domain.Task.Status t) (domain.Task.Priority t)
              (domain.Task.DueDate t) (domain.Task.Metadata t) (domain.Task.CreatedAt t)
              (domain.Task.UpdatedAt t) in
  postgres.Update e (Some t') db = postgres.Update e (Some t) db
  /\ (forall id,
        option_map postgres.t_user_id
          (postgres.find id (postgres.tasks (fst (postgres.Update e (Some t) db))))
        = option_map postgres.t_user_id (postgres.find id (postgres.tasks db)))
  /\ (forall id,
        option_map postgres.t_created_at
          (postgres.find id (postgres.tasks (fst (postgres.Update e (Some t) db))))
        = option_map postgres.t_created_at (postgres.find id (postgres.tasks db)))
  /\ postgres.users (fst (postgres.Update e (Some t) db)) = postgres.users db.
Proof.
  intros t'. split; [reflexivity|].
  unfold postgres.Update.
  destruct (negb (postgres.up e)); [repeat split|].
  destruct (postgres.find (domain.Task.ID t) (postgres.tasks db)) as [row|] eqn:F;
    [|repeat split].
  cbn [fst postgres.tasks postgres.users]. repeat split.
  - intros id. destruct (String.eqb_spec id (domain.Task.ID t)) as [->|Hne].
    + rewrite find_modify, F. reflexivity.
    + now rewrite find_modify_other.
  - intros id. destruct (String.eqb_spec id (domain.Task.ID t)) as [->|Hne].
    + rewrite find_modify, F. reflexivity.
    + now rewrite find_modify_other.
Qed.

(** X19.  A write touches one row.  [Create], [Update] and [Delete] of
    the task repository leave every task row with another ID, and the
    whole users table, as they were; [Upsert] of the user repository
    leaves every user row with another ID, and the whole tasks table, as
    they were. *)
Theorem writes_touch_one_row
  (e : postgres.Env) (t : Task) (u : User) (id id' : string) (db : postgres.DB) :
  (id' <> domain.Task.ID (postgres.afterCreate e t db) ->
   postgres.find id' (postgres.tasks (fst (postgres.Create e (Some t) db)))
   = postgres.find id' (postgres.tasks db))
  /\ (id' <> domain.Task.ID t ->
      postgres.find id' (postgres.tasks (fst (postgres.Update e (Some t) db)))
      = postgres.find id' (postgres.tasks db))
  /\ (id' <> id ->
      postgres.find id' (postgres.tasks (fst (postgres.Delete e id db)))
      = postgres.find id' (postgres.tasks db))
  /\ (id' <> domain.User.ID u ->
      postgres.find id' (postgres.users (fst (postgres.Upsert e (Some u) db)))
      = postgres.find id' (postgres.users db))
  /\ (postgres.users (fst (postgres.Create e (Some t) db)) = postgres.users db
      /\ postgres.users (fst (postgres.Update e (Some t) db)) = postgres.users db
      /\ postgres.users (fst (postgres.Delete e id db)) = postgres.users db
      /\ postgres.tasks (fst (postgres.Upsert e (Some u) db)) = postgres.tasks db).
Proof.
  repeat apply conj.
  - unfold postgres.Create, postgres.afterCreate.
    destruct (negb (postgres.up e)); [reflexivity|].
    destruct (postgres.find _ (postgres.tasks db)); [reflexivity|].
    cbn [fst postgres.tasks domain.Task.ID]. intros Hne. now apply find_app_other.
  - unfold postgres.Update. destruct (negb (postgres.up e)); [reflexivity|].
    destruct (postgres.find _ (postgres.tasks db)); [|reflexivity].
    cbn [fst postgres.tasks]. intros Hne. now apply find_modify_other.
  - unfold postgres.Delete. destruct (negb (postgres.up e)); [reflexivity|].
    destruct (_ =? 0)%nat; [reflexivity|].
    cbn [fst postgres.tasks]. intros Hne. now apply find_remove_other.
  - unfold postgres.Upsert. destruct (negb (postgres.up e)); [reflexivity|].
    destruct (postgres.find _ (postgres.users db)); cbn [fst postgres.users]; intros Hne.
    + now apply find_modify_other.
    + now apply find_app_other.
  - unfold postgres.Create. destruct (negb (postgres.up e)); [reflexivity|].
    now destruct (postgres.find _ (postgres.tasks db)).
  - unfold postgres.Update. destruct (negb (postgres.up e)); [reflexivity|].
    now destruct (postgres.find _ (postgres.tasks db)).
  - unfold postgres.Delete. destruct (negb (postgres.up e)); [reflexivity|].
    now destruct (_ =? 0)%nat.
  - unfold postgres.Upsert. destruct (negb (postgres.up e)); [reflexivity|].
    now destruct (postgres.find _ (postgres.users db)).
Qed.

(** X20.  Reading back what was written.  After a successful [Create],
    [GetByID] on the ID that [Create] left in the task returns a task
    with that ID and the owner, title, description, status, priority and
    timestamps of the task [Create] returned, which is the struct it
    left behind its pointer.  After a successful [Update] it returns the
    new title, description, status and priority under the owner and the
    creation time the row already had.  After a successful [Delete] it
    returns the not-found error. *)
Theorem GetByID_reads_back_writes
  (e e' : postgres.Env) (t : Task) (id : string) (db : postgres.DB) :
  postgres.up e' = true ->
  (snd (snd (postgres.Create e (Some t) db)) = None ->
   let made := postgres.afterCreate e t db in
   fst (snd (postgres.Create e (Some t) db)) = Some made
   /\ exists t2,
        postgres.taskRepository.GetByID e' (domain.Task.ID made)
          (fst (postgres.Create e (Some t) db)) = (Some t2, None)
        /\ domain.Task.ID t2 = domain.Task.ID made
        /\ domain.Task.UserID t2 = domain.Task.UserID made
        /\ domain.Task.Title t2 = domain.Task.Title made
        /\ domain.Task.Description t2 = domain.Task.Description made
        /\ domain.Task.Status t2 = domain.Task.Status made
        /\ domain.Task.Priority t2 = domain.Task.Priority made
        /\ domain.Task.CreatedAt t2 = domain.Task.CreatedAt made
        /\ domain.Task.UpdatedAt t2 = domain.Task.UpdatedAt made)
  /\ (snd (postgres.Update e (Some t) db) = None ->
      exists t0 t2,
        postgres.taskRepository.GetByID e' (domain.Task.ID t) db = (Some t0, None)
        /\ postgres.taskRepository.GetByID e' (domain.Task.ID t)
             (fst (postgres.Update e (Some t) db)) = (Some t2, None)
        /\ domain.Task.Title t2 = domain.Task.Title t
        /\ domain.Task.Description t2 = domain.Task.Description t
        /\ domain.Task.Status t2 = domain.Task.Status t
        /\ domain.Task.Priority t2 = domain.Task.Priority t
        /\ domain.Task.UpdatedAt t2 = TimeAt (postgres.now e)
        /\ domain.Task.UserID t2 = domain.Task.UserID t0
        /\ domain.Task.CreatedAt t2 = domain.Task.CreatedAt t0)
  /\ (snd (postgres.Delete e id db) = None ->
      postgres.taskRepository.GetByID e' id (fst (postgres.Delete e id db))
      = (None, Some ErrTaskNotFound)).
Proof.
  intros Hup'. unfold postgres.taskRepository.GetByID. rewrite Hup'. cbn [negb].
  repeat apply conj.
  - unfold postgres.Create, postgres.afterCreate.
    destruct (negb (postgres.up e)); [discriminate|].
    destruct (postgres.find _ (postgres.tasks db)) eqn:F; [discriminate|].
    intros _. cbn [fst snd postgres.tasks domain.Task.ID]. split; [reflexivity|].
    rewrite (find_app_new _ _ _ F). eexists. split; [reflexivity|]. repeat split.
  - unfold postgres.Update.
    destruct (negb (postgres.up e)); [discriminate|].
    destruct (postgres.find _ (postgres.tasks db)) as [row|] eqn:F; [|discriminate].
    intros _. cbn [fst postgres.tasks]. rewrite find_modify, F. cbn [option_map].
    do 2 eexists. split; [reflexivity|]. split; [reflexivity|]. repeat split.
  - unfold postgres.Delete.
    destruct (negb (postgres.up e)); [discriminate|].
    destruct (_ =? 0)%nat; [discriminate|].
    intros _. cbn [fst postgres.tasks]. now rewrite find_remove.
Qed.

(** X20 at an empty table and the task t1, created and read back. *)
Lemma GetByID_reads_back_writes_witness :
  postgres.taskRepository.GetByID (examples.pgUp 9) "t1"
    (fst (postgres.Delete (examples.pgUp 7) "t1"
            (fst (postgres.Create (examples.pgUp 5) (Some (examples.taskOf "t1"))
                    examples.emptyDB))))
  = (None, Some ErrTaskNotFound).
Proof.
  exact (proj2 (proj2
           (GetByID_reads_back_writes (examples.pgUp 7) (examples.pgUp 9)
              (examples.taskOf "t1") "t1"
              (fst (postgres.Create (examples.pgUp 5) (Some (examples.taskOf "t1"))
                      examples.emptyDB))
              eq_refl)) eq_refl).
Defined.

(* ------------------------------------------------------------------ *)
(** * Further properties of the handlers *)

Section ErrorMapping.
Local Open Scope string_scope.

Lemma IsDomainError_Error (code message : string) (inner : option domain.goerror)
  (c : string) :
  domain.IsDomainError (Some (domain.Error code message inner)) c = String.eqb code c.
Proof. reflexivity. Qed.

Lemma mapError_asError (err : domain.goerror) :
  handler.mapError err
  = match domain.asError err with
    | Some code =>
        if String.eqb code domain.ErrCodeUnauthorized then (401, domain.ErrCodeUnauthorized)
        else if String.eqb code domain.ErrCodeForbidden then (403, domain.ErrCodeForbidden)
        else if String.eqb code domain.ErrCodeInvalid then (400, domain.ErrCodeInvalid)
        else if String.eqb code domain.ErrCodeNotFound then (404, domain.ErrCodeNotFound)
        else (500, domain.ErrCodeInternal)
    | None => (500, domain.ErrCodeInternal)
    end.
Proof.
  unfold handler.mapError, domain.IsDomainError.
  destruct (domain.asError err) as [code|]; reflexivity.
Qed.

End ErrorMapping.

(** X21.  How errors become responses.  [mapError] reads the code of the
    first [*domain.Error] on the [Unwrap] chain and nothing else: an
    error wrapped by [WrapError] is mapped by the code of the wrapper,
    whatever it wraps; an error of another type is mapped like the error
    it wraps, and to 500 INTERNAL when it wraps none.  Only the codes
    UNAUTHORIZED, FORBIDDEN, INVALID and NOT_FOUND have a status of
    their own; every other code, CONFLICT included, is answered as 500
    INTERNAL.  The text of a wrapped error is the message, a colon and
    the text of the cause.  Of the errors the package declares, the four
    not-found errors are answered as 404, [ErrUnauthorized] as 401 and
    [ErrInvalidPayload] as 400. *)
Theorem mapError_reads_the_first_domain_error
  (err : domain.goerror) (code message text : string) :
  handler.mapError (domain.WrapError code message (Some err))
  = handler.mapError (domain.NewError code message)
  /\ handler.mapError (domain.Other text (Some err)) = handler.mapError err
  /\ handler.mapError (domain.Other text None) = (500, "INTERNAL")
  /\ (code <> "UNAUTHORIZED" -> code <> "FORBIDDEN" -> code <> "INVALID" ->
      code <> "NOT_FOUND" ->
      handler.mapError (domain.NewError code message) = (500, "INTERNAL"))
  /\ handler.mapError (domain.NewError domain.ErrCodeConflict message) = (500, "INTERNAL")
  /\ (fst (handler.mapError err) = 500 <-> snd (handler.mapError err) = "INTERNAL")
  /\ In (fst (handler.mapError err)) [401; 403; 400; 404; 500]
  /\ domain.text (domain.WrapError code message (Some err))
     = (message ++ ": " ++ domain.text err)%string
  /\ (handler.mapError domain.ErrUserNotFound = (404, "NOT_FOUND")
      /\ handler.mapError domain.ErrTaskNotFound = (404, "NOT_FOUND")
      /\ handler.mapError domain.ErrSessionNotFound = (404, "NOT_FOUND")
      /\ handler.mapError domain.ErrAggregateNotFound = (404, "NOT_FOUND")
      /\ handler.mapError domain.ErrUnauthorized = (401, "UNAUTHORIZED")
      /\ handler.mapError domain.ErrInvalidPayload = (400, "INVALID")).
Proof.
  repeat apply conj; try reflexivity.
  - intros H1 H2 H3 H4. rewrite mapError_asError. cbn [domain.asError domain.NewError].
    apply String.eqb_neq in H1, H2, H3, H4.
    unfold domain.ErrCodeUnauthorized, domain.ErrCodeForbidden, domain.ErrCodeInvalid,
      domain.ErrCodeNotFound.
    now rewrite H1, H2, H3, H4.
  - rewrite mapError_asError. destruct (domain.asError err) as [c|]; [|now cbn].
    repeat (destruct (String.eqb c _); [cbn; discriminate|]). now cbn.
  - rewrite mapError_asError. destruct (domain.asError err) as [c|]; [|now cbn].
    repeat (destruct (String.eqb c _); [cbn; discriminate|]). now cbn.
  - rewrite mapError_asError. destruct (domain.asError err) as [c|]; [|cbn; tauto].
    repeat (destruct (String.eqb c _); [cbn; tauto|]). cbn; tauto.
Qed.

Section DeleteHandler.
Import services.
Context `{Json}.

Lemma Delete_existing (e : postgres.Env) (id : string) (db : postgres.DB)
  (row : postgres.TaskRow) :
  postgres.up e = true -> postgres.find id (postgres.tasks db) = Some row ->
  postgres.Delete e id db
  = (postgres.mkDB (postgres.users db) (postgres.remove id (postgres.tasks db)), None).
Proof.
  intros Hup Hf. unfold postgres.Delete. rewrite Hup. cbn [negb].
  pose proof (find_Some_rowsAffected _ _ _ Hf) as Hr.
  apply Nat.eqb_neq in Hr. now rewrite Hr.
Qed.

Lemma Delete_unreachable (e : postgres.Env) (id : string) (db : postgres.DB) :
  postgres.up e = false -> postgres.Delete e id db = (db, Some ErrConnection).
Proof. intros Hup. unfold postgres.Delete. now rewrite Hup. Qed.

Lemma handler_DeleteTask_routed (describe : error -> string) (uc : task.UseCase)
  (e re : postgres.Env) (qe : buffer.Env) (caller id : string)
  (w : World postgres.DB) :
  caller <> "" -> id <> "" ->
  handler.DeleteTask describe uc e re qe (handler.mkRequest caller (Some id)) w
  = match task.DeleteTask uc e re qe id w with
    | (w', evs, Some err) => (handler.respondError (errorValue describe err), w', evs)
    | (w', evs, None) => (handler.respondSuccess handler.StatusNoContent None, w', evs)
    end.
Proof.
  intros Hc Hi. unfold handler.DeleteTask. cbn [handler.XUserID handler.pathID].
  apply String.eqb_neq in Hc, Hi. now rewrite Hc, Hi.
Qed.

End DeleteHandler.

(** X22.  The answers of DELETE /api/v1/tasks/{id}.  Without the header
    X-User-ID the handler answers 401 UNAUTHORIZED and without a path ID
    400 INVALID, in both cases without calling the use case.  Otherwise
    the value of the header plays no further role: when the database
    holds a row with the ID, the answer is 204 and the row is gone, whoever
    the caller is and whoever owns the row; when it holds none, the answer
    is 404 NOT_FOUND with the text of the error and nothing is buffered;
    when the database is unreachable, the answer is 204 as long as the
    delete can be buffered, and 500 INTERNAL when there is no buffer. *)
Theorem DeleteTask_answers
  `{Json} (describe : error -> string) (bp : services.BufferProcessor)
  (e re : postgres.Env) (qe : buffer.Env) (caller id : string)
  (db : postgres.DB) (b : bolt.Bucket buffer.Entry) :
  caller <> "" -> id <> "" ->
  let uc := task.mkUseCase (Some (Some bp)) in
  let w := services.mkWorld (Some b) db in
  let answer := handler.DeleteTask describe uc e re qe (handler.mkRequest caller (Some id)) w in
  (forall path,
     handler.DeleteTask describe uc e re qe (handler.mkRequest "" path) w
     = (handler.respondJSON 401
          (transport.NewError "UNAUTHORIZED" (Some "missing user id") None), w, []))
  /\ handler.DeleteTask describe uc e re qe (handler.mkRequest caller None) w
     = (handler.respondJSON 400
          (transport.NewError "INVALID" (Some "missing task id") None), w, [])
  /\ (postgres.up e = true ->
      forall row, postgres.find id (postgres.tasks db) = Some row ->
      handler.StatusCode (fst (fst answer)) = 204
      /\ postgres.find id (postgres.tasks (services.repo (snd (fst answer)))) = None
      /\ services.store (snd (fst answer)) = Some b)
  /\ (postgres.up e = true -> postgres.find id (postgres.tasks db) = None ->
      answer
      = (handler.respondJSON 404
           (transport.NewError "NOT_FOUND" (Some "task not found") None),
         w, [services.EvCall (services.CallDelete id)]))
  /\ (postgres.up e = false -> buffer.fails qe = false ->
      (forall t, marshalTask t <> None) ->
      handler.StatusCode (fst (fst answer)) = 204)
  /\ (postgres.up e = false ->
      fst (fst (handler.DeleteTask describe (task.mkUseCase None) e re qe
                  (handler.mkRequest caller (Some id)) w))
      = handler.respondJSON 500
          (transport.NewError "INTERNAL" (Some (describe ErrConnection)) None)).
Proof.
  intros Hc Hi uc w answer. subst answer. repeat apply conj.
  - reflexivity.
  - unfold handler.DeleteTask. cbn [handler.XUserID handler.pathID].
    apply String.eqb_neq in Hc. now rewrite Hc.
  - intros Hup row Hf. rewrite (handler_DeleteTask_routed describe uc e re qe caller id w Hc Hi).
    unfold task.DeleteTask. subst w. cbn [services.repo services.store].
    change (@Delete _ _ postgres.repositories) with postgres.Delete.
    rewrite (Delete_existing e id db row Hup Hf). cbn [fst snd services.repo services.store
      postgres.tasks handler.respondSuccess handler.respondJSON handler.StatusCode].
    repeat split. apply find_remove.
  - intros Hup Hf. rewrite (handler_DeleteTask_routed describe uc e re qe caller id w Hc Hi).
    unfold task.DeleteTask. subst w. cbn [services.repo services.store].
    change (@Delete _ _ postgres.repositories) with postgres.Delete.
    rewrite (Delete_missing e id db Hup Hf). reflexivity.
  - intros Hup Hq Hm. rewrite (handler_DeleteTask_routed describe uc e re qe caller id w Hc Hi).
    unfold task.DeleteTask. subst w. cbn [services.repo services.store].
    change (@Delete _ _ postgres.repositories) with postgres.Delete.
    rewrite (Delete_unreachable e id db Hup).
    pose proof (shouldBuffer_accepts bp re qe usecase.OperationDelete (task.emptyTask id)
                  (services.mkWorld (Some b) db) b eq_refl Hq (Hm _)) as Hb.
    fold uc in Hb. destruct task.shouldBuffer as [[w2 evs] buffered].
    cbn [snd] in Hb. subst buffered. reflexivity.
  - intros Hup.
    rewrite (handler_DeleteTask_routed describe (task.mkUseCase None) e re qe caller id w Hc Hi).
    unfold task.DeleteTask. subst w. cbn [services.repo services.store].
    change (@Delete _ _ postgres.repositories) with postgres.Delete.
    rewrite (Delete_unreachable e id db Hup). reflexivity.
Qed.

(** X22 at a table with the task t1 of the user u1, deleted at the
    request of a caller u2. *)
Lemma DeleteTask_answers_witness :
  handler.StatusCode
    (fst (fst (handler.DeleteTask (fun _ => "connection refused")
                 (task.mkUseCase (Some (Some (services.mkProcessor None examples.cfg3))))
                 (examples.pgUp 7) (examples.pgUp 8) (buffer.mkEnv 300 "uuid-4" false)
                 (handler.mkRequest "u2" (Some "t1"))
                 (services.mkWorld (Some [])
                    (postgres.mkDB []
                       [("t1", postgres.mkTaskRow "u1" "title" "" "pending" 0 None None
                                 (TimeAt 5) (TimeAt 5))])))))
  = 204.
Proof.
  refine (proj1
           (proj1 (proj2 (proj2
              (DeleteTask_answers (fun _ => "connection refused")
                 (services.mkProcessor None examples.cfg3)
                 (examples.pgUp 7) (examples.pgUp 8) (buffer.mkEnv 300 "uuid-4" false)
                 "u2" "t1"
                 (postgres.mkDB []
                    [("t1", postgres.mkTaskRow "u1" "title" "" "pending" 0 None None
                              (TimeAt 5) (TimeAt 5))])
                 [] _ _)))
              eq_refl _ eq_refl)); discriminate.
Defined.

(* ------------------------------------------------------------------ *)
(** * Further properties of the shutdown manager *)

Section Hooks.
Import lifecycle.
Context {W Err : Type}.
Local Open Scope list_scope.

Lemma runHooks_components (hs : list (hook W Err)) (w : W) (res : option (joined Err)) :
  map component (snd (fst (runHooks hs w res))) = map name hs.
Proof.
  revert w res. induction hs as [|h hs IH]; intros w res; cbn [runHooks]; [reflexivity|].
  destruct (fn h w) as [w' [err|]].
  - specialize (IH w' (join res err)).
    destruct (runHooks hs w' (join res err)) as [[w'' logs] r]. cbn in *. now rewrite IH.
  - specialize (IH w' res).
    destruct (runHooks hs w' res) as [[w'' logs] r]. cbn in *. now rewrite IH.
Qed.

Lemma join_leaves (res : option (joined Err)) (err : Err) :
  joinedLeaves (join res err) = joinedLeaves res ++ [err].
Proof.
  destruct res as [j|]; cbn; [|reflexivity]. now rewrite ?app_nil_r.
Qed.

Lemma runHooks_leaves (hs : list (hook W Err)) (w : W) (res : option (joined Err)) :
  joinedLeaves (snd (runHooks hs w res))
  = joinedLeaves res ++ failures (snd (fst (runHooks hs w res))).
Proof.
  revert w res. induction hs as [|h hs IH]; intros w res; cbn [runHooks].
  - cbn. now rewrite app_nil_r.
  - destruct (fn h w) as [w' [err|]].
    + specialize (IH w' (join res err)).
      destruct (runHooks hs w' (join res err)) as [[w'' logs] r]. cbn [fst snd] in *.
      rewrite IH, join_leaves. unfold failures. cbn [flat_map]. now rewrite <- app_assoc.
    + specialize (IH w' res).
      destruct (runHooks hs w' res) as [[w'' logs] r]. cbn [fst snd] in *.
      rewrite IH. reflexivity.
Qed.

Lemma runHooks_nil_result (hs : list (hook W Err)) (w : W) (res : option (joined Err)) :
  snd (runHooks hs w res) = None
  <-> res = None /\ failures (snd (fst (runHooks hs w res))) = [].
Proof.
  revert w res. induction hs as [|h hs IH]; intros w res; cbn [runHooks].
  - cbn. tauto.
  - destruct (fn h w) as [w' [err|]].
    + specialize (IH w' (join res err)).
      destruct (runHooks hs w' (join res err)) as [[w'' logs] r]. cbn [fst snd] in *.
      unfold failures. cbn [flat_map app]. split.
      * intros Hr. apply IH in Hr. destruct Hr as [Hj _]. destruct res; discriminate.
      * intros [_ Hf]. discriminate.
    + specialize (IH w' res).
      destruct (runHooks hs w' res) as [[w'' logs] r]. cbn [fst snd] in *. exact IH.
Qed.

Lemma registered_hooks (regs : list (string * option (ShutdownFunc W Err)))
  (m : Manager W Err) :
  map name (hooks (fold_left (fun m r => Register (fst r) (snd r) m) regs m))
  = map name (hooks m)
    ++ map fst (filter (fun r => match snd r with Some _ => true | None => false end) regs).
Proof.
  revert m. induction regs as [|[n [f|]] regs IH]; intros m; cbn [fold_left filter fst snd].
  - now rewrite app_nil_r.
  - rewrite IH. cbn [Register hooks map]. rewrite map_app. cbn [map name].
    now rewrite <- app_assoc.
  - rewrite IH. reflexivity.
Qed.

End Hooks.


(* ------------------------------------------------------------------ *)
(** * Further properties of the configuration *)

Section Decimals.

Lemma digitValue_digit (d : Z) : 0 <= d < 10 -> strconv.digitValue (fmt.digit d) = Some d.
Proof.
  intros Hd. unfold strconv.digitValue, fmt.digit.
  rewrite N_ascii_embedding by lia.
  replace (Z.of_N (48 + Z.to_N d)) with (48 + d) by lia.
  replace ((48 <=? 48 + d) && (48 + d <=? 57)) with true
    by (symmetry; apply andb_true_iff; split; apply Z.leb_le; lia).
  f_equal. lia.
Qed.

Lemma digits_fixed (w : nat) (n acc : Z) :
  0 <= n < 10 ^ Z.of_nat w ->
  strconv.digits acc (fmt.fixed w n) = Some (acc * 10 ^ Z.of_nat w + n).
Proof.
  revert n acc. induction w as [|w IH]; intros n acc Hn.
  - cbn in *. f_equal. lia.
  - rewrite Nat2Z.inj_succ, Z.pow_succ_r in * by lia.
    set (p := 10 ^ Z.of_nat w) in *.
    assert (Hp : 0 < p) by (subst p; apply Z.pow_pos_nonneg; lia).
    cbn [fmt.fixed strconv.digits]. fold p.
    assert (Hq : 0 <= n / p < 10)
      by (split; [apply Z.div_pos; lia | apply Z.div_lt_upper_bound; lia]).
    rewrite (digitValue_digit _ Hq).
    rewrite IH by (apply Z.mod_pos_bound; lia).
    f_equal. pose proof (Z.div_mod n p ltac:(lia)). nia.
Qed.

Lemma ndigits_aux_bound (fuel : nat) (n : Z) :
  0 <= n < 2 ^ Z.of_nat fuel -> n < 10 ^ Z.of_nat (fmt.ndigits_aux fuel n).
Proof.
  revert n. induction fuel as [|f IH]; intros n Hn.
  - cbn in *. lia.
  - cbn [fmt.ndigits_aux]. destruct (Z.ltb_spec n 10) as [Hlt|Hge]; [cbn; lia|].
    rewrite Nat2Z.inj_succ, Z.pow_succ_r in * by lia.
    assert (Hq : 0 <= n / 10 < 2 ^ Z.of_nat f)
      by (split; [apply Z.div_pos; lia | apply Z.div_lt_upper_bound; lia]).
    specialize (IH _ Hq). pose proof (Z.div_mod n 10 ltac:(lia)).
    pose proof (Z.mod_pos_bound n 10 ltac:(lia)). lia.
Qed.

Lemma ndigits_bound (n : Z) : 0 <= n -> n < 10 ^ Z.of_nat (fmt.ndigits n).
Proof.
  intros Hn. unfold fmt.ndigits. apply ndigits_aux_bound. split; [exact Hn|].
  rewrite Nat2Z.inj_succ, Z2Nat.id by apply Z.log2_nonneg.
  destruct (Z.eq_dec n 0) as [->|Hne]; [reflexivity|].
  apply Z.log2_spec. lia.
Qed.

Lemma ndigits_positive (n : Z) : exists w, fmt.ndigits n = S w.
Proof.
  unfold fmt.ndigits. cbn [fmt.ndigits_aux]. destruct (n <? 10); eauto.
Qed.

Lemma fixed_starts_with_digit (w : nat) (n : Z) :
  0 <= n < 10 ^ Z.of_nat (S w) ->
  exists c s, fmt.fixed (S w) n = String c s
              /\ Ascii.eqb c "-" = false /\ Ascii.eqb c "+" = false.
Proof.
  intros Hn. cbn [fmt.fixed]. do 2 eexists. split; [reflexivity|].
  rewrite Nat2Z.inj_succ, Z.pow_succ_r in Hn by lia.
  set (p := 10 ^ Z.of_nat w) in *.
  assert (Hp : 0 < p) by (subst p; apply Z.pow_pos_nonneg; lia).
  assert (Hq : 0 <= n / p < 10)
    by (split; [apply Z.div_pos; lia | apply Z.div_lt_upper_bound; lia]).
  unfold fmt.digit.
  assert (Hminus : N_of_ascii "-" = 45%N) by reflexivity.
  assert (Hplus : N_of_ascii "+" = 43%N) by reflexivity.
  split; apply Ascii.eqb_neq; intros Hc;
    apply (f_equal N_of_ascii) in Hc; rewrite N_ascii_embedding in Hc by lia;
    rewrite ?Hminus, ?Hplus in Hc; lia.
Qed.

Lemma Atoi_d (n : Z) : - 2 ^ 63 <= n < 2 ^ 63 -> strconv.Atoi (fmt.d n) = Some n.
Proof.
  intros Hn. unfold fmt.d, fmt.width.
  destruct (Z.ltb_spec n 0) as [Hneg|Hpos].
  - cbn [Nat.sub Nat.max]. unfold strconv.Atoi. cbn [Ascii.eqb Bool.eqb orb andb].
    destruct (ndigits_positive (- n)) as [w Hw].
    pose proof (ndigits_bound (- n) ltac:(lia)) as Hb. rewrite Hw in *.
    destruct (fixed_starts_with_digit w (- n) ltac:(lia)) as (c & s & Ef & _ & _).
    rewrite (digits_fixed (S w) (- n) 0) by lia. rewrite Ef.
    replace (0 * 10 ^ Z.of_nat (S w) + - n) with (- n) by lia.
    replace (- - n) with n by lia.
    replace ((- 2 ^ 63 <=? n) && (n <? 2 ^ 63)) with true
      by (symmetry; apply andb_true_iff; split; [apply Z.leb_le | apply Z.ltb_lt]; lia).
    reflexivity.
  - cbn [Nat.max]. destruct (ndigits_positive n) as [w Hw].
    pose proof (ndigits_bound n Hpos) as Hb. rewrite Hw in *.
    destruct (fixed_starts_with_digit w n ltac:(lia)) as (c & s & Ef & Hm & Hp).
    unfold strconv.Atoi. pose proof (digits_fixed (S w) n 0 ltac:(lia)) as Hd.
    rewrite Ef in *. rewrite Hm, Hp. cbn [orb]. rewrite Hd.
    replace (0 * 10 ^ Z.of_nat (S w) + n) with n by lia.
    replace ((- 2 ^ 63 <=? n) && (n <? 2 ^ 63)) with true
      by (symmetry; apply andb_true_iff; split; [apply Z.leb_le | apply Z.ltb_lt]; lia).
    reflexivity.
Qed.

Lemma Atoi_range (s : string) (n : Z) : strconv.Atoi s = Some n -> - 2 ^ 63 <= n < 2 ^ 63.
Proof.
  unfold strconv.Atoi. destruct s as [|c rest]; [discriminate|].
  destruct (if (Ascii.eqb c "-" || Ascii.eqb c "+")%bool then rest else String c rest);
    [discriminate|].
  destruct (strconv.digits 0 _) as [m|]; [|discriminate].
  destruct ((- 2 ^ 63 <=? _) && (_ <? 2 ^ 63)) eqn:Hr; [|discriminate].
  intros [= <-]. apply andb_true_iff in Hr as [H1 H2].
  apply Z.leb_le in H1. apply Z.ltb_lt in H2. lia.
Qed.

End Decimals.

(** X24.  Integers are read back as they are printed.  [strconv.Atoi]
    returns [n] for the text that the verb [%d] prints for an [int64]
    [n], and every number it returns is an [int64].  So [parseInt] and
    [getInt] return the number that their text writes, whatever the
    fallback; they return the fallback for the empty text, for a sign
    without digits and for a text with a byte that is neither a leading
    sign nor a digit, and [getInt] also for a variable that is not
    set. *)
Theorem Atoi_reads_what_d_prints (n fallback : Z) (getenv : string -> string) (key : string) :
  - 2 ^ 63 <= n < 2 ^ 63 ->
  strconv.Atoi (fmt.d n) = Some n
  /\ handler.parseInt (fmt.d n) fallback = n
  /\ (getenv key = fmt.d n -> config.getInt getenv key fallback = n)
  /\ (getenv key = "" -> config.getInt getenv key fallback = fallback)
  /\ (forall s m, strconv.Atoi s = Some m -> - 2 ^ 63 <= m < 2 ^ 63)
  /\ handler.parseInt "" fallback = fallback
  /\ handler.parseInt "-" fallback = fallback
  /\ (forall s, handler.parseInt (fmt.d n ++ String " " s) fallback = fallback).
Proof.
  intros Hn. pose proof (Atoi_d n Hn) as Ha. repeat apply conj.
  - exact Ha.
  - unfold handler.parseInt. now rewrite Ha.
  - intros He. unfold config.getInt. rewrite He, Ha.
    destruct (fmt.d n) eqn:Ed; [discriminate Ha | reflexivity].
  - intros He. unfold config.getInt. now rewrite He.
  - apply Atoi_range.
  - reflexivity.
  - reflexivity.
  - intros s. unfold handler.parseInt.
    assert (Hbad : forall t acc, strconv.digits acc (t ++ String " " s) = None).
    { induction t as [|c t IH]; intros acc; cbn [append strconv.digits].
      - reflexivity.
      - destruct (strconv.digitValue c); [apply IH | reflexivity]. }
    unfold strconv.Atoi. destruct (fmt.d n) as [|c rest] eqn:Ed; [discriminate Ha|].
    cbn [append].
    destruct (Ascii.eqb c "-" || Ascii.eqb c "+")%bool.
    + destruct (rest ++ String " " s)%string eqn:Er; [reflexivity|].
      rewrite <- Er. now rewrite Hbad.
    + change (String c (rest ++ String " " s)%string) with (String c rest ++ String " " s)%string.
      now rewrite Hbad.
Qed.

(** X24 at the number 50. *)
Lemma Atoi_reads_what_d_prints_witness : handler.parseInt (fmt.d 50) 0 = 50.
Proof.
  refine (proj1 (proj2 (Atoi_reads_what_d_prints 50 0 (fun _ => "") "LIMIT" _))).
  split; [discriminate | reflexivity].
Defined.

Section ProcessorDefaults.
Import services.

Lemma NewBufferProcessor_BatchSize mon (c : ProcessorConfig) :
  BatchSize (cfg (NewBufferProcessor mon c))
  = if BatchSize c <=? 0 then 50 else BatchSize c.
Proof.
  unfold NewBufferProcessor.
  destruct (Interval c <=? 0); cbn [BatchSize MaxRetries Interval];
    destruct (BatchSize c <=? 0); cbn [BatchSize MaxRetries Interval];
    destruct (MaxRetries c <=? 0); reflexivity.
Qed.

Lemma NewBufferProcessor_Interval mon (c : ProcessorConfig) :
  Interval (cfg (NewBufferProcessor mon c))
  = if Interval c <=? 0 then 30 * 1000000000 else Interval c.
Proof.
  unfold NewBufferProcessor.
  destruct (Interval c <=? 0); cbn [BatchSize MaxRetries Interval];
    destruct (BatchSize c <=? 0); cbn [BatchSize MaxRetries Interval];
    destruct (MaxRetries c <=? 0); reflexivity.
Qed.

End ProcessorDefaults.

(** X25.  The retry budget cannot be switched off.  The processor that
    [NewBufferProcessor] makes from the value of MAX_RETRY_ATTEMPTS, as
    [getInt] reads it with the fallback 3, has a positive [MaxRetries],
    a positive [BatchSize] and a positive [Interval]: a positive number
    is taken as it is, and an unset variable, a text that is not a
    number, zero and a negative number all give the budget 3. *)
Theorem retry_budget_is_positive
  (getenv : string -> string) (mon : option monitor.Status) (interval batch : Z) :
  let retry := config.getInt getenv "MAX_RETRY_ATTEMPTS" 3 in
  let bp := services.NewBufferProcessor mon (services.mkConfig interval batch retry) in
  0 < services.MaxRetries (services.cfg bp)
  /\ 0 < services.BatchSize (services.cfg bp)
  /\ 0 < services.Interval (services.cfg bp)
  /\ (forall n, strconv.Atoi (getenv "MAX_RETRY_ATTEMPTS") = Some n ->
        services.MaxRetries (services.cfg bp) = if n <=? 0 then 3 else n)
  /\ (strconv.Atoi (getenv "MAX_RETRY_ATTEMPTS") = None ->
        services.MaxRetries (services.cfg bp) = 3).
Proof.
  intros retry bp. subst bp.
  rewrite NewBufferProcessor_MaxRetries, NewBufferProcessor_BatchSize,
    NewBufferProcessor_Interval.
  cbn [services.Interval services.BatchSize services.MaxRetries].
  assert (Hr : forall n, strconv.Atoi (getenv "MAX_RETRY_ATTEMPTS") = Some n -> retry = n).
  { intros n Ha. subst retry. unfold config.getInt. rewrite Ha.
    destruct (getenv "MAX_RETRY_ATTEMPTS"); [discriminate Ha | reflexivity]. }
  assert (Hn : strconv.Atoi (getenv "MAX_RETRY_ATTEMPTS") = None -> retry = 3).
  { intros Ha. subst retry. unfold config.getInt. rewrite Ha.
    now destruct (String.eqb _ ""). }
  repeat apply conj.
  - destruct (Z.leb_spec retry 0); lia.
  - destruct (Z.leb_spec batch 0); lia.
  - destruct (Z.leb_spec interval 0); lia.
  - intros n Ha. now rewrite (Hr n Ha).
  - intros Ha. now rewrite (Hn Ha).
Qed.

(* ------------------------------------------------------------------ *)
(** * Further properties of the monitor and of a write from end to end *)

(** X26.  What a refresh decides.  The status that [refresh] stores is
    online exactly when both pings succeeded, whatever the state of the
    buffer store; it reports the buffer as healthy exactly when there is
    a store and its size can be read, and then the size is the number of
    keys, else 0.  With that status the health endpoint answers 200 when
    online and 503 when not, and the processor skips its tick when not
    online.  Before its first refresh a monitor is not online. *)
Theorem refresh_decides_online
  {R E : Type} `{Repositories R E} `{Json}
  (pgPing redisPing viewFails : bool) (clock clock' : Z) (s : buffer.Store)
  (c : services.ProcessorConfig) (te : services.TickEnv E) (w : services.World R) :
  let status := monitor.refresh pgPing redisPing viewFails clock s in
  monitor.IsOnline status = pgPing && redisPing
  /\ (monitor.Buffer status = true <-> s <> None /\ viewFails = false)
  /\ monitor.BufferSize status
     = (if monitor.Buffer status then Z.of_nat (List.length (run.keys s)) else 0)
  /\ handler.StatusCode (fst (handler.Check clock' (handler.mkSystem status s)))
     = (if pgPing && redisPing then 200 else 503)
  /\ (pgPing && redisPing = false -> services.store w <> None ->
      services.Drain (services.mkProcessor (Some status) c) te w
      = (w, [services.EvLog services.Debug "skipping buffer drain (offline)"], None))
  /\ monitor.IsOnline monitor.New = false.
Proof.
  intros status.
  assert (Hst : status
                = monitor.mkStatus pgPing redisPing
                    (match s with Some _ => negb viewFails | None => false end)
                    (match s with
                     | Some b => if viewFails then 0 else Z.of_nat (List.length b)
                     | None => 0
                     end)
                    (TimeAt clock)).
  { subst status. unfold monitor.refresh, monitor.checkBuffer, buffer.Size.
    destruct s as [b|]; [destruct viewFails|]; reflexivity. }
  rewrite Hst. clear Hst status.
  split; [reflexivity|]. split.
  { cbn [monitor.Buffer]. destruct s as [b|]; [destruct viewFails|]; cbn [negb].
    - split; [discriminate | intros [_ ?]; discriminate].
    - split; [intros _; split; [discriminate | reflexivity] | reflexivity].
    - split; [discriminate | intros [? _]; contradiction]. }
  split.
  { cbn [monitor.Buffer monitor.BufferSize].
    destruct s as [b|]; [destruct viewFails|]; cbn [negb run.keys]; try reflexivity.
    now rewrite List.length_map. }
  split.
  { now rewrite Check_StatusCode. }
  split; [|reflexivity].
  intros Hoff Hs. unfold services.Drain. cbn [services.monitor].
  destruct (services.store w); [|contradiction].
  unfold monitor.IsOnline. cbn [monitor.PostgreSQL monitor.Redis]. now rewrite Hoff.
Qed.

Section Replay.
Import buffer services run order.
Context `{Json}.
Local Open Scope list_scope.

Lemma batch_limit_positive (bp : BufferProcessor) :
  exists l, Z.to_nat (if BatchSize (cfg bp) <=? 0 then 50 else BatchSize (cfg bp)) = S l.
Proof.
  destruct (Z.leb_spec (BatchSize (cfg bp)) 0).
  - exists 49%nat. reflexivity.
  - exists (Nat.pred (Z.to_nat (BatchSize (cfg bp)))). lia.
Qed.

Lemma Upsert_unreachable (e : postgres.Env) (u : User) (db : postgres.DB) :
  postgres.up e = false ->
  postgres.Upsert e (Some u) db = (db, Some ErrConnection)
  /\ postgres.afterUpsert e u db = u.
Proof.
  intros Hup. unfold postgres.Upsert, postgres.afterUpsert. now rewrite Hup.
Qed.

Lemma Upsert_reachable (e : postgres.Env) (u : User) (db : postgres.DB) :
  postgres.up e = true -> snd (postgres.Upsert e (Some u) db) = None.
Proof.
  intros Hup. unfold postgres.Upsert. rewrite Hup. cbn [negb].
  now destruct (postgres.find _ (postgres.users db)).
Qed.

End Replay.

(** X27.  A write made while the database is down is replayed.  When
    the database is unreachable and the store, empty so far, takes the
    write, [UpdateProfile] returns the user and no error and leaves one
    record in the store.  The next tick that is not skipped and finds the
    database reachable calls [Upsert] once, with the user that the
    payload decodes to, leaves the tables as that [Upsert] applied to the
    tables of before leaves them, and leaves the store empty; [GetByID]
    then finds the user with the email, role and status of the
    request. *)
Theorem offline_profile_update_is_replayed
  `{Json} (bp bp' : services.BufferProcessor) (e re e' : postgres.Env) (qe : buffer.Env)
  (te : services.TickEnv postgres.Env) (u : User) (payload : string) (db : postgres.DB) :
  postgres.up e = false -> postgres.up re = false -> buffer.fails qe = false ->
  marshalUser u = Some payload -> unmarshalUser payload = Some u ->
  run.online bp' -> services.viewFails te = false ->
  services.removeFails (services.iter te 0) = false ->
  postgres.up (services.repoEnv (services.iter te 0)) = true ->
  postgres.up e' = true ->
  let first := profile.UpdateProfile (profile.mkUseCase (Some (Some bp))) e re qe u
                 (services.mkWorld (Some []) db) in
  let second := services.Drain bp' te (run.world first) in
  run.result first = (Some u, None)
  /\ services.repo (run.world first) = db
  /\ List.length (run.records (services.store (run.world first))) = 1%nat
  /\ run.calls (run.events second) = [services.CallUpsert u]
  /\ services.repo (run.world second)
     = fst (postgres.Upsert (services.repoEnv (services.iter te 0)) (Some u) db)
  /\ services.store (run.world second) = Some []
  /\ run.result second = None
  /\ exists found,
       postgres.userRepository.GetByID e' (domain.User.ID u)
         (services.repo (run.world second)) = (Some found, None)
       /\ domain.User.ID found = domain.User.ID u
       /\ domain.User.Email found = domain.User.Email u
       /\ domain.User.Role found = domain.User.Role u
       /\ domain.User.Status found = domain.User.Status u.
Proof.
  intros Hup Hup' Hq Hm Hu Hon Hv Hrm Hup2 Hup3 first second.
  destruct (Upsert_unreachable e u db Hup) as [HU HA].
  set (item := buffer.mkItem "" (domain.User.ID u) buffer.EntityProfile
                 usecase.OperationUpdate payload 3 0 TimeZero "").
  set (filed := buffer.normalize qe item).
  set (key := buffer.buildKey filed).
  assert (Hp : forall x, buffer.Entity x = buffer.EntityProfile -> buffer.Data x = payload ->
               services.processItem re x db
               = (db, Some ErrConnection,
                  [services.EvCall (services.CallUpsert u);
                   services.EvProcess x (Some ErrConnection)])).
  { intros x He Hd. rewrite <- Hd in Hu. rewrite (processItem_profile re x db u He Hu).
    change (@Upsert _ _ postgres.repositories) with postgres.Upsert.
    destruct (Upsert_unreachable re u db Hup') as [-> _]. reflexivity. }
  assert (Hb : run.world (services.BufferOperation bp re qe item (services.mkWorld (Some []) db))
               = services.mkWorld (Some [(key, buffer.marshal filed)]) db
               /\ run.result (services.BufferOperation bp re qe item
                                (services.mkWorld (Some []) db)) = None).
  { rewrite (BufferOperation_cases bp re qe item (services.mkWorld (Some []) db) [] eq_refl).
    rewrite (Enqueue_commits qe item [] Hq). cbn [services.repo services.store fst snd].
    unfold run.errorOf, run.repoAfter. rewrite (Hp item eq_refl eq_refl).
    destruct (match services.monitor bp with
              | None => true
              | Some status => monitor.IsOnline status
              end); split; reflexivity. }
  assert (Hfirst : run.world first = services.mkWorld (Some [(key, buffer.marshal filed)]) db
                   /\ run.result first = (Some u, None)).
  { subst first. unfold profile.UpdateProfile. cbn [services.repo services.store profile.buffer].
    change (@Upsert _ _ postgres.repositories) with postgres.Upsert.
    change (@afterUpsert _ _ postgres.pointees) with postgres.afterUpsert.
    rewrite HU, HA. unfold services.BufferProfile. rewrite Hm. fold item.
    destruct Hb as [Hw Hr].
    destruct (services.BufferOperation bp re qe item (services.mkWorld (Some []) db))
      as [[w2 evs] err].
    unfold run.world, run.result in *. cbn [fst snd] in *. subst w2 err. split; reflexivity. }
  destruct Hfirst as [Hw1 Hr1].
  assert (Hx : buffer.bucketKey (buffer.set_bucketKey key (buffer.set_bucketKey "" filed)) <> "").
  { cbn [buffer.bucketKey buffer.set_bucketKey]. subst key. apply buildKey_nonempty. }
  assert (Hdata : unmarshalUser
                    (buffer.Data (buffer.set_bucketKey key (buffer.set_bucketKey "" filed)))
                  = Some u).
  { cbn [buffer.Data buffer.set_bucketKey]. subst filed.
    destruct (normalize_rest qe item) as (_ & _ & -> & _). exact Hu. }
  assert (Hent : buffer.Entity (buffer.set_bucketKey key (buffer.set_bucketKey "" filed))
                 = buffer.EntityProfile).
  { cbn [buffer.Entity buffer.set_bucketKey]. subst filed. now rewrite normalize_Entity. }
  assert (Hsecond : second
                    = (services.mkWorld (Some [])
                         (fst (postgres.Upsert (services.repoEnv (services.iter te 0))
                                 (Some u) db)),
                       [services.EvCall (services.CallUpsert u);
                        services.EvProcess
                          (buffer.set_bucketKey key (buffer.set_bucketKey "" filed)) None],
                       None)).
  { subst second. rewrite Hw1. rewrite (Drain_runs bp' te _ db Hon Hv).
    destruct (batch_limit_positive bp') as [l ->].
    cbn [buffer.scan buffer.marshal services.drainItems].
    pose proof (Upsert_reachable (services.repoEnv (services.iter te 0)) u db Hup2) as Hok.
    assert (Hpi : services.processItem (services.repoEnv (services.iter te 0))
                    (buffer.set_bucketKey key (buffer.set_bucketKey "" filed)) db
                  = (fst (postgres.Upsert (services.repoEnv (services.iter te 0)) (Some u) db),
                     None,
                     [services.EvCall (services.CallUpsert u);
                      services.EvProcess
                        (buffer.set_bucketKey key (buffer.set_bucketKey "" filed)) None])).
    { rewrite (processItem_profile _ _ db u Hent Hdata).
      change (@Upsert _ _ postgres.repositories) with postgres.Upsert.
      now rewrite Hok. }
    rewrite (drainItem_success bp' (services.iter te 0) _ _ db Hx Hrm)
      by (unfold run.errorOf; now rewrite Hpi).
    unfold run.repoAfter. rewrite Hpi.
    cbn [fst snd buffer.bucketKey buffer.set_bucketKey bolt.Delete app].
    now rewrite String.eqb_refl. }
  rewrite Hsecond, Hw1, Hr1. unfold run.world, run.events, run.result.
  cbn [fst snd services.repo services.store run.calls].
  repeat (split; [reflexivity|]).
  unfold postgres.userRepository.GetByID. rewrite Hup3. cbn [negb].
  unfold postgres.Upsert. rewrite Hup2. cbn [negb].
  destruct (postgres.find (domain.User.ID u) (postgres.users db)) as [row|] eqn:F;
    cbn [fst postgres.users].
  - rewrite find_modify, F. cbn [option_map]. eexists. split; [reflexivity|]. repeat split.
  - rewrite (find_app_new _ _ _ F). eexists. split; [reflexivity|]. repeat split.
Qed.

(** X27 at the user u1, an empty table and the default budget. *)
Lemma offline_profile_update_is_replayed_witness :
  services.store
    (run.world
       (services.Drain (services.mkProcessor None examples.cfg3)
          (examples.calm (examples.pgUp 9) 1000)
          (run.world
             (profile.UpdateProfile
                (profile.mkUseCase (Some (Some (services.mkProcessor None examples.cfg3))))
                (examples.pgOff 5) (examples.pgOff 6) (buffer.mkEnv 300 "uuid-4" false)
                (examples.userOf "u1") (services.mkWorld (Some []) examples.emptyDB)))))
  = Some [].
Proof.
  refine (proj1 (proj2 (proj2 (proj2 (proj2 (proj2
           (offline_profile_update_is_replayed (services.mkProcessor None examples.cfg3)
              (services.mkProcessor None examples.cfg3)
              (examples.pgOff 5) (examples.pgOff 6) (examples.pgUp 11)
              (buffer.mkEnv 300 "uuid-4" false)
              (examples.calm (examples.pgUp 9) 1000) (examples.userOf "u1")
              (examples.idObject "u1") examples.emptyDB
              eq_refl eq_refl eq_refl eq_refl eq_refl _ eq_refl eq_refl eq_refl
              eq_refl))))))).
  intros status [=].
Defined.

Section ReplayCreate.
Import buffer services run order.
Context `{Json}.
Local Open Scope list_scope.

Lemma Create_unreachable (e : postgres.Env) (t : Task) (db : postgres.DB) :
  postgres.up e = false ->
  postgres.Create e (Some t) db = (db, (None, Some ErrConnection)).
Proof. intros Hup. unfold postgres.Create. now rewrite Hup. Qed.

Lemma afterCreate_ID (e : postgres.Env) (t : Task) (db : postgres.DB) :
  domain.Task.ID (postgres.afterCreate e t db)
  = if String.eqb (domain.Task.ID t) "" then postgres.uuid e else domain.Task.ID t.
Proof.
  unfold postgres.afterCreate. destruct (negb (postgres.up e)); [reflexivity|].
  now destruct (postgres.find _ (postgres.tasks db)).
Qed.

Lemma Create_fresh (e : postgres.Env) (t : Task) (db : postgres.DB) :
  postgres.up e = true -> domain.Task.ID t <> "" ->
  postgres.find (domain.Task.ID t) (postgres.tasks db) = None ->
  snd (snd (postgres.Create e (Some t) db)) = None
  /\ postgres.find (domain.Task.ID t) (postgres.tasks (fst (postgres.Create e (Some t) db)))
     = Some (postgres.mkTaskRow (domain.Task.UserID t) (domain.Task.Title t)
               (domain.Task.Description t) (domain.Task.Status t) (domain.Task.Priority t)
               (domain.Task.DueDate t) (postgres.marshalMap (domain.Task.Metadata t))
               (TimeAt (postgres.now e)) (TimeAt (postgres.now e))).
Proof.
  intros Hup Hid Hf. unfold postgres.Create. rewrite Hup. cbn [negb].
  apply String.eqb_neq in Hid. rewrite Hid, Hf. cbn [fst snd postgres.tasks].
  split; [reflexivity | now apply find_app_new].
Qed.

End ReplayCreate.

(** X28.  A task created while the database is down keeps its ID.  When
    the database is unreachable and the store, empty so far, takes the
    write, [CreateTask] returns the task with the ID that [Create] left
    in it (the generated one when the request had none) and no error.
    The next tick that is not skipped and finds the database reachable,
    with no row under that ID, inserts the row under that same ID, with
    the owner, title, description, status and priority of the request,
    and leaves the store empty; [GetByID] on the ID returned to the
    caller then finds the task. *)
Theorem offline_create_keeps_its_ID
  `{Json} (bp bp' : services.BufferProcessor) (e re e' : postgres.Env) (qe : buffer.Env)
  (te : services.TickEnv postgres.Env) (t : Task) (payload : string) (db : postgres.DB) :
  postgres.up e = false -> postgres.up re = false -> buffer.fails qe = false ->
  postgres.uuid e <> "" ->
  let made := postgres.afterCreate e t db in
  marshalTask made = Some payload -> unmarshalTask payload = Some made ->
  postgres.find (domain.Task.ID made) (postgres.tasks db) = None ->
  run.online bp' -> services.viewFails te = false ->
  services.removeFails (services.iter te 0) = false ->
  postgres.up (services.repoEnv (services.iter te 0)) = true ->
  postgres.up e' = true ->
  let first := task.CreateTask (task.mkUseCase (Some (Some bp))) e re qe t
                 (services.mkWorld (Some []) db) in
  let second := services.Drain bp' te (run.world first) in
  run.result first = (Some made, None)
  /\ domain.Task.ID made <> ""
  /\ services.repo (run.world first) = db
  /\ run.calls (run.events second) = [services.CallCreate made]
  /\ services.store (run.world second) = Some []
  /\ exists found,
       postgres.taskRepository.GetByID e' (domain.Task.ID made)
         (services.repo (run.world second)) = (Some found, None)
       /\ domain.Task.ID found = domain.Task.ID made
       /\ domain.Task.UserID found = domain.Task.UserID t
       /\ domain.Task.Title found = domain.Task.Title t
       /\ domain.Task.Description found = domain.Task.Description t
       /\ domain.Task.Status found = domain.Task.Status t
       /\ domain.Task.Priority found = domain.Task.Priority t.
Proof.
  intros Hup Hup' Hq Huuid made Hm Hu Hfree Hon Hv Hrm Hup2 Hup3 first second.
  assert (Hmade : made
                  = domain.Task.mkTask (domain.Task.ID made) (domain.Task.UserID t)
                      (domain.Task.Title t) (domain.Task.Description t)
                      (domain.Task.Status t) (domain.Task.Priority t)
                      (domain.Task.DueDate t) (domain.Task.Metadata t)
                      (domain.Task.CreatedAt t) (domain.Task.UpdatedAt t)).
  { subst made. unfold postgres.afterCreate. now rewrite Hup. }
  assert (Hid : domain.Task.ID made <> "").
  { subst made. rewrite afterCreate_ID.
    destruct (String.eqb_spec (domain.Task.ID t) ""); assumption. }
  set (item := buffer.mkItem (domain.Task.ID made) (domain.Task.UserID made)
                 buffer.EntityTask usecase.OperationCreate payload 4 0 TimeZero "").
  set (filed := buffer.normalize qe item).
  set (key := buffer.buildKey filed).
  set (x := buffer.set_bucketKey key (buffer.set_bucketKey "" filed)).
  assert (Hp : services.processItem re item db
               = (db, Some ErrConnection,
                  [services.EvCall (services.CallCreate made);
                   services.EvProcess item (Some ErrConnection)])).
  { rewrite (processItem_create re item db made eq_refl eq_refl Hu).
    change (@Create _ _ postgres.repositories) with postgres.Create.
    now rewrite (Create_unreachable re made db Hup'). }
  assert (Hb : run.world (services.BufferOperation bp re qe item (services.mkWorld (Some []) db))
               = services.mkWorld (Some [(key, buffer.marshal filed)]) db
               /\ run.result (services.BufferOperation bp re qe item
                                (services.mkWorld (Some []) db)) = None).
  { rewrite (BufferOperation_cases bp re qe item (services.mkWorld (Some []) db) [] eq_refl).
    rewrite (Enqueue_commits qe item [] Hq). cbn [services.repo services.store fst snd].
    unfold run.errorOf, run.repoAfter. rewrite Hp.
    destruct (match services.monitor bp with
              | None => true
              | Some status => monitor.IsOnline status
              end); split; reflexivity. }
  assert (Hfirst : run.world first = services.mkWorld (Some [(key, buffer.marshal filed)]) db
                   /\ run.result first = (Some made, None)).
  { subst first. unfold task.CreateTask. cbn [services.repo services.store].
    change (@Create _ _ postgres.repositories) with postgres.Create.
    change (@afterCreate _ _ postgres.pointees) with postgres.afterCreate.
    rewrite (Create_unreachable e t db Hup). cbn [fst snd]. fold made.
    unfold task.shouldBuffer, services.BufferTask. cbn [task.buffer]. rewrite Hm. fold item.
    destruct Hb as [Hw Hr].
    destruct (services.BufferOperation bp re qe item (services.mkWorld (Some []) db))
      as [[w2 evs] err].
    unfold run.world, run.result in *. cbn [fst snd] in *. subst w2 err. split; reflexivity. }
  destruct Hfirst as [Hw1 Hr1].
  assert (Hx : buffer.bucketKey x <> "").
  { subst x. cbn [buffer.bucketKey buffer.set_bucketKey]. subst key. apply buildKey_nonempty. }
  assert (Hdata : unmarshalTask (buffer.Data x) = Some made).
  { subst x. cbn [buffer.Data buffer.set_bucketKey]. subst filed.
    destruct (normalize_rest qe item) as (_ & _ & -> & _). exact Hu. }
  assert (Hent : buffer.Entity x = buffer.EntityTask).
  { subst x. cbn [buffer.Entity buffer.set_bucketKey]. subst filed.
    now rewrite normalize_Entity. }
  assert (Hop : buffer.Operation x = buffer.OperationCreate).
  { subst x. cbn [buffer.Operation buffer.set_bucketKey]. subst filed.
    destruct (normalize_rest qe item) as (_ & -> & _). reflexivity. }
  destruct (Create_fresh (services.repoEnv (services.iter te 0)) made db Hup2 Hid Hfree)
    as [Hok Hrow].
  assert (Hpi : services.processItem (services.repoEnv (services.iter te 0)) x db
                = (fst (postgres.Create (services.repoEnv (services.iter te 0)) (Some made) db),
                   None,
                   [services.EvCall (services.CallCreate made); services.EvProcess x None])).
  { rewrite (processItem_create _ x db made Hent Hop Hdata).
    change (@Create _ _ postgres.repositories) with postgres.Create.
    now rewrite Hok. }
  assert (Hsecond : second
                    = (services.mkWorld (Some [])
                         (fst (postgres.Create (services.repoEnv (services.iter te 0))
                                 (Some made) db)),
                       [services.EvCall (services.CallCreate made); services.EvProcess x None],
                       None)).
  { subst second. rewrite Hw1. rewrite (Drain_runs bp' te _ db Hon Hv).
    destruct (batch_limit_positive bp') as [l ->].
    cbn [buffer.scan buffer.marshal services.drainItems]. fold x.
    rewrite (drainItem_success bp' (services.iter te 0) x _ db Hx Hrm)
      by (unfold run.errorOf; now rewrite Hpi).
    unfold run.repoAfter. rewrite Hpi. subst x.
    cbn [fst snd buffer.bucketKey buffer.set_bucketKey bolt.Delete app].
    now rewrite String.eqb_refl. }
  rewrite Hsecond, Hw1, Hr1. unfold run.world, run.events, run.result.
  cbn [fst snd services.repo services.store run.calls].
  repeat (split; [solve [reflexivity | assumption]|]).
  unfold postgres.taskRepository.GetByID. rewrite Hup3. cbn [negb]. rewrite Hrow.
  eexists. split; [reflexivity|]. rewrite Hmade. repeat split.
Qed.

(** X28 at a request without an ID: the generated ID uuid-pg is
    returned, and the row is found under it after the tick. *)
Lemma offline_create_keeps_its_ID_witness :
  run.result
    (task.CreateTask
       (task.mkUseCase (Some (Some (services.mkProcessor None examples.cfg3))))
       (examples.pgOff 5) (examples.pgOff 6) (buffer.mkEnv 300 "uuid-4" false)
       (examples.taskOf "") (services.mkWorld (Some []) examples.emptyDB))
  = (Some (examples.taskOf "uuid-pg"), None).
Proof.
  refine (proj1
           (offline_create_keeps_its_ID (services.mkProcessor None examples.cfg3)
              (services.mkProcessor None examples.cfg3)
              (examples.pgOff 5) (examples.pgOff 6) (examples.pgUp 11)
              (buffer.mkEnv 300 "uuid-4" false)
              (examples.calm (examples.pgUp 9) 1000) (examples.taskOf "")
              (examples.idObject "uuid-pg") examples.emptyDB
              eq_refl eq_refl eq_refl _ eq_refl eq_refl eq_refl _ eq_refl eq_refl eq_refl
              eq_refl)).
  - discriminate.
  - intros status [=].
Defined.
